(** * PhaseFairRWLock: a shallow embedding of src/PhaseFairRWLock.cpp

    The lock is a monitor: every public method runs under [_mutex] and the
    only places where the mutex is given up are the condition waits.  The
    embedding therefore cuts every method into its atomic segments (the code
    between two points where the mutex is not held) and models each segment
    as a function on the lock's fields in a small state/error monad.

    - [int32_t] counters are [Z] with the wrap-around of the machine written
      out ([wrap32]); [uint8_t _phase] is a [Z] holding the numerals of the
      source.
    - A [WriterAlarmClock*] is [option positive] ([None] is [nullptr]); the
      allocated clocks live in a heap [gmap positive (option positive)]
      giving the [next] field of every clock.  The condition variable of a
      clock is identified by the clock's address.
    - [assert] aborts, dereferencing [nullptr] or an address that is not
      allocated is a fault; both are outcomes of the monad.
    - Time points and durations are integer ticks of the steady clock (the
      source counts seconds in a [double]); a critical section reads the
      clock at most twice and takes both readings as arguments. *)

From stdpp Require Import base option list gmap.
From Stdlib Require Import ZArith Lia.

Local Open Scope Z_scope.

(** ** Machine integers *)

Definition wrap32 (z : Z) : Z := (z + 2 ^ 31) `mod` 2 ^ 32 - 2 ^ 31.

Definition INT32_MAX : Z := 2 ^ 31 - 1.
Definition INT32_MIN : Z := - 2 ^ 31.

(** ** Phases (the numerals of the source, named as in the comment there) *)

Definition READING : Z := 0.
Definition READING_WRITERS_WAITING : Z := 1.
Definition HANDOFF : Z := 2.
Definition WRITING : Z := 3.

(** ** The lock's fields *)

Abbreviation ptr := (option positive).

Record PhaseFairRWLock := mkLock {
  _readersRun : Z;
  _readersWait : Z;
  _sleepersStart : ptr;
  _sleepersEnd : ptr;
  _freeList : ptr;
  _phase : Z;
  (** the [next] field of every allocated [WriterAlarmClock] *)
  clocks : gmap positive ptr
}.

(** The constructor [PhaseFairRWLock()]. *)
Definition PhaseFairRWLock_new : PhaseFairRWLock :=
  mkLock 0 0 None None None 0 ∅.

Definition set_readersRun (v : Z) (s : PhaseFairRWLock) : PhaseFairRWLock :=
  mkLock v (_readersWait s) (_sleepersStart s) (_sleepersEnd s) (_freeList s)
         (_phase s) (clocks s).
Definition set_readersWait (v : Z) (s : PhaseFairRWLock) : PhaseFairRWLock :=
  mkLock (_readersRun s) v (_sleepersStart s) (_sleepersEnd s) (_freeList s)
         (_phase s) (clocks s).
Definition set_sleepersStart (v : ptr) (s : PhaseFairRWLock) : PhaseFairRWLock :=
  mkLock (_readersRun s) (_readersWait s) v (_sleepersEnd s) (_freeList s)
         (_phase s) (clocks s).
Definition set_sleepersEnd (v : ptr) (s : PhaseFairRWLock) : PhaseFairRWLock :=
  mkLock (_readersRun s) (_readersWait s) (_sleepersStart s) v (_freeList s)
         (_phase s) (clocks s).
Definition set_freeList (v : ptr) (s : PhaseFairRWLock) : PhaseFairRWLock :=
  mkLock (_readersRun s) (_readersWait s) (_sleepersStart s) (_sleepersEnd s) v
         (_phase s) (clocks s).
Definition set_phase (v : Z) (s : PhaseFairRWLock) : PhaseFairRWLock :=
  mkLock (_readersRun s) (_readersWait s) (_sleepersStart s) (_sleepersEnd s)
         (_freeList s) v (clocks s).
Definition set_clocks (v : gmap positive ptr) (s : PhaseFairRWLock)
  : PhaseFairRWLock :=
  mkLock (_readersRun s) (_readersWait s) (_sleepersStart s) (_sleepersEnd s)
         (_freeList s) (_phase s) v.

(** [_readersRun++], [--_readersRun], [_readersWait++], [_readersWait--] *)
Definition incr_readersRun (s : PhaseFairRWLock) : PhaseFairRWLock :=
  set_readersRun (wrap32 (_readersRun s + 1)) s.
Definition decr_readersRun (s : PhaseFairRWLock) : PhaseFairRWLock :=
  set_readersRun (wrap32 (_readersRun s - 1)) s.
Definition incr_readersWait (s : PhaseFairRWLock) : PhaseFairRWLock :=
  set_readersWait (wrap32 (_readersWait s + 1)) s.
Definition decr_readersWait (s : PhaseFairRWLock) : PhaseFairRWLock :=
  set_readersWait (wrap32 (_readersWait s - 1)) s.

(** ** Signals sent to condition variables *)

Inductive signal :=
  | NotifyAllReaders                (* _cond.notify_all() *)
  | NotifyClock (wac : positive).   (* wac->cond.notify_one() *)

(** ** The monad of a critical section *)

Inductive fault :=
  | NullDeref            (* p->... with p == nullptr *)
  | WildDeref            (* p->... with p not an allocated clock *)
  | AssertionFailed      (* assert(...) *)
  | Diverges.            (* a loop that never ends *)

Inductive result (A : Type) :=
  | Ok (a : A) (s : PhaseFairRWLock) (out : list signal)
  | Fail (f : fault).
Arguments Ok {A} a s out.
Arguments Fail {A} f.

Definition M (A : Type) : Type := PhaseFairRWLock → result A.

Definition ret {A} (a : A) : M A := λ s, Ok a s [].

Definition bind {A B} (m : M A) (k : A → M B) : M B :=
  λ s, match m s with
       | Ok a s1 out1 =>
           match k a s1 with
           | Ok b s2 out2 => Ok b s2 (out1 ++ out2)
           | Fail f => Fail f
           end
       | Fail f => Fail f
       end.

#[global] Instance M_ret : MRet M := @ret.
#[global] Instance M_bind : MBind M := λ A B k m, bind m k.

Definition gets {A} (f : PhaseFairRWLock → A) : M A := λ s, Ok (f s) s [].
Definition modify (f : PhaseFairRWLock → PhaseFairRWLock) : M unit :=
  λ s, Ok () (f s) [].
Definition fail {A} (f : fault) : M A := λ _, Fail f.
Definition notify (e : signal) : M unit := λ s, Ok () s [e].
Definition assert (b : bool) : M unit :=
  if b then ret () else fail AssertionFailed.
Definition when (b : bool) (m : M unit) : M unit := if b then m else ret ().

Definition is_null (p : ptr) : bool := if p is None then true else false.
Definition ptr_eqb (p q : ptr) : bool := bool_decide (p = q).

(** [p->next] as an rvalue. *)
Definition load_next (p : ptr) : M ptr :=
  match p with
  | None => fail NullDeref
  | Some a => λ s, match clocks s !! a with
                   | Some n => Ok n s []
                   | None => Fail WildDeref
                   end
  end.

(** [p->next = v]. *)
Definition store_next (p : ptr) (v : ptr) : M unit :=
  match p with
  | None => fail NullDeref
  | Some a => λ s, match clocks s !! a with
                   | Some _ => Ok () (set_clocks (<[a := v]> (clocks s)) s) []
                   | None => Fail WildDeref
                   end
  end.

(** [p->cond.notify_one()]. *)
Definition notify_clock (p : ptr) : M unit :=
  match p with
  | None => fail NullDeref
  | Some a => λ s, match clocks s !! a with
                   | Some _ => Ok () s [NotifyClock a]
                   | None => Fail WildDeref
                   end
  end.

(** [new WriterAlarmClock()]: a fresh address, [next] initialised to
    [nullptr] by the constructor. *)
Definition new_WriterAlarmClock : M ptr :=
  λ s, let a := fresh (dom (clocks s)) in
       Ok (Some a) (set_clocks (<[a := None]> (clocks s)) s) [].

(** ** Private methods (all called under [_mutex]) *)

Definition getAlarmClock : M ptr :=
  wac ← gets _freeList;
  if negb (is_null wac) then
    n ← load_next wac;
    modify (set_freeList n);;
    store_next wac None;;
    ret wac
  else new_WriterAlarmClock.

Definition returnAlarmClock (wac : ptr) : M unit :=
  assert (negb (is_null wac));;
  f ← gets _freeList;
  store_next wac f;;
  modify (set_freeList wac).

(** The [while (w != nullptr)] loop of [removeFromQueue]; [fuel] bounds the
    number of iterations. *)
Fixpoint removeFromQueue_loop (fuel : nat) (wac w : ptr) : M unit :=
  match fuel with
  | O => fail Diverges
  | S fuel' =>
      if negb (is_null w) then
        wn ← load_next w;
        if ptr_eqb wn wac then
          wacn ← load_next wac;
          store_next w wacn;;
          wn' ← load_next w;
          when (is_null wn') (modify (set_sleepersEnd w))
        else removeFromQueue_loop fuel' wac wn
      else ret ()
  end.

(** A chain without a cycle visits every allocated clock at most once, so
    one more iteration than there are clocks is enough for the loop to end
    whenever it ends at all. *)
Definition removeFromQueue (wac : ptr) : M unit :=
  start ← gets _sleepersStart;
  if ptr_eqb wac start then
    n ← load_next start;
    modify (set_sleepersStart n);;
    when (is_null n) (modify (set_sleepersEnd None))
  else
    sz ← gets (λ s, size (clocks s));
    removeFromQueue_loop (S sz) wac start.

Definition unlockWriteWithMutex : M unit :=
  ph ← gets _phase;
  assert (ph =? 3);;
  rw ← gets _readersWait;
  if 0 <? rw then
    modify (set_phase 0);;
    notify NotifyAllReaders
  else
    start ← gets _sleepersStart;
    if negb (is_null start) then
      modify (set_phase 2);;
      notify_clock start
    else modify (set_phase 0).

Definition unlockReadWithMutex : M unit :=
  modify decr_readersRun;;
  rr ← gets _readersRun;
  if rr =? 0 then
    ph ← gets _phase;
    if ph =? 1 then
      modify (set_phase 2);;
      start ← gets _sleepersStart;
      notify_clock start
    else ret ()
  else ret ().

(** ** Condition waits

    A method that reaches a wait whose predicate is false gives up the
    mutex and sleeps; the rest of the method is a later critical section.
    [waitpoint] names the places where a method can sleep, together with
    the locals that are live there. *)

Inductive waitpoint :=
  | WL_head (wac : ptr)                    (* writeLock, wait for the head *)
  | WL_handoff (wac : ptr)                 (* writeLock, wait for phase 2 *)
  | TWL_head (wac : ptr) (deadline : Z)    (* tryWriteLock(double), first wait *)
  | TWL_handoff (wac : ptr) (deadline : Z) (* tryWriteLock(double), second wait *)
  | RL_wait                                (* readLock *)
  | TRL_wait (deadline : Z).               (* tryReadLock(double) *)

Inductive retval := Void | Bool (b : bool).

Inductive status :=
  | Returned (v : retval)
  | Waiting (k : waitpoint).

(** [cond.wait(guard, pred)] and [cond.wait_until(guard, deadline, pred)]:
<<
      while (!pred()) {
        if (wait_until(lock, deadline) == timeout) return pred();
      }
      return true;
>>
    [expired] says whether the inner wait has just come back with a
    timeout; it is [false] when the wait is entered, and always for the
    untimed [wait].  The continuation receives the value returned. *)
Definition await (expired : bool) (k : waitpoint) (pred : M bool)
    (cont : bool → M status) : M status :=
  pred ≫= λ b : bool,
    if b then cont true
    else if expired then cont false
    else ret (Waiting k).

Definition at_head (wac : ptr) : M bool :=
  gets (λ s, ptr_eqb wac (_sleepersStart s)).
Definition phase_is (n : Z) : M bool := gets (λ s, _phase s =? n).

(** ** writeLock *)

(** After the second wait: "Got the write lock". *)
Definition writeLock_granted (wac : ptr) : M status :=
  modify (set_phase 3);;
  start ← gets _sleepersStart;
  assert (ptr_eqb wac start);;
  removeFromQueue wac;;
  returnAlarmClock wac;;
  ret (Returned Void).

(** From [assert(wac == _sleepersStart)] to the second wait. *)
Definition writeLock_head (wac : ptr) : M status :=
  start ← gets _sleepersStart;
  assert (ptr_eqb wac start);;
  ph ← gets _phase;
  when (ph =? 0) (modify (set_phase 1));;
  await false (WL_handoff wac) (phase_is 2) (λ _, writeLock_granted wac).

Definition writeLock : M status :=
  ph ← gets _phase;
  rr ← gets _readersRun;
  if (ph =? 0) && (rr =? 0) then
    modify (set_phase 3);;
    ret (Returned Void)
  else
    wac ← getAlarmClock;
    start ← gets _sleepersStart;
    if negb (is_null start) then
      e ← gets _sleepersEnd;
      assert (negb (is_null e));;
      store_next e wac;;
      modify (set_sleepersEnd wac);;
      await false (WL_head wac) (at_head wac) (λ _, writeLock_head wac)
    else
      e ← gets _sleepersEnd;
      assert (is_null e);;
      modify (set_sleepersStart wac);;
      modify (set_sleepersEnd wac);;
      writeLock_head wac.

(** ** tryWriteLock() *)

Definition tryWriteLock : M status :=
  start ← gets _sleepersStart;
  if negb (is_null start) then ret (Returned (Bool false))
  else
    ph ← gets _phase;
    rr ← gets _readersRun;
    if (ph =? 0) && (rr =? 0) then
      modify (set_phase 3);;
      ret (Returned (Bool true))
    else ret (Returned (Bool false)).

(** ** tryWriteLock(double timeout) *)

Definition tryWriteLock_timed_granted (wac : ptr) : M status :=
  modify (set_phase 3);;
  removeFromQueue wac;;
  returnAlarmClock wac;;
  ret (Returned (Bool true)).

(** The second [wait_until] came back with [false]: "Timed out, need to
    repair things". *)
Definition tryWriteLock_timed_repair (wac : ptr) : M status :=
  removeFromQueue wac;;
  ph ← gets _phase;
  start ← gets _sleepersStart;
  when ((ph =? 1) && is_null start)
    (modify (set_phase 0);;
     rw ← gets _readersWait;
     when (0 <? rw) (notify NotifyAllReaders));;
  ret (Returned (Bool false)).

(** From [assert(wac == _sleepersStart)] on; [now] is what [_clock.now()]
    reads there. *)
Definition tryWriteLock_timed_head (now : Z) (wac : ptr) (deadline : Z)
  : M status :=
  start ← gets _sleepersStart;
  assert (ptr_eqb wac start);;
  if deadline <? now then
    removeFromQueue wac;;
    ret (Returned (Bool false))
  else
    ph ← gets _phase;
    when (ph =? 0) (modify (set_phase 1));;
    await false (TWL_handoff wac deadline) (phase_is 2)
      (λ ok, if ok then tryWriteLock_timed_granted wac
             else tryWriteLock_timed_repair wac).

(** The first [wait_until] came back with [false]. *)
Definition tryWriteLock_timed_giveup (wac : ptr) : M status :=
  removeFromQueue wac;;
  ret (Returned (Bool false)).

(** [now] is the reading of [_clock.now()] that fixes the deadline, [now']
    the later reading before the second wait. *)
Definition tryWriteLock_timed (timeout : Z) (now now' : Z) : M status :=
  ph ← gets _phase;
  rr ← gets _readersRun;
  if (ph =? 0) && (rr =? 0) then
    modify (set_phase 3);;
    ret (Returned (Bool true))
  else
    wac ← getAlarmClock;
    let deadline := now + timeout in
    start ← gets _sleepersStart;
    if negb (is_null start) then
      e ← gets _sleepersEnd;
      store_next e wac;;
      modify (set_sleepersEnd wac);;
      await false (TWL_head wac deadline) (at_head wac)
        (λ ok, if ok then tryWriteLock_timed_head now' wac deadline
               else tryWriteLock_timed_giveup wac)
    else
      e ← gets _sleepersEnd;
      assert (is_null e);;
      modify (set_sleepersStart wac);;
      modify (set_sleepersEnd wac);;
      tryWriteLock_timed_head now' wac deadline.

(** ** unlockWrite *)

Definition unlockWrite : M status :=
  unlockWriteWithMutex;;
  ret (Returned Void).

(** ** readLock, tryReadLock(), tryReadLock(double timeout) *)

Definition readLock_granted : M status :=
  modify decr_readersWait;;
  modify incr_readersRun;;
  ret (Returned Void).

Definition readLock : M status :=
  ph ← gets _phase;
  if ph =? 0 then
    modify incr_readersRun;;
    ret (Returned Void)
  else
    modify incr_readersWait;;
    await false RL_wait (phase_is 0) (λ _, readLock_granted).

Definition tryReadLock : M status :=
  ph ← gets _phase;
  if ph =? 0 then
    modify incr_readersRun;;
    ret (Returned (Bool true))
  else ret (Returned (Bool false)).

Definition tryReadLock_timed_woken (ok : bool) : M status :=
  if negb ok then
    modify decr_readersWait;;
    ret (Returned (Bool false))
  else
    modify decr_readersWait;;
    modify incr_readersRun;;
    ret (Returned (Bool true)).

Definition tryReadLock_timed (timeout : Z) (now : Z) : M status :=
  ph ← gets _phase;
  if ph =? 0 then
    modify incr_readersRun;;
    ret (Returned (Bool true))
  else
    let deadline := now + timeout in
    modify incr_readersWait;;
    await false (TRL_wait deadline) (phase_is 0) tryReadLock_timed_woken.

(** ** unlockRead, unlock *)

Definition unlockRead : M status :=
  unlockReadWithMutex;;
  ret (Returned Void).

Definition unlock : M status :=
  ph ← gets _phase;
  (if ph =? 3 then unlockWriteWithMutex else unlockReadWithMutex);;
  ret (Returned Void).

(** ** Waking up

    What a sleeping method does when its wait comes back, at time [now]
    for the wait's own clock and [now'] for a later [_clock.now()] of the
    method: the predicate is evaluated under the mutex again and the
    method either goes on or sleeps at the same place. *)
Definition resume (now now' : Z) (k : waitpoint) : M status :=
  match k with
  | WL_head wac =>
      await false k (at_head wac) (λ _, writeLock_head wac)
  | WL_handoff wac =>
      await false k (phase_is 2) (λ _, writeLock_granted wac)
  | TWL_head wac deadline =>
      await (deadline <=? now) k (at_head wac)
        (λ ok, if ok then tryWriteLock_timed_head now' wac deadline
               else tryWriteLock_timed_giveup wac)
  | TWL_handoff wac deadline =>
      await (deadline <=? now) k (phase_is 2)
        (λ ok, if ok then tryWriteLock_timed_granted wac
               else tryWriteLock_timed_repair wac)
  | RL_wait =>
      await false k (phase_is 0) (λ _, readLock_granted)
  | TRL_wait deadline =>
      await (deadline <=? now) k (phase_is 0) tryReadLock_timed_woken
  end.

(** ** Threads and schedules

    A schedule interleaves the critical sections of the threads.  A thread
    that is not asleep may call a method; a thread that is asleep runs its
    next critical section when its wait comes back, which the schedules
    below allow only after a notification of the condition variable it
    sleeps on or, for a timed wait, once the deadline has been reached
    (spurious wake-ups would add schedules, never remove one).  The steady
    clock advances between critical sections, and it may advance inside
    one: [tryWriteLock(double)] reads [_clock.now()] a second time at the
    head of the queue, and [steady_clock] only promises that this reading
    is not earlier than the one before it. *)

Inductive call :=
  | CwriteLock
  | CtryWriteLock
  | CtryWriteLock_timed (timeout : Z)
  | CunlockWrite
  | CreadLock
  | CtryReadLock
  | CtryReadLock_timed (timeout : Z)
  | CunlockRead
  | Cunlock.

(** The first critical section of a call; [now] is what the clock reads
    when the call first reads it and [now'] what a later [_clock.now()] of
    the same critical section reads. *)
Definition enter (c : call) (now now' : Z) : M status :=
  match c with
  | CwriteLock => writeLock
  | CtryWriteLock => tryWriteLock
  | CtryWriteLock_timed timeout => tryWriteLock_timed timeout now now'
  | CunlockWrite => unlockWrite
  | CreadLock => readLock
  | CtryReadLock => tryReadLock
  | CtryReadLock_timed timeout => tryReadLock_timed timeout now
  | CunlockRead => unlockRead
  | Cunlock => unlock
  end.

Record sleeper := mkSleeper {
  sleeps_at : waitpoint;
  notified : bool
}.

Record World := mkWorld {
  lock : PhaseFairRWLock;
  clock : Z;
  sleepers : gmap nat sleeper;
  (** what every finished call returned, latest first *)
  history : list (nat * retval)
}.

Definition World_new : World := mkWorld PhaseFairRWLock_new 0 ∅ [].

(** Does a thread asleep at [k] wait on the condition variable that [e]
    notifies?  A clock's condition variable has at most one waiter, the
    writer that took the clock, so [notify_one] reaches that writer. *)
Definition waits_on (e : signal) (k : waitpoint) : bool :=
  match e, k with
  | NotifyAllReaders, RL_wait => true
  | NotifyAllReaders, TRL_wait _ => true
  | NotifyClock a, WL_head w => ptr_eqb w (Some a)
  | NotifyClock a, WL_handoff w => ptr_eqb w (Some a)
  | NotifyClock a, TWL_head w _ => ptr_eqb w (Some a)
  | NotifyClock a, TWL_handoff w _ => ptr_eqb w (Some a)
  | _, _ => false
  end.

Definition deliver (out : list signal) (ts : gmap nat sleeper)
  : gmap nat sleeper :=
  (λ t, mkSleeper (sleeps_at t)
          (notified t || existsb (λ e, waits_on e (sleeps_at t)) out)) <$> ts.

Definition deadline_of (k : waitpoint) : option Z :=
  match k with
  | TWL_head _ d | TWL_handoff _ d | TRL_wait d => Some d
  | _ => None
  end.

Definition may_wake (now : Z) (t : sleeper) : bool :=
  notified t ||
  match deadline_of (sleeps_at t) with
  | Some d => d <=? now
  | None => false
  end.

(** [Call] and [Wake] run a critical section during which the clock does
    not advance; during [CallLate] and [WakeLate] it advances by [d] ticks
    before the critical section reads it again. *)
Inductive action :=
  | Call (t : nat) (c : call)
  | Wake (t : nat)
  | Tick (d : Z)
  | CallLate (t : nat) (c : call) (d : Z)
  | WakeLate (t : nat) (d : Z).

Inductive run_result :=
  | Runs (w : World)
  | Crash (f : fault)
  | NotEnabled.

(** Thread [t] has run a critical section with result [r]. *)
Definition settle (t : nat) (w : World) (r : result status) : run_result :=
  match r with
  | Fail f => Crash f
  | Ok st s out =>
      let ts := deliver out (delete t (sleepers w)) in
      match st with
      | Waiting k =>
          Runs (mkWorld s (clock w) (<[t := mkSleeper k false]> ts) (history w))
      | Returned v =>
          Runs (mkWorld s (clock w) ts ((t, v) :: history w))
      end
  end.

(** The world [d] ticks later. *)
Definition later (d : Z) (w : World) : World :=
  mkWorld (lock w) (clock w + d) (sleepers w) (history w).

Definition step (a : action) (w : World) : run_result :=
  match a with
  | Call t c =>
      match sleepers w !! t with
      | Some _ => NotEnabled
      | None => settle t w (enter c (clock w) (clock w) (lock w))
      end
  | Wake t =>
      match sleepers w !! t with
      | Some sl =>
          if may_wake (clock w) sl
          then settle t w (resume (clock w) (clock w) (sleeps_at sl) (lock w))
          else NotEnabled
      | None => NotEnabled
      end
  | Tick d =>
      if 0 <=? d then Runs (later d w) else NotEnabled
  | CallLate t c d =>
      match sleepers w !! t with
      | Some _ => NotEnabled
      | None =>
          if 0 <=? d
          then settle t (later d w)
                 (enter c (clock w) (clock w + d) (lock w))
          else NotEnabled
      end
  | WakeLate t d =>
      match sleepers w !! t with
      | Some sl =>
          if may_wake (clock w) sl && (0 <=? d)
          then settle t (later d w)
                 (resume (clock w) (clock w + d) (sleeps_at sl) (lock w))
          else NotEnabled
      | None => NotEnabled
      end
  end.

Fixpoint run (sched : list action) (w : World) : run_result :=
  match sched with
  | [] => Runs w
  | a :: sched' =>
      match step a w with
      | Runs w' => run sched' w'
      | r => r
      end
  end.

(** ** The writer queue and the free list as lists

    [chain h p l]: following [next] from [p] visits exactly the clocks [l]
    and ends in [nullptr]. *)
Inductive chain (h : gmap positive ptr) : ptr → list positive → Prop :=
  | chain_nil : chain h None []
  | chain_cons a n l :
      h !! a = Some n → chain h n l → chain h (Some a) (a :: l).

(** The writer queue of [s] is [q], first in line first, and [_sleepersEnd]
    points to its last clock. *)
Definition queue_is (s : PhaseFairRWLock) (q : list positive) : Prop :=
  chain (clocks s) (_sleepersStart s) q ∧ _sleepersEnd s = last q.

Definition freeList_is (s : PhaseFairRWLock) (f : list positive) : Prop :=
  chain (clocks s) (_freeList s) f.

(** The invariants listed in the class comment, to hold "when nobody holds
    _mutex". *)
Record Inv (s : PhaseFairRWLock) : Prop := mkInv {
  inv_reading : _phase s = READING → _sleepersStart s = None;
  inv_writers_waiting :
    _phase s = READING_WRITERS_WAITING ∨ _phase s = HANDOFF →
    _sleepersStart s ≠ None;
  inv_readers :
    0 < _readersRun s → _phase s = READING ∨ _phase s = READING_WRITERS_WAITING;
  inv_queue : ∃ q, queue_is s q
}.

(** The list [q] without the clock [a]. *)
Definition without (a : positive) (q : list positive) : list positive :=
  filter (λ b, b ≠ a) q.

(** The state after the loop has unlinked [a] behind [x]. *)
Definition unlinked (x : positive) (l2 : list positive) (s : PhaseFairRWLock)
  : PhaseFairRWLock :=
  let s1 := set_clocks (<[x := head l2]> (clocks s)) s in
  if l2 is [] then set_sleepersEnd (Some x) s1 else s1.

(** The fields that [removeFromQueue] never writes. *)
Definition same_outside_queue (s s' : PhaseFairRWLock) : Prop :=
  _readersRun s' = _readersRun s ∧ _readersWait s' = _readersWait s ∧
  _freeList s' = _freeList s ∧ _phase s' = _phase s.

(** The clock handed out by [getAlarmClock]: the first clock of the free
    list, or a newly allocated one when the free list is empty. *)
Definition obtained (s : PhaseFairRWLock) (f : list positive) (a : positive)
  : Prop :=
  (f = [] ∧ clocks s !! a = None) ∨ head f = Some a.

(** The lock once [wac] has been taken by [getAlarmClock] and put behind
    the queue [q], as [writeLock] and [tryWriteLock(double)] do. *)
Definition enqueued (wac : positive) (q f : list positive)
    (s : PhaseFairRWLock) : PhaseFairRWLock :=
  let s1 := set_clocks (<[wac := None]> (clocks s))
              (set_freeList (head (tail f)) s) in
  match last q with
  | Some e =>
      set_sleepersEnd (Some wac)
        (set_clocks (<[e := Some wac]> (clocks s1)) s1)
  | None => set_sleepersEnd (Some wac) (set_sleepersStart (Some wac) s1)
  end.

(** The clocks of [V] are scanned without a match, and scanning goes on
    inside [V] or at [w]. *)
Definition scanned (s : PhaseFairRWLock) (wac : ptr) (V : gset positive)
    (w : ptr) : Prop :=
  ∀ x, x ∈ V → ∃ n, clocks s !! x = Some n ∧ n ≠ wac ∧
                     (n = w ∨ ∃ y, n = Some y ∧ y ∈ V).

(** ** Schedules used below *)

(** A reader holds the lock; writer 2 and then writer 3 call
    [tryWriteLock(timeout)]; writer 2 times out at the head of the queue,
    which leaves the clock of writer 3 at the head with writer 3 still in
    its first wait; the clock then passes the deadline of writer 3. *)
Definition sched_two_timed_writers : list action :=
  [ Call 1 CreadLock;
    Call 2 (CtryWriteLock_timed 10);
    Call 3 (CtryWriteLock_timed 20);
    Tick 11;
    Wake 2;
    Tick 10 ].

(** The same without the call of writer 3. *)
Definition sched_one_timed_writer : list action :=
  [ Call 1 CreadLock;
    Call 2 (CtryWriteLock_timed 10);
    Tick 11;
    Wake 2;
    Tick 10 ].

(** [sched_two_timed_writers], then the first wait of writer 3 comes back:
    both writers have returned [false] and only reader 1, which holds the
    lock, is left. *)
Definition sched_reader_outlives_writers : list action :=
  sched_two_timed_writers ++ [Wake 3].

(** Writer 1 holds the lock, writer 2 is queued by [writeLock] and reader 3
    waits in [readLock]. *)
Definition sched_reader_and_writer_waiting : list action :=
  [ Call 1 CwriteLock;
    Call 2 CwriteLock;
    Call 3 CreadLock ].

(** Writer 1 holds the lock, writer 2 is queued by [writeLock] and writer 3
    behind it by [tryWriteLock(10)]; writer 1 releases, writer 2 takes the
    lock; the deadline of writer 3 passes; writer 2 releases, which hands
    the lock to the clock of writer 3. *)
Definition sched_handoff_to_expired_writer : list action :=
  [ Call 1 CwriteLock;
    Call 2 CwriteLock;
    Call 3 (CtryWriteLock_timed 10);
    Call 1 CunlockWrite;
    Wake 2;
    Tick 11;
    Call 2 CunlockWrite ].

(** ** The destructor *)

(** [delete wac] for a clock that is allocated. *)
Definition delete_clock (p : ptr) : M unit :=
  match p with
  | None => ret ()
  | Some a => λ s, match clocks s !! a with
                   | Some _ => Ok () (set_clocks (delete a (clocks s)) s) []
                   | None => Fail WildDeref
                   end
  end.

(** The [for (wac = _freeList; wac != nullptr; wac = wac2)] loop. *)
Fixpoint destructor_loop (fuel : nat) (wac : ptr) : M unit :=
  match fuel with
  | O => fail Diverges
  | S fuel' =>
      if negb (is_null wac) then
        wac2 ← load_next wac;
        delete_clock wac;;
        destructor_loop fuel' wac2
      else ret ()
  end.

(** [~PhaseFairRWLock()].  Every iteration frees a clock, so the loop ends
    or faults within one more iteration than there are clocks. *)
Definition PhaseFairRWLock_destroy : M unit :=
  wac ← gets _freeList;
  sz ← gets (λ s, size (clocks s));
  destructor_loop (S sz) wac.

(** ** Who is let in *)

(** The call came back with the lock: [writeLock] and [readLock] return,
    the [try] forms return [true]. *)
Definition granted (st : status) : bool :=
  match st with
  | Returned Void => true
  | Returned (Bool b) => b
  | Waiting _ => false
  end.

Definition write_wait (k : waitpoint) : bool :=
  match k with
  | WL_head _ | WL_handoff _ | TWL_head _ _ | TWL_handoff _ _ => true
  | _ => false
  end.

Definition read_wait (k : waitpoint) : bool :=
  match k with
  | RL_wait | TRL_wait _ => true
  | _ => false
  end.

(** The fields that hold neither a clock nor a pointer to one. *)
Definition same_counters (s s' : PhaseFairRWLock) : Prop :=
  _readersRun s' = _readersRun s ∧ _readersWait s' = _readersWait s ∧
  _phase s' = _phase s.

(** A critical section of a reader on [s]: it returns, notifies nobody and
    writes nothing but the two counters; the reader is let in only in
    phase READING, and [_readersRun] counts it exactly then. *)
Definition read_outcome (s : PhaseFairRWLock) (r : result status) : Prop :=
  ∃ st s',
    r = Ok st s' [] ∧
    _phase s' = _phase s ∧ _sleepersStart s' = _sleepersStart s ∧
    _sleepersEnd s' = _sleepersEnd s ∧ _freeList s' = _freeList s ∧
    clocks s' = clocks s ∧
    (granted st = true →
     _phase s = READING ∧ _readersRun s' = wrap32 (_readersRun s + 1)) ∧
    (granted st = false → _readersRun s' = _readersRun s).

(** A critical section run in phase HANDOFF with clock [h] at the head of
    the writer queue keeps its thread out: it returns without letting the
    thread in, notifies nobody, and leaves the phase HANDOFF and [h] at
    the head of the queue. *)
Definition kept_out (h : positive) (r : result status) : Prop :=
  ∃ st s',
    r = Ok st s' [] ∧ granted st = false ∧
    _phase s' = HANDOFF ∧ _sleepersStart s' = Some h.

(** ** The timed and the blocking writer side by side *)

(** What [tryWriteLock(timeout)] with deadline [d] reports where
    [writeLock] reports [r]: [true] for a return, the timed wait for the
    wait. *)
Definition timed_of (d : Z) (r : result status) : result status :=
  match r with
  | Ok (Returned Void) s out => Ok (Returned (Bool true)) s out
  | Ok (Waiting (WL_head w)) s out => Ok (Waiting (TWL_head w d)) s out
  | Ok (Waiting (WL_handoff w)) s out => Ok (Waiting (TWL_handoff w d)) s out
  | r => r
  end.

(** ** The benchmark of [main]

    [main] starts [concurrency] threads that all run
<<
      int const n = iterations / 20;
      for (int i = 0; i < iterations; ++i) {
        if (report && (i % n == 0)) { std::cout << ... }
        lock.writeLock();
        ++value;
        lock.unlockWrite();
      }
>>
    on one lock and one [int value], and joins them.  A [worker] is the
    place a thread has reached, with its loop counter [i]; [++value] is a
    load and a store, two steps that other threads may come between. *)

Inductive worker :=
  | Loop (i : Z)                       (* at the loop test *)
  | Asleep (i : Z) (k : waitpoint)     (* asleep inside writeLock *)
  | Locked (i : Z)                     (* writeLock has returned *)
  | Incr (i : Z) (tmp : Z)             (* value loaded, not yet stored *)
  | Unlock (i : Z)                     (* value stored *)
  | Finished.

Record Bench := mkBench {
  b_lock : PhaseFairRWLock;
  b_value : Z;
  b_workers : list worker;
  (** the clocks whose sleeper has been notified and has not run since *)
  b_notified : gset positive
}.

Inductive bench_result :=
  | BRuns (b : Bench)
  | BCrash (f : fault)
  | BDivisionByZero.

(** [main] up to the joins: a new lock, [value = 0], and the threads
    created by [threads.emplace_back(func, i, count, i >= 0)]. *)
Definition bench_start (concurrency : nat) : Bench :=
  mkBench PhaseFairRWLock_new 0 (replicate concurrency (Loop 0)) ∅.

(** [report], the argument [i >= 0] of thread [t]. *)
Definition report (t : nat) : bool := 0 <=? Z.of_nat t.

(** [i % n] of C++: the remainder of the division that truncates, and no
    value at all when [n] is zero. *)
Definition cpp_rem (i n : Z) : option Z :=
  if n =? 0 then None else Some (Z.rem i n).

(** The clock a sleeping writer waits on. *)
Definition clock_of (k : waitpoint) : ptr :=
  match k with
  | WL_head w | WL_handoff w | TWL_head w _ | TWL_handoff w _ => w
  | RL_wait | TRL_wait _ => None
  end.

(** Worker [w] is asleep on the condition variable that [e] notifies. *)
Definition hears (e : signal) (w : worker) : bool :=
  match w with
  | Asleep _ k => waits_on e k
  | _ => false
  end.

(** The clocks that [out] notifies while a worker of [ws] sleeps on them; a
    [notify_one] without a waiter is lost. *)
Definition notified_by (out : list signal) (ws : list worker)
  : gset positive :=
  list_to_set
    (omap (λ e, match e with
                | NotifyClock a => if existsb (hears e) ws then Some a else None
                | NotifyAllReaders => None
                end) out).

(** The clock a worker that runs has been woken on, if it was asleep. *)
Definition woken (w : worker) : gset positive :=
  match w with
  | Asleep _ k => if clock_of k is Some a then {[a]} else ∅
  | _ => ∅
  end.

(** The next step of thread [t].  [iterations / 20] is the division that
    truncates ([Z.quot]); what the thread prints is left out.  A sleeping
    thread may wake at any time, notified or not (a condition variable may
    wake spuriously); [b_notified] records who has been notified. *)
Definition bench_step (iterations : Z) (t : nat) (b : Bench) : bench_result :=
  let n := iterations ÷ 20 in
  let go w0 w l out v :=
    let ws := <[t := w]> (b_workers b) in
    BRuns (mkBench l v ws (b_notified b ∖ woken w0 ∪ notified_by out ws)) in
  match b_workers b !! t with
  | None | Some Finished => BRuns b
  | Some (Loop i as w0) =>
      if i <? iterations then
        match (if report t then cpp_rem i n else Some 1) with
        | None => BDivisionByZero
        | Some _ =>
            match writeLock (b_lock b) with
            | Ok (Returned _) l out => go w0 (Locked i) l out (b_value b)
            | Ok (Waiting k) l out => go w0 (Asleep i k) l out (b_value b)
            | Fail f => BCrash f
            end
        end
      else go w0 Finished (b_lock b) [] (b_value b)
  | Some (Asleep i k as w0) =>
      match resume 0 0 k (b_lock b) with
      | Ok (Returned _) l out => go w0 (Locked i) l out (b_value b)
      | Ok (Waiting k') l out => go w0 (Asleep i k') l out (b_value b)
      | Fail f => BCrash f
      end
  | Some (Locked i as w0) =>
      go w0 (Incr i (b_value b)) (b_lock b) [] (b_value b)
  | Some (Incr i tmp as w0) =>
      go w0 (Unlock i) (b_lock b) [] (wrap32 (tmp + 1))
  | Some (Unlock i as w0) =>
      match unlockWrite (b_lock b) with
      | Ok _ l out => go w0 (Loop (wrap32 (i + 1))) l out (b_value b)
      | Fail f => BCrash f
      end
  end.

Fixpoint bench_run (iterations : Z) (sched : list nat) (b : Bench)
  : bench_result :=
  match sched with
  | [] => BRuns b
  | t :: sched' =>
      match bench_step iterations t b with
      | BRuns b' => bench_run iterations sched' b'
      | r => r
      end
  end.

(** The thread holds the write lock. *)
Definition holds (w : worker) : bool :=
  match w with
  | Locked _ | Incr _ _ | Unlock _ => true
  | _ => false
  end.

(** The increments a worker has stored so far. *)
Definition stored (iterations : Z) (w : worker) : Z :=
  match w with
  | Loop i | Asleep i _ | Locked i | Incr i _ => i
  | Unlock i => i + 1
  | Finished => iterations
  end.

Definition sumZ {A} (g : A → Z) (l : list A) : Z :=
  foldr (λ a acc, g a + acc) 0 l.

(** The loop counter of a worker is in range. *)
Definition index_ok (iterations : Z) (w : worker) : Prop :=
  match w with
  | Loop i => 0 ≤ i ≤ iterations
  | Asleep i _ | Locked i | Incr i _ | Unlock i => 0 ≤ i < iterations
  | Finished => True
  end.

(** The lock of the benchmark: no reader ever comes, the queue [q] and the
    free list [f] are disjoint chains, and the phase is READING with an
    empty queue, HANDOFF with a writer queued, or WRITING. *)
Record LockInv (l : PhaseFairRWLock) (q f : list positive) : Prop := mkLockInv {
  li_readersRun : _readersRun l = 0;
  li_readersWait : _readersWait l = 0;
  li_queue : queue_is l q;
  li_freeList : freeList_is l f;
  li_disjoint : q ## f;
  li_phase : _phase l = READING ∧ q = [] ∨ _phase l = HANDOFF ∧ q ≠ [] ∨
             _phase l = WRITING
}.

(** A sleeper at [k] is where the queue [q] says it may be. *)
Definition sleeps_in (q : list positive) (k : waitpoint) : Prop :=
  ∃ a, (k = WL_head (Some a) ∧ a ∈ q) ∨
       (k = WL_handoff (Some a) ∧ head q = Some a).

(** The workers of the benchmark against a lock in phase [ph] with queue
    [q]: sleepers sleep in [writeLock] on clocks of their own that are in
    the queue, at the head of it in the second wait; a worker that holds
    the lock is alone in that and the phase is WRITING; [value] counts the
    increments stored. *)
Record WorkersInv (iterations : Z) (ph : Z) (q : list positive)
    (ws : list worker) (v : Z) : Prop := mkWorkersInv {
  wi_kind : ∀ t i k, ws !! t = Some (Asleep i k) → sleeps_in q k;
  wi_distinct : ∀ t1 t2 i1 i2 k1 k2,
      ws !! t1 = Some (Asleep i1 k1) → ws !! t2 = Some (Asleep i2 k2) →
      clock_of k1 = clock_of k2 → t1 = t2;
  wi_holds : ∀ t w, ws !! t = Some w → holds w = true → ph = WRITING;
  wi_alone : ∀ t1 t2 w1 w2,
      ws !! t1 = Some w1 → ws !! t2 = Some w2 →
      holds w1 = true → holds w2 = true → t1 = t2;
  wi_value : v = wrap32 (sumZ (stored iterations) ws);
  wi_tmp : ∀ t i tmp, ws !! t = Some (Incr i tmp) → tmp = v;
  wi_index : ∀ t w, ws !! t = Some w → index_ok iterations w
}.

(** Nobody waits in vain: while the phase is WRITING a worker holds the
    lock, every clock in the queue has its sleeper, and in HANDOFF the
    sleeper at the head of the queue has been notified. *)
Record LiveInv (ph : Z) (q : list positive) (ws : list worker)
    (nt : gset positive) : Prop := mkLiveInv {
  lv_holder : ph = WRITING → ∃ t w, ws !! t = Some w ∧ holds w = true;
  lv_sleeper : ∀ a, a ∈ q →
      ∃ t i k, ws !! t = Some (Asleep i k) ∧ clock_of k = Some a;
  lv_notified : ph = HANDOFF → ∃ a, head q = Some a ∧ a ∈ nt
}.

Definition BenchInv (iterations : Z) (b : Bench) : Prop :=
  ∃ q f, LockInv (b_lock b) q f ∧
         WorkersInv iterations (_phase (b_lock b)) q (b_workers b) (b_value b) ∧
         LiveInv (_phase (b_lock b)) q (b_workers b) (b_notified b).

(** Thread [t] of [b] can run without a spurious wake-up: it is not asleep,
    or it has been notified and [writeLock] returns when it wakes. *)
Definition runnable (iterations : Z) (b : Bench) (t : nat) : Prop :=
  match b_workers b !! t with
  | None | Some Finished => False
  | Some (Asleep i k) =>
      (∃ a, clock_of k = Some a ∧ a ∈ b_notified b) ∧
      ∃ b', bench_step iterations t b = BRuns b' ∧
            b_workers b' !! t = Some (Locked i)
  | Some _ => True
  end.


(** Two threads of the benchmark that take turns, step by step. *)
Definition sched_round_robin : list nat :=
  mjoin (replicate 200 [0; 1]%nat).

(** * Properties *)

(** ** Running the monad *)

Lemma bind_Ok {A B} (m : M A) (k : A → M B) s a s1 out1 :
  m s = Ok a s1 out1 →
  (m ≫= k) s =
    match k a s1 with
    | Ok b s2 out2 => Ok b s2 (out1 ++ out2)
    | Fail f => Fail f
    end.
Proof. intros H. unfold mbind, M_bind, bind. by rewrite H. Qed.

Lemma bind_Fail {A B} (m : M A) (k : A → M B) s f :
  m s = Fail f → (m ≫= k) s = Fail f.
Proof. intros H. unfold mbind, M_bind, bind. by rewrite H. Qed.

Lemma bind_gets {A B} (f : PhaseFairRWLock → A) (k : A → M B) s :
  (gets f ≫= k) s = k (f s) s.
Proof. unfold mbind, M_bind, bind, gets. by destruct (k (f s) s). Qed.

Lemma bind_modify {B} (f : PhaseFairRWLock → PhaseFairRWLock)
    (k : unit → M B) s :
  (modify f ≫= k) s = k () (f s).
Proof. unfold mbind, M_bind, bind, modify. by destruct (k () (f s)). Qed.

Lemma bind_ret {A B} (a : A) (k : A → M B) s : (ret a ≫= k) s = k a s.
Proof. unfold mbind, M_bind, bind, ret. by destruct (k a s). Qed.

Lemma bind_assert_true {B} (k : unit → M B) s : (assert true ≫= k) s = k () s.
Proof. apply bind_ret. Qed.

Lemma bind_assert_false {B} (k : unit → M B) s :
  (assert false ≫= k) s = Fail AssertionFailed.
Proof. done. Qed.

Lemma bind_when_false {B} (m : M unit) (k : unit → M B) s :
  (when false m ≫= k) s = k () s.
Proof. apply bind_ret. Qed.

Lemma bind_assoc {A B C} (m : M A) (k : A → M B) (k' : B → M C) s :
  ((m ≫= k) ≫= k') s = (m ≫= λ a, k a ≫= k') s.
Proof.
  unfold mbind, M_bind, bind.
  destruct (m s) as [a s1 o1|]; [|done].
  destruct (k a s1) as [b s2 o2|]; [|done].
  destruct (k' b s2) as [c s3 o3|]; [|done].
  by rewrite app_assoc.
Qed.

(** ** Machine integers *)

Lemma wrap32_id z : INT32_MIN ≤ z ≤ INT32_MAX → wrap32 z = z.
Proof.
  unfold wrap32, INT32_MIN, INT32_MAX. intros H.
  rewrite Z.mod_small; lia.
Qed.

Lemma wrap32_range z : INT32_MIN ≤ wrap32 z ≤ INT32_MAX.
Proof.
  unfold wrap32, INT32_MIN, INT32_MAX.
  pose proof (Z.mod_pos_bound (z + 2 ^ 31) (2 ^ 32)). lia.
Qed.

Lemma wrap32_succ_pred z :
  INT32_MIN ≤ z ≤ INT32_MAX → wrap32 (wrap32 (z + 1) - 1) = z.
Proof.
  unfold wrap32, INT32_MIN, INT32_MAX. intros H.
  destruct (decide (z = 2 ^ 31 - 1)) as [->|Hne]; [done|].
  rewrite (Z.mod_small (z + 1 + 2 ^ 31)) by lia.
  rewrite Z.mod_small; lia.
Qed.

(** ** Chains *)

Lemma chain_functional h p l1 l2 : chain h p l1 → chain h p l2 → l1 = l2.
Proof.
  intros H1. revert l2.
  induction H1 as [|a n l Ha _ IH]; intros l2 H2; inversion H2; subst; [done|].
  f_equal. apply IH. congruence.
Qed.

Lemma chain_head h p l : chain h p l → p = head l.
Proof. by destruct 1. Qed.

Lemma chain_allocated h p l a : chain h p l → a ∈ l → is_Some (h !! a).
Proof.
  induction 1 as [|b n l Hb _ IH]; intros Hin.
  - by apply elem_of_nil in Hin.
  - apply elem_of_cons in Hin as [->|Hin]; eauto.
Qed.

Lemma chain_length_suffix h a l l' :
  chain h (Some a) l → chain h (Some a) l' → length l = length l'.
Proof. intros H1 H2. by rewrite (chain_functional _ _ _ _ H1 H2). Qed.

(** A clock of a chain is the head of the rest of the chain from there. *)
Lemma chain_split h p l a :
  chain h p l → a ∈ l → ∃ l1 l2, l = l1 ++ a :: l2 ∧ chain h (Some a) (a :: l2).
Proof.
  induction 1 as [|b n l Hb Hc IH]; intros Hin.
  - by apply elem_of_nil in Hin.
  - destruct (decide (a = b)) as [->|Hne].
    + exists [], l. split; [done|]. by econstructor.
    + apply elem_of_cons in Hin as [?|Hin]; [done|].
      destruct (IH Hin) as (l1 & l2 & -> & Hc').
      by exists (b :: l1), l2.
Qed.

(** A chain that ends never visits a clock twice. *)
Lemma chain_NoDup h p l : chain h p l → NoDup l.
Proof.
  induction 1 as [|a n l Ha Hc IH]; [constructor|].
  constructor; [|done].
  intros Hin.
  destruct (chain_split _ _ _ _ Hc Hin) as (l1 & l2 & -> & Hc').
  assert (Hc2 : chain h (Some a) (a :: l1 ++ a :: l2)) by by econstructor.
  pose proof (chain_length_suffix _ _ _ _ Hc' Hc2) as Hlen.
  simpl in Hlen. rewrite length_app in Hlen. simpl in Hlen. lia.
Qed.

(** Writing the [next] field of a clock that is not on a chain leaves the
    chain as it is; so does allocating a clock. *)
Lemma chain_insert_other h p l a v :
  chain h p l → a ∉ l → chain (<[a := v]> h) p l.
Proof.
  induction 1 as [|b n l Hb Hc IH]; intros Hnin; [constructor|].
  apply not_elem_of_cons in Hnin as [Hne Hnin].
  econstructor; [|by apply IH].
  by rewrite lookup_insert_ne.
Qed.

Lemma chain_last_next h p l e :
  chain h p l → last l = Some e → h !! e = Some None.
Proof.
  induction 1 as [|a n l Ha Hc IH]; [done|].
  destruct Hc as [|b m l' Hb Hc].
  - simpl. by intros [= <-].
  - intros Hl. apply IH. by rewrite last_cons_cons in Hl.
Qed.

(** Appending the clock [a] behind the last clock [e] of a chain. *)
Lemma chain_snoc h p l e a :
  chain h p l → last l = Some e → a ∉ l → h !! a = Some None →
  chain (<[e := Some a]> h) p (l ++ [a]).
Proof.
  intros Hc. pose proof (chain_NoDup _ _ _ Hc) as Hnd.
  induction Hc as [|b n l Hb Hc IH]; [done|].
  intros Hl Hnin Ha.
  apply not_elem_of_cons in Hnin as [Hne Hnin].
  apply NoDup_cons in Hnd as [Hbl Hnd].
  destruct Hc as [|c m l' Hc1 Hc2].
  - simpl in Hl. injection Hl as <-. simpl.
    econstructor; [by rewrite lookup_insert_eq|].
    econstructor; [by rewrite lookup_insert_ne|constructor].
  - rewrite last_cons_cons in Hl.
    assert (b ≠ e).
    { intros ->. apply Hbl. by apply last_Some_elem_of. }
    rewrite <- app_comm_cons.
    econstructor; [by rewrite lookup_insert_ne|].
    by apply IH.
Qed.

Lemma queue_is_head s q : queue_is s q → _sleepersStart s = head q.
Proof. intros [Hc _]. by apply chain_head in Hc. Qed.

Lemma queue_is_head_allocated s h q :
  queue_is s (h :: q) → _sleepersStart s = Some h ∧ is_Some (clocks s !! h).
Proof.
  intros Hq. split; [by apply queue_is_head in Hq|].
  destruct Hq as [Hc _]. eapply chain_allocated; [done|]. by left.
Qed.

Ltac crunch :=
  unfold phase_is, at_head;
  unfold mbind, M_bind, bind, gets, modify, ret, fail, notify, assert, when;
  unfold incr_readersRun, decr_readersRun, incr_readersWait, decr_readersWait;
  cbn beta iota.

(** Run a critical section on a lock whose fields are given by equations
    among the hypotheses. *)
Ltac field_rw :=
  match goal with
  | H : _readersRun ?s = _ |- context [_readersRun ?s] => rewrite H
  | H : _readersWait ?s = _ |- context [_readersWait ?s] => rewrite H
  | H : _sleepersStart ?s = _ |- context [_sleepersStart ?s] => rewrite H
  | H : _sleepersEnd ?s = _ |- context [_sleepersEnd ?s] => rewrite H
  | H : _freeList ?s = _ |- context [_freeList ?s] => rewrite H
  | H : _phase ?s = _ |- context [_phase ?s] => rewrite H
  | H : clocks ?s !! ?a = _ |- context [clocks ?s !! ?a] => rewrite H
  end.
Ltac exec := crunch; repeat (progress simpl || field_rw).

(** ** Release policies *)

(** C3.  [unlockWrite] called in phase WRITING on a lock whose writer queue
    is [q] returns and writes no field but [_phase]: the lock it leaves has
    every other field as before, and with a reader waiting its phase is
    READING and the readers' condition variable is notified (notify_all),
    whether a writer is queued or not; else with [q] non-empty its phase
    is HANDOFF and exactly the head clock of [q] is notified; else its
    phase is READING and nobody is notified. *)
Theorem unlockWrite_release_policy (s : PhaseFairRWLock) (q : list positive) :
  _phase s = WRITING →
  queue_is s q →
  ∃ ph out,
    unlockWrite s =
      Ok (Returned Void)
         (mkLock (_readersRun s) (_readersWait s) (_sleepersStart s)
            (_sleepersEnd s) (_freeList s) ph (clocks s)) out ∧
    (0 < _readersWait s → ph = READING ∧ out = [NotifyAllReaders]) ∧
    (_readersWait s ≤ 0 →
     ∀ h q', q = h :: q' → ph = HANDOFF ∧ out = [NotifyClock h]) ∧
    (_readersWait s ≤ 0 → q = [] → ph = READING ∧ out = []).
Proof.
  intros Hph Hq.
  unfold unlockWrite, unlockWriteWithMutex. crunch. rewrite Hph. simpl.
  destruct (Z.ltb_spec 0 (_readersWait s)) as [Hrw|Hrw].
  - exists READING, [NotifyAllReaders]. simpl.
    split; [done|]. repeat split; intros; lia.
  - destruct q as [|h q'].
    + apply queue_is_head in Hq. simpl in Hq. rewrite Hq. simpl.
      exists READING, []. split; [unfold set_phase; by rewrite Hq|].
      repeat split; intros; try lia; done.
    + apply queue_is_head_allocated in Hq as [Hs [n Hn]].
      rewrite Hs. simpl. unfold set_phase at 1. simpl. rewrite Hn.
      exists HANDOFF, [NotifyClock h].
      split; [unfold set_phase; by rewrite Hs|].
      repeat split; intros; try lia; try done; by simplify_eq.
Qed.

Lemma unlockWrite_release_policy_witness :
  unlockWrite (mkLock 0 0 (Some 1%positive) (Some 1%positive) None 3
                 {[ 1%positive := None ]})
  = Ok (Returned Void)
      (mkLock 0 0 (Some 1%positive) (Some 1%positive) None 2
         {[ 1%positive := None ]}) [NotifyClock 1%positive]
  ∧ unlockWrite (mkLock 0 2 (Some 1%positive) (Some 1%positive) None 3
                   {[ 1%positive := None ]})
  = Ok (Returned Void)
      (mkLock 0 2 (Some 1%positive) (Some 1%positive) None 0
         {[ 1%positive := None ]}) [NotifyAllReaders]
  ∧ unlockWrite (mkLock 0 0 None None None 3 ∅)
  = Ok (Returned Void) (mkLock 0 0 None None None 0 ∅) [].
Proof.
  assert (Hq : ∀ rw, queue_is (mkLock 0 rw (Some 1%positive) (Some 1%positive)
                                 None 3 {[ 1%positive := None ]}) [1%positive]).
  { intros rw. split; [|reflexivity]. simpl.
    eapply chain_cons; [reflexivity|constructor]. }
  split; [|split].
  - destruct (unlockWrite_release_policy
                (mkLock 0 0 (Some 1%positive) (Some 1%positive) None 3
                   {[ 1%positive := None ]}) [1%positive])
      as (ph & out & Hrun & _ & Hhand & _); [reflexivity|apply Hq|].
    destruct (Hhand ltac:(simpl; lia) 1%positive [] eq_refl) as [-> ->].
    exact Hrun.
  - destruct (unlockWrite_release_policy
                (mkLock 0 2 (Some 1%positive) (Some 1%positive) None 3
                   {[ 1%positive := None ]}) [1%positive])
      as (ph & out & Hrun & Hreaders & _); [reflexivity|apply Hq|].
    destruct (Hreaders ltac:(simpl; lia)) as [-> ->].
    exact Hrun.
  - destruct (unlockWrite_release_policy (mkLock 0 0 None None None 3 ∅) [])
      as (ph & out & Hrun & _ & _ & Hfree).
    { reflexivity. }
    { split; [constructor|reflexivity]. }
    destruct (Hfree ltac:(simpl; lia) eq_refl) as [-> ->].
    exact Hrun.
Defined.

(** Every reader asleep on [_cond] is reached by [notify_all]. *)
Lemma deliver_NotifyAllReaders (ts : gmap nat sleeper) t sl :
  ts !! t = Some sl →
  sleeps_at sl = RL_wait ∨ (∃ d, sleeps_at sl = TRL_wait d) →
  deliver [NotifyAllReaders] ts !! t = Some (mkSleeper (sleeps_at sl) true).
Proof.
  intros Ht Hk. unfold deliver. rewrite lookup_fmap, Ht. simpl.
  destruct Hk as [->|[d ->]]; simpl; by rewrite orb_true_r.
Qed.

(** A notified clock reaches nobody but a writer asleep on that clock. *)
Lemma deliver_NotifyClock (ts : gmap nat sleeper) a t sl :
  ts !! t = Some sl →
  (∀ d, sleeps_at sl ≠ WL_head (Some a) ∧ sleeps_at sl ≠ WL_handoff (Some a) ∧
        sleeps_at sl ≠ TWL_head (Some a) d ∧
        sleeps_at sl ≠ TWL_handoff (Some a) d) →
  deliver [NotifyClock a] ts !! t = Some sl.
Proof.
  intros Ht Hk. unfold deliver. rewrite lookup_fmap, Ht.
  destruct sl as [k n]. cbn -[waits_on] in *. f_equal. f_equal.
  assert (waits_on (NotifyClock a) k = false) as ->.
  { destruct k as [w|w|w d|w d| |d]; simpl; try done;
      unfold ptr_eqb; apply bool_decide_eq_false; intros ->;
      destruct (Hk 0) as (?&?&?&?); try done;
      destruct (Hk d) as (?&?&?&?); done. }
  by rewrite !orb_false_r.
Qed.

(** Without a queued writer the last reader's release in phase
    READING_WRITERS_WAITING dereferences [_sleepersStart == nullptr]. *)
Lemma unlockRead_empty_queue_faults (s : PhaseFairRWLock) :
  _readersRun s = 1 → _phase s = READING_WRITERS_WAITING →
  _sleepersStart s = None →
  unlockRead s = Fail NullDeref.
Proof.
  intros Hr Hph Hs. unfold unlockRead, unlockReadWithMutex. by exec.
Qed.

(** C4.  [unlockRead] takes one from [_readersRun] (an [int32_t]).  If the
    counter does not reach zero, or the phase is not
    READING_WRITERS_WAITING, the call writes no other field and notifies
    nobody.  If the counter reaches zero in phase READING_WRITERS_WAITING
    and a writer is queued, the phase becomes HANDOFF and the clock at the
    head of the queue is notified.  If the counter reaches zero in phase
    READING_WRITERS_WAITING and no writer is queued, the call dereferences
    [_sleepersStart == nullptr]; public calls lead there
    ([sched_reader_outlives_writers]): reader 1 holds the lock, the timed
    writers 2 and 3 have both returned [false], and the release of
    reader 1 faults instead of moving to HANDOFF. *)
Theorem unlockRead_release_policy_fails_on_empty_queue :
  (∀ s : PhaseFairRWLock,
     ¬ (wrap32 (_readersRun s - 1) = 0 ∧
        _phase s = READING_WRITERS_WAITING) →
     unlockRead s =
       Ok (Returned Void)
          (mkLock (wrap32 (_readersRun s - 1)) (_readersWait s)
             (_sleepersStart s) (_sleepersEnd s) (_freeList s) (_phase s)
             (clocks s)) []) ∧
  (∀ (s : PhaseFairRWLock) h q,
     queue_is s (h :: q) →
     wrap32 (_readersRun s - 1) = 0 → _phase s = READING_WRITERS_WAITING →
     unlockRead s =
       Ok (Returned Void)
          (mkLock 0 (_readersWait s) (_sleepersStart s) (_sleepersEnd s)
             (_freeList s) HANDOFF (clocks s)) [NotifyClock h]) ∧
  (∀ s : PhaseFairRWLock,
     INT32_MIN < _readersRun s ≤ INT32_MAX →
     wrap32 (_readersRun s - 1) = _readersRun s - 1) ∧
  (∀ s : PhaseFairRWLock,
     wrap32 (_readersRun s - 1) = 0 → _phase s = READING_WRITERS_WAITING →
     _sleepersStart s = None →
     unlockRead s = Fail NullDeref) ∧
  ∃ w,
    run sched_reader_outlives_writers World_new = Runs w ∧
    history w = [(3%nat, Bool false); (2%nat, Bool false); (1%nat, Void)] ∧
    sleepers w = ∅ ∧
    _readersRun (lock w) = 1 ∧
    _phase (lock w) = READING_WRITERS_WAITING ∧
    queue_is (lock w) [] ∧
    step (Call 1 CunlockRead) w = Crash NullDeref.
Proof.
  split; [|split; [|split; [|split]]].
  - intros s Hno.
    unfold unlockRead, unlockReadWithMutex. crunch. simpl.
    destruct (Z.eqb_spec (wrap32 (_readersRun s - 1)) 0) as [Hr|Hr];
      [|reflexivity].
    simpl. destruct (Z.eqb_spec (_phase s) 1) as [Hph|Hph]; [|reflexivity].
    destruct Hno. by split.
  - intros s h q Hq Hr Hph.
    apply queue_is_head_allocated in Hq as [Hs [n Hn]].
    unfold unlockRead, unlockReadWithMutex. crunch. simpl.
    destruct (Z.eqb_spec (wrap32 (_readersRun s - 1)) 0) as [_|?]; [|done].
    simpl. destruct (Z.eqb_spec (_phase s) 1) as [_|?]; [|done].
    simpl. destruct (_sleepersStart s) as [h'|] eqn:Hs'; [|done].
    injection Hs as ->. simpl. rewrite Hn.
    unfold set_phase, set_readersRun. simpl. by rewrite Hr, Hs'.
  - intros s Hr. apply wrap32_id. unfold INT32_MIN, INT32_MAX in *. lia.
  - intros s Hr Hph Hs.
    unfold unlockRead, unlockReadWithMutex. crunch. simpl.
    rewrite Hr. simpl. rewrite Hph. simpl. by rewrite Hs.
  - exists
      (mkWorld (mkLock 1 0 None None None 1
                  {[ 1%positive := Some 2%positive; 2%positive := None ]})
         21 ∅ [(3%nat, Bool false); (2%nat, Bool false); (1%nat, Void)]).
    split; [by vm_compute|]. split; [done|]. split; [done|].
    split; [done|]. split; [done|].
    split; [split; [constructor|reflexivity]|].
    by vm_compute.
Qed.

(** ** Acquisitions that never sleep *)

(** C6.  [tryWriteLock()] returns [true] exactly when the writer queue is
    empty, the phase is READING and no reader runs, and the lock it then
    leaves has phase WRITING and every other field as before; in every
    other state it returns [false], changes nothing and notifies nobody;
    so it returns [false] whenever a writer is queued. *)
Theorem tryWriteLock_spec (s : PhaseFairRWLock) :
  (_sleepersStart s = None ∧ _phase s = READING ∧ _readersRun s = 0 →
   tryWriteLock s =
     Ok (Returned (Bool true))
        (mkLock (_readersRun s) (_readersWait s) (_sleepersStart s)
           (_sleepersEnd s) (_freeList s) WRITING (clocks s)) []) ∧
  (¬ (_sleepersStart s = None ∧ _phase s = READING ∧ _readersRun s = 0) →
   tryWriteLock s = Ok (Returned (Bool false)) s []) ∧
  (∀ h q, queue_is s (h :: q) →
   tryWriteLock s = Ok (Returned (Bool false)) s []).
Proof.
  assert (Hfalse :
    ¬ (_sleepersStart s = None ∧ _phase s = READING ∧ _readersRun s = 0) →
    tryWriteLock s = Ok (Returned (Bool false)) s []).
  { intros Hno. unfold tryWriteLock. crunch.
    destruct (_sleepersStart s) as [h|] eqn:Hs; simpl; [done|].
    destruct (Z.eqb_spec (_phase s) 0) as [Hph|Hph]; simpl; [|done].
    destruct (Z.eqb_spec (_readersRun s) 0) as [Hrr|Hrr]; simpl; [|done].
    destruct Hno. by repeat split. }
  split; [|split].
  - intros (Hs & Hph & Hrr). unfold tryWriteLock. exec.
    unfold set_phase. by rewrite ?Hs, ?Hrr.
  - done.
  - intros h q Hq. apply Hfalse. intros (Hs & _).
    apply queue_is_head in Hq. simpl in Hq. congruence.
Qed.

Lemma tryWriteLock_spec_witness :
  tryWriteLock (mkLock 0 0 None None None 0 ∅)
  = Ok (Returned (Bool true)) (mkLock 0 0 None None None 3 ∅) []
  ∧ tryWriteLock (mkLock 1 0 None None None 0 ∅)
  = Ok (Returned (Bool false)) (mkLock 1 0 None None None 0 ∅) []
  ∧ tryWriteLock (mkLock 0 0 (Some 1%positive) (Some 1%positive) None 0
                    {[ 1%positive := None ]})
  = Ok (Returned (Bool false))
      (mkLock 0 0 (Some 1%positive) (Some 1%positive) None 0
         {[ 1%positive := None ]}) [].
Proof.
  split; [|split].
  - apply (tryWriteLock_spec (mkLock 0 0 None None None 0 ∅)).
    by repeat split.
  - apply (tryWriteLock_spec (mkLock 1 0 None None None 0 ∅)).
    intros (_ & _ & Hrr). simpl in Hrr. discriminate.
  - apply (tryWriteLock_spec
             (mkLock 0 0 (Some 1%positive) (Some 1%positive) None 0
                {[ 1%positive := None ]})).
    intros (Hs & _). simpl in Hs. discriminate.
Defined.

(** C7.  [tryReadLock()] returns [true] exactly when the phase is READING,
    and then only [_readersRun] changes, by one (as an [int32_t]); in every
    other phase it returns [false] at once and changes nothing. *)
Theorem tryReadLock_spec (s : PhaseFairRWLock) :
  (_phase s = READING →
   tryReadLock s =
     Ok (Returned (Bool true)) (incr_readersRun s) []) ∧
  (_phase s ≠ READING → tryReadLock s = Ok (Returned (Bool false)) s []) ∧
  (INT32_MIN ≤ _readersRun s < INT32_MAX →
   _readersRun (incr_readersRun s) = _readersRun s + 1).
Proof.
  split; [|split].
  - intros Hph. unfold tryReadLock. crunch. rewrite Hph. reflexivity.
  - intros Hph. unfold tryReadLock. crunch.
    by destruct (Z.eqb_spec (_phase s) 0).
  - intros H. simpl. apply wrap32_id. lia.
Qed.

Lemma tryReadLock_spec_witness :
  tryReadLock PhaseFairRWLock_new
  = Ok (Returned (Bool true)) (set_readersRun 1 PhaseFairRWLock_new) []
  ∧ tryReadLock (set_phase WRITING PhaseFairRWLock_new)
  = Ok (Returned (Bool false)) (set_phase WRITING PhaseFairRWLock_new) [].
Proof.
  split.
  - apply (tryReadLock_spec PhaseFairRWLock_new). reflexivity.
  - apply (tryReadLock_spec (set_phase WRITING PhaseFairRWLock_new)).
    simpl. discriminate.
Defined.

(** ** Timed acquisitions *)

(** C10.  For every timeout and every reading of the clock,
    [tryWriteLock(timeout)] on a lock in phase READING without a running
    reader returns [true] with only [_phase] changed to WRITING, and
    [tryReadLock(timeout)] on a lock in phase READING returns [true] with
    only [_readersRun] incremented: neither result depends on the timeout
    or on the clock. *)
Theorem timed_fast_paths_ignore_deadline (s : PhaseFairRWLock)
    (timeout now now' : Z) :
  (_phase s = READING → _readersRun s = 0 →
   tryWriteLock_timed timeout now now' s =
     Ok (Returned (Bool true)) (set_phase WRITING s) []) ∧
  (_phase s = READING →
   tryReadLock_timed timeout now s =
     Ok (Returned (Bool true)) (incr_readersRun s) []).
Proof.
  split.
  - intros Hph Hrr. unfold tryWriteLock_timed. by exec.
  - intros Hph. unfold tryReadLock_timed. crunch. rewrite Hph. reflexivity.
Qed.

Lemma timed_fast_paths_ignore_deadline_witness :
  tryWriteLock_timed (-5) 100 200 PhaseFairRWLock_new
  = Ok (Returned (Bool true)) (set_phase WRITING PhaseFairRWLock_new) []
  ∧ tryReadLock_timed 0 100 PhaseFairRWLock_new
  = Ok (Returned (Bool true)) (set_readersRun 1 PhaseFairRWLock_new) [].
Proof.
  split.
  - apply (timed_fast_paths_ignore_deadline PhaseFairRWLock_new (-5) 100 200);
      reflexivity.
  - apply (timed_fast_paths_ignore_deadline PhaseFairRWLock_new 0 100 100).
    reflexivity.
Defined.

(** C8.  [tryReadLock(timeout)] entered in a phase other than READING
    adds one to [_readersWait], writes nothing else and sleeps with deadline
    [now + timeout]; the blocking [readLock] leaves the same lock.  When
    the wait comes back in a phase other than READING with the deadline
    reached, the call takes one from [_readersWait], writes nothing else
    ([_readersRun] is as it was) and returns [false]; before the deadline
    it keeps sleeping and changes nothing.  When the wait comes back in
    phase READING the call takes one from [_readersWait], adds one to
    [_readersRun] and returns [true], and the blocking [readLock] leaves
    the same lock when its wait comes back.  A call that times out leaves
    the lock exactly as it found it.  The counters are [int32_t]; within
    their range adding and taking one are exact. *)
Theorem tryReadLock_timed_bookkeeping (s : PhaseFairRWLock)
    (timeout now deadline t t' : Z) :
  (_phase s ≠ READING →
   tryReadLock_timed timeout now s =
     Ok (Waiting (TRL_wait (now + timeout)))
        (mkLock (_readersRun s) (wrap32 (_readersWait s + 1))
           (_sleepersStart s) (_sleepersEnd s) (_freeList s) (_phase s)
           (clocks s)) [] ∧
   readLock s =
     Ok (Waiting RL_wait)
        (mkLock (_readersRun s) (wrap32 (_readersWait s + 1))
           (_sleepersStart s) (_sleepersEnd s) (_freeList s) (_phase s)
           (clocks s)) []) ∧
  (_phase s ≠ READING → deadline ≤ t →
   resume t t' (TRL_wait deadline) s =
     Ok (Returned (Bool false))
        (mkLock (_readersRun s) (wrap32 (_readersWait s - 1))
           (_sleepersStart s) (_sleepersEnd s) (_freeList s) (_phase s)
           (clocks s)) []) ∧
  (_phase s ≠ READING → t < deadline →
   resume t t' (TRL_wait deadline) s = Ok (Waiting (TRL_wait deadline)) s []) ∧
  (_phase s = READING →
   resume t t' (TRL_wait deadline) s =
     Ok (Returned (Bool true))
        (mkLock (wrap32 (_readersRun s + 1)) (wrap32 (_readersWait s - 1))
           (_sleepersStart s) (_sleepersEnd s) (_freeList s) (_phase s)
           (clocks s)) [] ∧
   resume t t' RL_wait s =
     Ok (Returned Void)
        (mkLock (wrap32 (_readersRun s + 1)) (wrap32 (_readersWait s - 1))
           (_sleepersStart s) (_sleepersEnd s) (_freeList s) (_phase s)
           (clocks s)) []) ∧
  (_phase s ≠ READING → INT32_MIN ≤ _readersWait s ≤ INT32_MAX →
   deadline ≤ t →
   resume t t' (TRL_wait deadline)
     (mkLock (_readersRun s) (wrap32 (_readersWait s + 1))
        (_sleepersStart s) (_sleepersEnd s) (_freeList s) (_phase s)
        (clocks s))
   = Ok (Returned (Bool false)) s []) ∧
  (INT32_MIN ≤ _readersWait s < INT32_MAX →
   wrap32 (_readersWait s + 1) = _readersWait s + 1) ∧
  (INT32_MIN < _readersWait s ≤ INT32_MAX →
   wrap32 (_readersWait s - 1) = _readersWait s - 1) ∧
  (INT32_MIN ≤ _readersRun s < INT32_MAX →
   wrap32 (_readersRun s + 1) = _readersRun s + 1).
Proof.
  assert (Hout : ∀ s0 : PhaseFairRWLock, _phase s0 ≠ READING → deadline ≤ t →
    resume t t' (TRL_wait deadline) s0 =
      Ok (Returned (Bool false))
         (mkLock (_readersRun s0) (wrap32 (_readersWait s0 - 1))
            (_sleepersStart s0) (_sleepersEnd s0) (_freeList s0) (_phase s0)
            (clocks s0)) []).
  { intros s0 Hph Hd. unfold resume, await, tryReadLock_timed_woken. crunch.
    destruct (Z.eqb_spec (_phase s0) 0) as [?|_]; [done|].
    destruct (Z.leb_spec deadline t); [reflexivity|lia]. }
  split; [|split; [|split; [|split; [|split; [|split; [|split]]]]]].
  - intros Hph. split.
    + unfold tryReadLock_timed, await. crunch.
      destruct (Z.eqb_spec (_phase s) 0) as [?|_]; [done|]. simpl.
      destruct (Z.eqb_spec (_phase s) 0) as [?|_]; [done|]. reflexivity.
    + unfold readLock, await. crunch.
      destruct (Z.eqb_spec (_phase s) 0) as [?|_]; [done|]. simpl.
      destruct (Z.eqb_spec (_phase s) 0) as [?|_]; [done|]. reflexivity.
  - apply Hout.
  - intros Hph Hd. unfold resume, await, tryReadLock_timed_woken. crunch.
    destruct (Z.eqb_spec (_phase s) 0) as [?|_]; [done|].
    destruct (Z.leb_spec deadline t); [lia|reflexivity].
  - intros Hph.
    unfold resume, await, tryReadLock_timed_woken, readLock_granted. crunch.
    destruct (Z.eqb_spec (_phase s) 0) as [_|?]; [|done]. by split.
  - intros Hph Hrw Hd. rewrite Hout by done. simpl.
    rewrite wrap32_succ_pred by done. by destruct s.
  - intros H. apply wrap32_id. unfold INT32_MIN, INT32_MAX in *. lia.
  - intros H. apply wrap32_id. unfold INT32_MIN, INT32_MAX in *. lia.
  - intros H. apply wrap32_id. unfold INT32_MIN, INT32_MAX in *. lia.
Qed.

Lemma tryReadLock_timed_bookkeeping_witness :
  tryReadLock_timed 10 5 (mkLock 0 0 None None None 3 ∅)
  = Ok (Waiting (TRL_wait 15)) (mkLock 0 1 None None None 3 ∅) []
  ∧ readLock (mkLock 0 0 None None None 3 ∅)
  = Ok (Waiting RL_wait) (mkLock 0 1 None None None 3 ∅) []
  ∧ resume 15 15 (TRL_wait 15) (mkLock 0 1 None None None 3 ∅)
    = Ok (Returned (Bool false)) (mkLock 0 0 None None None 3 ∅) []
  ∧ resume 14 14 (TRL_wait 15) (mkLock 0 1 None None None 3 ∅)
    = Ok (Waiting (TRL_wait 15)) (mkLock 0 1 None None None 3 ∅) []
  ∧ resume 14 14 (TRL_wait 15) (mkLock 0 1 None None None 0 ∅)
    = Ok (Returned (Bool true)) (mkLock 1 0 None None None 0 ∅) []
  ∧ resume 14 14 RL_wait (mkLock 0 1 None None None 0 ∅)
    = Ok (Returned Void) (mkLock 1 0 None None None 0 ∅) [].
Proof.
  destruct (tryReadLock_timed_bookkeeping (mkLock 0 0 None None None 3 ∅)
              10 5 15 15 15) as (Hin & _).
  destruct (tryReadLock_timed_bookkeeping (mkLock 0 1 None None None 3 ∅)
              10 5 15 15 15) as (_ & Hout & _).
  destruct (tryReadLock_timed_bookkeeping (mkLock 0 1 None None None 3 ∅)
              10 5 15 14 14) as (_ & _ & Hstay & _).
  destruct (tryReadLock_timed_bookkeeping (mkLock 0 1 None None None 0 ∅)
              10 5 15 14 14) as (_ & _ & _ & Hok & _).
  split; [|split; [|split; [|split; [|split]]]].
  - apply Hin. simpl. discriminate.
  - apply Hin. simpl. discriminate.
  - apply Hout; [simpl; discriminate|lia].
  - apply Hstay; [simpl; discriminate|lia].
  - apply Hok. reflexivity.
  - apply Hok. reflexivity.
Defined.

(** ** removeFromQueue *)

Lemma chain_length_le h p l : chain h p l → (length l ≤ size h)%nat.
Proof.
  intros Hc.
  rewrite <- length_map_to_list, <- (length_fmap fst).
  apply submseteq_length, NoDup_submseteq; [by eapply chain_NoDup|].
  intros a Ha. destruct (chain_allocated _ _ _ _ Hc Ha) as [n Hn].
  apply list_elem_of_fmap. exists (a, n). split; [done|].
  by apply elem_of_map_to_list.
Qed.

Lemma without_notin a l : a ∉ l → without a l = l.
Proof.
  intros Hnin. unfold without. induction l as [|b l IH]; [done|].
  apply not_elem_of_cons in Hnin as [Hne Hnin].
  rewrite filter_cons_True by done. by rewrite IH.
Qed.

Lemma without_middle a l1 l2 :
  NoDup (l1 ++ a :: l2) → without a (l1 ++ a :: l2) = l1 ++ l2.
Proof.
  intros Hnd. apply NoDup_app in Hnd as (_ & Hl1 & Hnd).
  apply NoDup_cons in Hnd as [Hl2 _].
  unfold without. rewrite filter_app, filter_cons_False by naive_solver.
  fold (without a l1). fold (without a l2).
  rewrite !without_notin; [done..|].
  intros Hin. eapply Hl1; [done|]. by left.
Qed.

Lemma elem_of_behind {A} (a x : A) (l1 l2 : list A) :
  a ∈ l1 ++ x :: a :: l2.
Proof. apply elem_of_app. right. apply elem_of_cons. right. by left. Qed.

Lemma without_head a l : NoDup (a :: l) → without a (a :: l) = l.
Proof. apply (without_middle a [] l). Qed.

(** Unlinking [a] behind its predecessor [x]. *)
Lemma chain_unlink h p l1 x a l2 :
  chain h p (l1 ++ x :: a :: l2) →
  chain (<[x := head l2]> h) p (l1 ++ x :: l2).
Proof.
  intros Hc. pose proof (chain_NoDup _ _ _ Hc) as Hnd.
  revert p Hc Hnd. induction l1 as [|b l1 IH]; intros p Hc Hnd; simpl in *.
  - inversion Hc as [|? n ? Hx Hc' ]; subst.
    inversion Hc' as [|? m ? Ha Hc'']; subst.
    econstructor; [by rewrite lookup_insert_eq|].
    rewrite <- (chain_head _ _ _ Hc'').
    apply chain_insert_other; [done|].
    apply NoDup_cons in Hnd as [Hx' _]. intros Hin. apply Hx'. by right.
  - inversion Hc as [|? n ? Hb Hc']; subst.
    apply NoDup_cons in Hnd as [Hb' Hnd].
    econstructor; [|by apply IH].
    rewrite lookup_insert_ne; [done|].
    intros ->. apply Hb'. apply elem_of_app. right. by left.
Qed.

Lemma removeFromQueue_loop_notin fuel a s w l :
  chain (clocks s) w l → a ∉ l → (length l < fuel)%nat →
  removeFromQueue_loop fuel (Some a) w s = Ok () s [].
Proof.
  intros Hc. revert fuel.
  induction Hc as [|b n l Hb Hc IH]; intros fuel Hnin Hfuel.
  - destruct fuel; [simpl in Hfuel; lia|]. reflexivity.
  - destruct fuel; [simpl in Hfuel; lia|].
    apply not_elem_of_cons in Hnin as [Hne Hnin].
    cbn [removeFromQueue_loop is_null negb].
    rewrite (bind_Ok _ _ _ n s []) by (simpl; by rewrite Hb).
    assert (ptr_eqb n (Some a) = false) as ->.
    { apply bool_decide_eq_false. intros ->.
      apply chain_head in Hc. destruct l; simplify_eq/=.
      apply Hnin. by left. }
    rewrite IH; [done|done|simpl in Hfuel; lia].
Qed.

Lemma removeFromQueue_loop_in fuel a s w l1 x l2 :
  chain (clocks s) w (l1 ++ x :: a :: l2) →
  (length (l1 ++ x :: a :: l2) < fuel)%nat →
  removeFromQueue_loop fuel (Some a) w s = Ok () (unlinked x l2 s) [].
Proof.
  intros Hc. pose proof (chain_NoDup _ _ _ Hc) as Hnd.
  revert w fuel Hc Hnd.
  induction l1 as [|b l1 IH]; intros w fuel Hc Hnd Hfuel.
  - simpl in *. destruct fuel; [lia|].
    inversion Hc as [|? n ? Hx Hc']; subst.
    inversion Hc' as [|? m ? Ha Hc'']; subst.
    cbn [removeFromQueue_loop is_null negb].
    rewrite (bind_Ok _ _ _ (Some a) s []) by (simpl; by rewrite Hx).
    unfold ptr_eqb. rewrite bool_decide_eq_true_2 by done.
    rewrite (bind_Ok _ _ _ m s []) by (simpl; by rewrite Ha).
    apply chain_head in Hc''. subst m.
    unfold unlinked, store_next, load_next. crunch. rewrite Hx. simpl.
    rewrite lookup_insert_eq.
    by destruct l2.
  - simpl in *. destruct fuel; [lia|].
    inversion Hc as [|? n ? Hb Hc']; subst.
    apply NoDup_cons in Hnd as [Hb' Hnd].
    cbn [removeFromQueue_loop is_null negb].
    rewrite (bind_Ok _ _ _ n s []) by (simpl; by rewrite Hb).
    assert (ptr_eqb n (Some a) = false) as ->.
    { apply bool_decide_eq_false. intros ->.
      apply chain_head in Hc'. destruct l1; simplify_eq/=.
      - apply NoDup_cons in Hnd as [Hx _]. apply Hx. by left.
      - apply NoDup_cons in Hnd as [Hx _]. apply Hx.
        apply elem_of_app. right. right. by left. }
    rewrite (IH n fuel); [done|done|done|lia].
Qed.

(** One iteration of the loop. *)
Lemma removeFromQueue_loop_unfold fuel wac x s :
  removeFromQueue_loop (S fuel) wac (Some x) s =
    match clocks s !! x with
    | None => Fail WildDeref
    | Some nx =>
        if ptr_eqb nx wac then
          (wacn ← load_next wac;
           store_next (Some x) wacn;;
           wn' ← load_next (Some x);
           when (is_null wn') (modify (set_sleepersEnd (Some x)))) s
        else removeFromQueue_loop fuel wac nx s
    end.
Proof.
  cbn [removeFromQueue_loop is_null negb].
  destruct (clocks s !! x) as [nx|] eqn:Hx.
  - rewrite (bind_Ok _ _ _ nx s []) by (simpl; by rewrite Hx).
    by destruct (ptr_eqb nx wac); match goal with |- match ?m with _ => _ end = _ => destruct m end.
  - apply bind_Fail. simpl. by rewrite Hx.
Qed.

(** No fault of the loop body is mistaken for divergence. *)
Lemma removeFromQueue_unlink_ends wac x s :
  (wacn ← load_next wac;
   store_next (Some x) wacn;;
   wn' ← load_next (Some x);
   when (is_null wn') (modify (set_sleepersEnd (Some x)))) s ≠ Fail Diverges.
Proof.
  unfold mbind, M_bind, bind, load_next, store_next, when, modify, ret, fail.
  destruct wac as [a|]; [|done].
  destruct (clocks s !! a) as [na|]; [|done].
  destruct (clocks s !! x) as [nx|]; [|done]. simpl.
  rewrite lookup_insert_eq. by destruct na.
Qed.

(** Once the loop has ended, more fuel gives the same result. *)
Lemma removeFromQueue_loop_more_fuel n m wac w s :
  removeFromQueue_loop n wac w s ≠ Fail Diverges → (n ≤ m)%nat →
  removeFromQueue_loop m wac w s = removeFromQueue_loop n wac w s.
Proof.
  revert m w. induction n as [|n IH]; intros m w Hne Hle; [done|].
  destruct m as [|m]; [lia|].
  destruct w as [x|]; [|done].
  rewrite !removeFromQueue_loop_unfold in *.
  destruct (clocks s !! x) as [nx|]; [|done].
  destruct (ptr_eqb nx wac); [done|].
  apply IH; [done|lia].
Qed.

Lemma removeFromQueue_loop_cycle s wac V x :
  scanned s wac V (Some x) → x ∈ V →
  ∀ n y, y ∈ V → removeFromQueue_loop n wac (Some y) s = Fail Diverges.
Proof.
  intros HV Hx n. induction n as [|n IH]; intros y Hy; [done|].
  destruct (HV y Hy) as (ny & Hny & Hne & Hnext).
  rewrite removeFromQueue_loop_unfold, Hny.
  unfold ptr_eqb. rewrite bool_decide_eq_false_2 by done.
  destruct Hnext as [->|(z & -> & Hz)]; by apply IH.
Qed.

Lemma removeFromQueue_loop_scan fuel s wac V w :
  scanned s wac V w → (size (clocks s) < fuel + size V)%nat →
  removeFromQueue_loop fuel wac w s = Fail Diverges →
  ∀ n, removeFromQueue_loop n wac w s = Fail Diverges.
Proof.
  revert V w. induction fuel as [|fuel IH]; intros V w HV Hsz Hrun.
  - exfalso. simpl in Hsz.
    assert (size V ≤ size (dom (clocks s)))%nat.
    { apply subseteq_size. intros x Hx. destruct (HV x Hx) as (n & Hn & _).
      apply elem_of_dom. eauto. }
    rewrite size_dom in *. lia.
  - destruct w as [x|]; [|done].
    rewrite removeFromQueue_loop_unfold in Hrun.
    destruct (clocks s !! x) as [nx|] eqn:Hnx; [|done].
    destruct (ptr_eqb nx wac) eqn:Heq;
      [by apply removeFromQueue_unlink_ends in Hrun|].
    apply bool_decide_eq_false in Heq.
    destruct (decide (x ∈ V)) as [Hin|Hnin].
    + intros n. by eapply removeFromQueue_loop_cycle.
    + assert (Hall : ∀ n, removeFromQueue_loop n wac nx s = Fail Diverges).
      { apply (IH ({[x]} ∪ V)); [| |done].
        - intros y Hy. apply elem_of_union in Hy as [Hy|Hy].
          + apply elem_of_singleton in Hy as ->.
            exists nx. split; [done|]. split; [done|]. by left.
          + destruct (HV y Hy) as (ny & Hny & Hne & Hnext).
            exists ny. split; [done|]. split; [done|]. right.
            destruct Hnext as [->|(z & -> & Hz)].
            * exists x. split; [done|]. set_solver.
            * exists z. split; [done|]. set_solver.
        - rewrite size_union by set_solver. rewrite size_singleton. lia. }
      intros [|n]; [done|].
      rewrite removeFromQueue_loop_unfold, Hnx.
      unfold ptr_eqb. rewrite bool_decide_eq_false_2 by done. apply Hall.
Qed.

(** The fuel that [removeFromQueue] gives its loop is enough: when it runs
    out the loop goes round a cycle of clocks and no amount of fuel ends
    it. *)
Lemma removeFromQueue_fuel_enough wac w s :
  removeFromQueue_loop (S (size (clocks s))) wac w s = Fail Diverges →
  ∀ n, removeFromQueue_loop n wac w s = Fail Diverges.
Proof.
  apply (removeFromQueue_loop_scan _ s wac ∅ w).
  - intros x Hx. by apply elem_of_empty in Hx.
  - rewrite size_empty. lia.
Qed.

(** Removing the clock at the head of the queue. *)
Lemma removeFromQueue_head s a l :
  queue_is s (a :: l) →
  removeFromQueue (Some a) s =
    Ok () (if l is [] then set_sleepersEnd None (set_sleepersStart None s)
           else set_sleepersStart (head l) s) [].
Proof.
  intros [Hc He]. inversion Hc as [|? n ? Ha Hc' Hs]; subst.
  apply chain_head in Hc'. subst n.
  unfold removeFromQueue, load_next. crunch. rewrite <- Hs.
  unfold ptr_eqb. rewrite bool_decide_eq_true_2 by done.
  rewrite Ha. by destruct l.
Qed.

Lemma queue_is_tail s a l :
  queue_is s (a :: l) →
  queue_is (if l is [] then set_sleepersEnd None (set_sleepersStart None s)
            else set_sleepersStart (head l) s) l.
Proof.
  intros [Hc He]. inversion Hc as [|? n ? Ha Hc' Hs]; subst.
  pose proof (chain_head _ _ _ Hc') as ->.
  destruct l as [|b l]; [by split; [constructor|]|].
  split; [done|]. simpl. by rewrite He, last_cons_cons.
Qed.

Lemma last_app_nonempty {A} (l1 l2 : list A) :
  l2 ≠ [] → last (l1 ++ l2) = last l2.
Proof.
  intros Hne. rewrite last_app.
  destruct (last l2) eqn:Hl; [done|]. by apply last_None in Hl.
Qed.

Lemma queue_is_unlinked s l1 x a l2 :
  queue_is s (l1 ++ x :: a :: l2) →
  queue_is (unlinked x l2 s) (l1 ++ x :: l2).
Proof.
  intros [Hc He]. apply chain_unlink in Hc.
  unfold unlinked. destruct l2 as [|b l2].
  - split; [done|]. simpl. by rewrite last_app.
  - split; [done|]. simpl. rewrite He.
    change (l1 ++ x :: a :: b :: l2) with (l1 ++ [x; a] ++ b :: l2).
    change (l1 ++ x :: b :: l2) with (l1 ++ [x] ++ b :: l2).
    rewrite !app_assoc. by rewrite !last_app_nonempty.
Qed.

Lemma NoDup_split_unique {A} (a : A) (l1 l2 l1' l2' : list A) :
  NoDup (l1 ++ a :: l2) → l1' ++ a :: l2' = l1 ++ a :: l2 →
  l1' = l1 ∧ l2' = l2.
Proof.
  revert l1'. induction l1 as [|b l1 IH]; intros [|b' l1'] Hnd Heq;
    simplify_eq/=.
  - done.
  - apply NoDup_cons in Hnd as [Hx _]. destruct Hx.
    apply elem_of_app. right. apply elem_of_cons. by left.
  - apply NoDup_cons in Hnd as [Hx _]. destruct Hx.
    apply elem_of_app. right. apply elem_of_cons. by left.
  - apply NoDup_cons in Hnd as [_ Hnd].
    by edestruct (IH l1') as [-> ->].
Qed.

(** The three ways [removeFromQueue] goes on a well-formed queue. *)
Lemma removeFromQueue_cases (s : PhaseFairRWLock) (q : list positive)
    (wac : positive) :
  queue_is s q →
  ((wac ∉ q) ∧ removeFromQueue (Some wac) s = Ok () s []) ∨
  (∃ l, q = wac :: l ∧
        removeFromQueue (Some wac) s =
          Ok () (if l is [] then set_sleepersEnd None (set_sleepersStart None s)
                 else set_sleepersStart (head l) s) []) ∨
  (∃ l1 x l2, q = l1 ++ x :: wac :: l2 ∧
              removeFromQueue (Some wac) s = Ok () (unlinked x l2 s) []).
Proof.
  intros Hq. pose proof Hq as [Hc He].
  pose proof (chain_NoDup _ _ _ Hc) as Hnd.
  pose proof (chain_length_le _ _ _ Hc) as Hlen.
  assert (Hnot_head : (∀ l, q ≠ wac :: l) →
                      ptr_eqb (Some wac) (_sleepersStart s) = false).
  { intros Hne. apply bool_decide_eq_false. intros Hs.
    apply chain_head in Hc. rewrite Hc in Hs.
    destruct q as [|b l]; simplify_eq/=. by eapply Hne. }
  destruct (decide (wac ∈ q)) as [Hin|Hnin].
  - apply list_elem_of_split in Hin as (l1 & l2 & ->).
    destruct l1 as [|b l1 _] using rev_ind.
    + right. left. exists l2. split; [done|]. by apply removeFromQueue_head.
    + right. right. rewrite <- app_assoc in *. simpl in *.
      exists l1, b, l2. split; [done|].
      unfold removeFromQueue. crunch. rewrite Hnot_head.
      * rewrite (removeFromQueue_loop_in _ _ _ _ l1 b l2); [done|done|lia].
      * intros l Heq. destruct l1; simplify_eq/=.
        -- apply NoDup_cons in Hnd as [Hx _]. apply Hx. by left.
        -- apply NoDup_cons in Hnd as [Hx _]. apply Hx.
           apply elem_of_app. right. right. by left.
  - left. split; [done|].
    unfold removeFromQueue. crunch. rewrite Hnot_head.
    + rewrite (removeFromQueue_loop_notin _ _ _ _ q); [done|done|done|lia].
    + intros l ->. apply Hnin. by left.
Qed.

(** [removeFromQueue] takes [wac] off the queue and writes nothing else
    of the lock but clocks of the queue. *)
Lemma removeFromQueue_unlinks (s : PhaseFairRWLock) (q f : list positive)
    (wac : positive) :
  queue_is s q → freeList_is s f → (q ## f) →
  ∃ s',
    removeFromQueue (Some wac) s = Ok () s' [] ∧
    queue_is s' (without wac q) ∧ freeList_is s' f ∧
    same_outside_queue s s'.
Proof.
  intros Hq Hf Hdisj. pose proof Hq as [Hc _].
  pose proof (chain_NoDup _ _ _ Hc) as Hnd.
  destruct (removeFromQueue_cases s q wac Hq)
    as [[Hnin Hrun]|[(l & -> & Hrun)|(l1 & x & l2 & -> & Hrun)]].
  - exists s. by rewrite without_notin.
  - eexists. split; [exact Hrun|].
    rewrite without_head by done.
    split; [by eapply queue_is_tail|]. by destruct l.
  - eexists. split; [exact Hrun|].
    pose proof (queue_is_unlinked _ _ _ _ _ Hq) as Hq'.
    replace (without wac (l1 ++ x :: wac :: l2)) with (l1 ++ x :: l2).
    2:{ change (l1 ++ x :: wac :: l2) with (l1 ++ [x] ++ wac :: l2) in *.
        rewrite app_assoc in *. rewrite without_middle by done.
        by rewrite <- app_assoc. }
    split; [done|].
    split; [|by destruct l2].
    assert (Hf' : chain (<[x := head l2]> (clocks s)) (_freeList s) f).
    { apply chain_insert_other; [done|]. intros Hin.
      apply (Hdisj x); [|done]. apply elem_of_app. right. by left. }
    unfold freeList_is, unlinked. by destruct l2.
Qed.

(** C9.  On a lock whose writer queue is the chain [q] with
    [_sleepersEnd] at its last clock, [removeFromQueue(wac)] returns for
    every clock [wac], and the writer queue is then [q] without [wac], with
    [_sleepersStart] at its first clock and [_sleepersEnd] at its last
    (both [nullptr] when it is empty); only the [next] field of the
    predecessor of [wac] is written, with the successor of [wac]; no other
    field of the lock changes; and when [wac] is not in [q] the lock is left
    exactly as it was. *)
Theorem removeFromQueue_total_exact (s : PhaseFairRWLock)
    (q : list positive) (wac : positive) :
  queue_is s q →
  ∃ s',
    removeFromQueue (Some wac) s = Ok () s' [] ∧
    queue_is s' (without wac q) ∧
    _sleepersStart s' = head (without wac q) ∧
    _sleepersEnd s' = last (without wac q) ∧
    same_outside_queue s s' ∧
    (∀ l, q = wac :: l → clocks s' = clocks s) ∧
    (∀ l1 x l2, q = l1 ++ x :: wac :: l2 →
       clocks s' = <[x := head l2]> (clocks s)) ∧
    (wac ∉ q → s' = s).
Proof.
  intros Hq. pose proof Hq as [Hc He].
  pose proof (chain_NoDup _ _ _ Hc) as Hnd.
  assert (Hviews : ∀ s' q', queue_is s' q' →
            queue_is s' q' ∧ _sleepersStart s' = head q' ∧
            _sleepersEnd s' = last q').
  { intros s' q' Hq'. split; [done|].
    split; [by apply queue_is_head|by destruct Hq']. }
  destruct (removeFromQueue_cases s q wac Hq)
    as [[Hnin Hrun]|[(l & -> & Hrun)|(l1 & b & l2 & -> & Hrun)]].
  - (* not in the queue *)
    exists s. rewrite without_notin by done.
    split; [done|]. destruct (Hviews s q Hq) as (? & ? & ?).
    do 4 (split; [done|]).
    split; [intros l ->; destruct Hnin; by left|].
    split; [|done].
    intros l1 x l2 ->. destruct Hnin. apply elem_of_behind.
  - (* at the start *)
    eexists. split; [exact Hrun|].
    rewrite without_head by done.
    destruct (Hviews _ _ (queue_is_tail _ _ _ Hq)) as (? & ? & ?).
    do 3 (split; [done|]).
    split; [by destruct l|]. split; [by destruct l|].
    split; [|intros Hnin; destruct Hnin; by left].
    intros l1 x l2' Heq. exfalso.
    destruct l1 as [|c l1]; simplify_eq/=;
      apply NoDup_cons in Hnd as [Hx _]; apply Hx.
    + by left.
    + apply elem_of_app. right. right. by left.
  - (* behind the clock [b] *)
    exists (unlinked b l2 s). split; [exact Hrun|].
    assert (Hnd' : NoDup ((l1 ++ [b]) ++ wac :: l2))
      by by rewrite <- app_assoc.
    replace (without wac (l1 ++ b :: wac :: l2)) with (l1 ++ b :: l2).
    2:{ change (l1 ++ b :: wac :: l2) with (l1 ++ [b] ++ wac :: l2).
        rewrite app_assoc, without_middle by done. by rewrite <- app_assoc. }
    destruct (Hviews _ _ (queue_is_unlinked _ _ _ _ _ Hq)) as (? & ? & ?).
    do 3 (split; [done|]).
    split; [by destruct l2|].
    split.
    { intros l Heq. exfalso. destruct l1; simplify_eq/=.
      - apply NoDup_cons in Hnd as [Hx _]. apply Hx. by left.
      - apply NoDup_cons in Hnd as [Hx _]. apply Hx.
        apply elem_of_app. right. right. by left. }
    split; [|intros Hnin; destruct Hnin; apply elem_of_behind].
    intros l1' x l2' Heq.
    assert (l1' = l1 ∧ x = b ∧ l2' = l2) as (-> & -> & ->).
    { symmetry in Heq.
      change (l1' ++ x :: wac :: l2') with (l1' ++ [x] ++ wac :: l2') in Heq.
      change (l1 ++ b :: wac :: l2) with (l1 ++ [b] ++ wac :: l2) in Heq.
      rewrite !app_assoc in Heq.
      apply NoDup_split_unique in Heq; [|done].
      destruct Heq as [Heq ->]. by apply app_inj_tail in Heq as [-> ->]. }
    by destruct l2.
Qed.

Lemma removeFromQueue_total_exact_witness :
  ∃ s',
    removeFromQueue (Some 2%positive)
      (mkLock 0 0 (Some 1%positive) (Some 3%positive) None 3
         {[ 1%positive := Some 2%positive; 2%positive := Some 3%positive;
            3%positive := None ]})
    = Ok () s' [] ∧
    queue_is s' [1%positive; 3%positive] ∧
    clocks s' = {[ 1%positive := Some 3%positive;
                   2%positive := Some 3%positive; 3%positive := None ]}.
Proof.
  destruct (removeFromQueue_total_exact
              (mkLock 0 0 (Some 1%positive) (Some 3%positive) None 3
                 {[ 1%positive := Some 2%positive; 2%positive := Some 3%positive;
                    3%positive := None ]})
              [1%positive; 2%positive; 3%positive] 2%positive)
    as (s' & Hrun & Hq & _ & _ & _ & _ & Hclocks & _).
  - split; [|reflexivity]. simpl.
    eapply chain_cons; [reflexivity|].
    eapply chain_cons; [reflexivity|].
    eapply chain_cons; [reflexivity|constructor].
  - exists s'. split; [exact Hrun|]. split; [exact Hq|].
    rewrite (Hclocks [] 1%positive [3%positive]) by reflexivity.
    reflexivity.
Defined.

(** ** writeLock *)

Lemma getAlarmClock_spec (s : PhaseFairRWLock) (q f : list positive) :
  queue_is s q → freeList_is s f → (q ## f) →
  ∃ a,
    getAlarmClock s =
      Ok (Some a)
         (set_clocks (<[a := None]> (clocks s)) (set_freeList (head (tail f)) s))
         [] ∧
    obtained s f a ∧ (a ∉ q) ∧ (a ∉ tail f).
Proof.
  intros [Hq _] Hf Hdisj. unfold freeList_is in Hf.
  unfold getAlarmClock. crunch.
  destruct (_freeList s) as [a|] eqn:Hfl;
    inversion Hf as [|? n f' Ha Hf']; subst; simpl.
  - unfold load_next, store_next. rewrite Ha. simpl. rewrite Ha. simpl.
    exists a. split; [|split; [by right|split]].
    + by rewrite (chain_head _ _ _ Hf').
    + intros Hin. eapply Hdisj; [done|]. by left.
    + pose proof (chain_NoDup _ _ _ Hf) as Hnd.
      by apply NoDup_cons in Hnd as [? _].
  - unfold new_WriterAlarmClock.
    set (a := fresh (dom (clocks s))).
    assert (Hfresh : clocks s !! a = None).
    { apply not_elem_of_dom. apply is_fresh. }
    exists a. split; [|split; [by left|split]].
    + destruct s; simpl in *. by subst.
    + intros Hin. destruct (chain_allocated _ _ _ _ Hq Hin) as [? ?].
      congruence.
    + by intros ?%elem_of_nil.
Qed.

(** What [writeLock_granted] does on a lock in which [wac] heads the
    queue: the writer owns the lock, its clock is off the queue and on the
    free list. *)
Lemma writeLock_granted_spec (s : PhaseFairRWLock) (wac : positive)
    (q f : list positive) :
  queue_is s (wac :: q) → freeList_is s f → ((wac :: q) ## f) →
  ∃ s',
    writeLock_granted (Some wac) s = Ok (Returned Void) s' [] ∧
    _phase s' = WRITING ∧
    queue_is s' q ∧ freeList_is s' (wac :: f) ∧
    _readersRun s' = _readersRun s ∧ _readersWait s' = _readersWait s.
Proof.
  intros Hq Hf Hdisj.
  pose proof Hq as [Hc He].
  pose proof (chain_NoDup _ _ _ Hc) as Hnd.
  apply NoDup_cons in Hnd as [Hwq _].
  assert (Hwf : wac ∉ f).
  { intros Hin. eapply Hdisj; [|done]. by left. }
  destruct (queue_is_head_allocated _ _ _ Hq) as [Hs [n Hn]].
  assert (Hq3 : queue_is (set_phase 3 s) (wac :: q)) by done.
  pose proof (removeFromQueue_head _ _ _ Hq3) as Hrm.
  pose proof (queue_is_tail _ _ _ Hq3) as Hq'.
  set (s1 := if q is [] then set_sleepersEnd None (set_sleepersStart None
                                                     (set_phase 3 s))
             else set_sleepersStart (head q) (set_phase 3 s)) in *.
  assert (Hs1 : clocks s1 = clocks s ∧ _freeList s1 = _freeList s ∧
                _readersRun s1 = _readersRun s ∧
                _readersWait s1 = _readersWait s ∧ _phase s1 = 3).
  { unfold s1. by destruct q. }
  destruct Hs1 as (Hcl & Hfl & Hrr & Hrw & Hph).
  exists (set_freeList (Some wac)
            (set_clocks (<[wac := _freeList s]> (clocks s1)) s1)).
  split.
  { unfold writeLock_granted. rewrite bind_modify, bind_gets.
    simpl. rewrite Hs. unfold ptr_eqb.
    rewrite bool_decide_eq_true_2 by done. rewrite bind_assert_true.
    rewrite (bind_Ok _ _ _ () s1 []) by exact Hrm.
    unfold returnAlarmClock, store_next. crunch. simpl.
    rewrite Hcl, Hn, Hfl. reflexivity. }
  split; [done|].
  split.
  { destruct Hq' as [Hc' He']. split; [|done]. simpl.
    by apply chain_insert_other. }
  split.
  { unfold freeList_is. simpl. rewrite Hcl.
    econstructor; [by rewrite lookup_insert_eq|].
    by apply chain_insert_other. }
  done.
Qed.

Lemma chain_tail h p l : chain h p l → chain h (head (tail l)) (tail l).
Proof.
  destruct 1 as [|a n l Ha Hc]; [constructor|].
  simpl. by rewrite <- (chain_head _ _ _ Hc).
Qed.

Lemma enqueued_spec (s : PhaseFairRWLock) (q f : list positive)
    (wac : positive) :
  queue_is s q → freeList_is s f → (q ## f) →
  wac ∉ q → wac ∉ tail f →
  queue_is (enqueued wac q f s) (q ++ [wac]) ∧
  freeList_is (enqueued wac q f s) (tail f) ∧
  _readersRun (enqueued wac q f s) = _readersRun s ∧
  _readersWait (enqueued wac q f s) = _readersWait s ∧
  _phase (enqueued wac q f s) = _phase s.
Proof.
  intros [Hq He] Hf Hdisj Hwq Hwf. unfold freeList_is in Hf.
  apply chain_tail in Hf.
  assert (Hq1 : chain (<[wac := None]> (clocks s)) (_sleepersStart s) q)
    by by apply chain_insert_other.
  assert (Hf1 : chain (<[wac := None]> (clocks s)) (head (tail f)) (tail f))
    by by apply chain_insert_other.
  unfold enqueued. destruct (last q) as [e|] eqn:Hl.
  - split; [|split; [|done]].
    + split; [|by rewrite last_snoc]. simpl.
      apply chain_snoc; [done..|]. by rewrite lookup_insert_eq.
    + unfold freeList_is. simpl. apply chain_insert_other; [done|].
      intros Hin. apply (Hdisj e); [by apply last_Some_elem_of|].
      destruct f; [done|]. by right.
  - apply last_None in Hl. subst q.
    inversion Hq1 as [Hs|]; subst.
    split; [|split; [|done]].
    + split; [|done]. simpl.
      econstructor; [by rewrite lookup_insert_eq|constructor].
    + done.
Qed.

Lemma writeLock_enqueue (s : PhaseFairRWLock) (q f : list positive) :
  queue_is s q → freeList_is s f → (q ## f) →
  ¬ (_phase s = READING ∧ _readersRun s = 0) →
  ∃ wac,
    obtained s f wac ∧ (wac ∉ q) ∧ (wac ∉ tail f) ∧
    writeLock s =
      if q is [] then writeLock_head (Some wac) (enqueued wac q f s)
      else Ok (Waiting (WL_head (Some wac))) (enqueued wac q f s) [].
Proof.
  intros Hq Hf Hdisj Hslow.
  destruct (getAlarmClock_spec s q f Hq Hf Hdisj) as (wac & Hget & Hobt & Hwq & Hwf).
  exists wac. split; [done|]. split; [done|]. split; [done|].
  unfold writeLock. rewrite !bind_gets.
  assert ((_phase s =? 0) && (_readersRun s =? 0) = false) as ->.
  { apply andb_false_iff.
    destruct (Z.eqb_spec (_phase s) 0), (Z.eqb_spec (_readersRun s) 0);
      try (by left); try (by right).
    destruct Hslow. by split. }
  rewrite (bind_Ok _ _ _ _ _ _ Hget). rewrite bind_gets.
  pose proof Hq as [Hc He]. simpl.
  pose proof (chain_head _ _ _ Hc) as Hs.
  unfold enqueued. destruct q as [|b q] using rev_ind.
  - simpl in *. rewrite Hs. simpl. rewrite bind_gets. simpl. rewrite He.
    simpl. rewrite bind_assert_true, !bind_modify.
    by destruct (writeLock_head _ _).
  - clear IHq. rewrite last_snoc in *.
    assert (Hne : _sleepersStart s ≠ None).
    { rewrite Hs. by destruct q. }
    destruct (_sleepersStart s) as [h|] eqn:Hstart; [|done]. simpl.
    rewrite bind_gets. simpl. rewrite He. simpl. rewrite bind_assert_true.
    assert (Hb : is_Some (clocks s !! b)).
    { eapply chain_allocated; [done|]. apply elem_of_app. right. by left. }
    destruct Hb as [nb Hb].
    assert (wac ≠ b).
    { intros ->. apply Hwq. apply elem_of_app. right. by left. }
    unfold store_next, await. crunch. simpl.
    rewrite lookup_insert_ne, Hb by done. simpl.
    rewrite Hstart.
    assert (ptr_eqb (Some wac) (Some h) = false) as ->.
    { apply bool_decide_eq_false. intros [= ->].
      apply Hwq. destruct q; simplify_eq/=; by left. }
    by destruct q.
Qed.

Lemma writeLock_head_eq (s : PhaseFairRWLock) (wac : positive) :
  _sleepersStart s = Some wac →
  writeLock_head (Some wac) s =
    if decide (_phase s = HANDOFF) then writeLock_granted (Some wac) s
    else Ok (Waiting (WL_handoff (Some wac)))
            (if decide (_phase s = READING)
             then set_phase READING_WRITERS_WAITING s else s) [].
Proof.
  intros Hs. unfold writeLock_head, await. rewrite bind_gets, Hs.
  unfold ptr_eqb. rewrite bool_decide_eq_true_2 by done.
  rewrite bind_assert_true, bind_gets.
  unfold HANDOFF, READING, READING_WRITERS_WAITING, phase_is.
  destruct (decide (_phase s = 2)) as [Hph|Hph].
  - rewrite Hph. change (2 =? 0) with false.
    rewrite bind_when_false, bind_gets, Hph. reflexivity.
  - destruct (decide (_phase s = 0)) as [Hph0|Hph0].
    + rewrite Hph0. reflexivity.
    + destruct (Z.eqb_spec (_phase s) 0) as [?|_]; [done|].
      rewrite bind_when_false, bind_gets.
      destruct (Z.eqb_spec (_phase s) 2) as [?|_]; [done|]. reflexivity.
Qed.

(** C5.  On a lock whose writer queue is [q] and whose free list is [f]:
    - in phase READING without a running reader [writeLock] sets the phase
      to WRITING and returns, touching neither the clocks, the queue nor
      the free list;
    - otherwise it takes a clock [wac], the first of the free list or a
      newly allocated one, and the queue becomes [q] followed by [wac]
      ([wac] alone when [q] was empty); behind other writers it sleeps
      until [wac] heads the queue; heading the queue it turns phase READING
      into READING_WRITERS_WAITING and sleeps until the phase is HANDOFF
      (it does not sleep when the phase is HANDOFF already, and goes on as
      in the last item);
    - a writer asleep for the head of the queue stays asleep, changing
      nothing, while another clock heads the queue, and goes on to the
      second wait as above once its own clock does;
    - a writer asleep for HANDOFF stays asleep, changing nothing, in every
      other phase; in phase HANDOFF it sets the phase to WRITING, takes its
      clock off the head of the queue, puts it at the front of the free
      list and returns. *)
Theorem writeLock_steps (s : PhaseFairRWLock) (q f : list positive)
    (t t' : Z) :
  queue_is s q → freeList_is s f → (q ## f) →
  (_phase s = READING → _readersRun s = 0 →
   writeLock s = Ok (Returned Void) (set_phase WRITING s) []) ∧
  (¬ (_phase s = READING ∧ _readersRun s = 0) →
   ∃ wac st s',
     writeLock s = Ok st s' [] ∧
     obtained s f wac ∧
     _readersRun s' = _readersRun s ∧ _readersWait s' = _readersWait s ∧
     (q ≠ [] →
      st = Waiting (WL_head (Some wac)) ∧ _phase s' = _phase s ∧
      queue_is s' (q ++ [wac]) ∧ freeList_is s' (tail f)) ∧
     (q = [] → _phase s ≠ HANDOFF →
      st = Waiting (WL_handoff (Some wac)) ∧
      _phase s' = (if decide (_phase s = READING)
                   then READING_WRITERS_WAITING else _phase s) ∧
      queue_is s' [wac] ∧ freeList_is s' (tail f)) ∧
     (q = [] → _phase s = HANDOFF →
      st = Returned Void ∧ _phase s' = WRITING ∧
      queue_is s' [] ∧ freeList_is s' (wac :: tail f))) ∧
  (∀ wac, _sleepersStart s ≠ Some wac →
   resume t t' (WL_head (Some wac)) s = Ok (Waiting (WL_head (Some wac))) s []) ∧
  (∀ wac, _sleepersStart s = Some wac → _phase s ≠ HANDOFF →
   resume t t' (WL_head (Some wac)) s =
     Ok (Waiting (WL_handoff (Some wac)))
        (if decide (_phase s = READING)
         then set_phase READING_WRITERS_WAITING s else s) []) ∧
  (∀ wac, _phase s ≠ HANDOFF →
   resume t t' (WL_handoff (Some wac)) s =
     Ok (Waiting (WL_handoff (Some wac))) s []) ∧
  (∀ wac q', q = wac :: q' → _phase s = HANDOFF →
   ∃ s',
     resume t t' (WL_handoff (Some wac)) s = Ok (Returned Void) s' [] ∧
     resume t t' (WL_head (Some wac)) s = Ok (Returned Void) s' [] ∧
     _phase s' = WRITING ∧
     queue_is s' q' ∧ freeList_is s' (wac :: f) ∧
     _readersRun s' = _readersRun s ∧ _readersWait s' = _readersWait s).
Proof.
  intros Hq Hf Hdisj.
  split; [|split; [|split; [|split; [|split]]]].
  - intros Hph Hrr. unfold writeLock. by exec.
  - intros Hslow.
    destruct (writeLock_enqueue s q f Hq Hf Hdisj Hslow)
      as (wac & Hobt & Hwq & Hwf & Hrun).
    destruct (enqueued_spec s q f wac Hq Hf Hdisj Hwq Hwf)
      as (Hq' & Hf' & Hrr & Hrw & Hph).
    exists wac. destruct q as [|b q].
    + rewrite writeLock_head_eq in Hrun by by apply queue_is_head in Hq'.
      rewrite Hph in Hrun.
      destruct (decide (_phase s = HANDOFF)) as [Hhand|Hhand].
      * destruct (writeLock_granted_spec (enqueued wac [] f s) wac []
                    (tail f) Hq' Hf')
          as (s' & Hgr & Hph' & Hq'' & Hf'' & Hrr' & Hrw').
        { intros x Hx Hx'. apply list_elem_of_singleton in Hx as ->. done. }
        rewrite Hgr in Hrun.
        exists (Returned Void), s'. split; [exact Hrun|]. split; [done|].
        split; [congruence|]. split; [congruence|].
        split; [done|]. split; [done|]. by intros _ _.
      * exists (Waiting (WL_handoff (Some wac))). eexists.
        split; [exact Hrun|]. split; [done|].
        destruct Hq' as [Hc' He']. unfold freeList_is in Hf'.
        destruct (decide (_phase s = READING));
          (split; [done|]); (split; [done|]); (split; [done|]);
          (split; [|done]); intros _ _; (split; [done|]);
          (split; [done|]); (split; [by split|done]).
    + do 2 eexists. split; [exact Hrun|].
      do 3 (split; [done|]). split; [done|]. split; by intros [=].
  - intros wac Hne. unfold resume, await, at_head. rewrite bind_gets.
    unfold ptr_eqb. by rewrite bool_decide_eq_false_2.
  - intros wac Hs Hph. unfold resume, await, at_head. rewrite bind_gets.
    unfold ptr_eqb. rewrite bool_decide_eq_true_2 by done.
    rewrite writeLock_head_eq by done. by rewrite decide_False.
  - intros wac Hph. unfold resume, await, phase_is. rewrite bind_gets.
    by destruct (Z.eqb_spec (_phase s) 2).
  - intros wac q' -> Hph.
    destruct (writeLock_granted_spec s wac q' f Hq Hf Hdisj)
      as (s' & Hrun & Hres).
    exists s'. split; [|split; [|done]].
    + unfold resume, await, phase_is. rewrite bind_gets, Hph. exact Hrun.
    + unfold resume, await, at_head. rewrite bind_gets.
      apply queue_is_head in Hq. simpl in Hq. rewrite Hq.
      unfold ptr_eqb. rewrite bool_decide_eq_true_2 by done.
      rewrite writeLock_head_eq by done. by rewrite decide_True.
Qed.

Lemma writeLock_steps_witness :
  writeLock PhaseFairRWLock_new
  = Ok (Returned Void) (set_phase WRITING PhaseFairRWLock_new) []
  ∧ ∃ wac s',
      writeLock (set_readersRun 1 PhaseFairRWLock_new)
      = Ok (Waiting (WL_handoff (Some wac))) s' [] ∧
      queue_is s' [wac] ∧ _phase s' = READING_WRITERS_WAITING.
Proof.
  assert (Hq : ∀ s, _sleepersStart s = None → _sleepersEnd s = None →
                    queue_is s []).
  { intros s Hs He. split; [rewrite Hs; constructor|by rewrite He]. }
  assert (Hf : ∀ s, _freeList s = None → freeList_is s []).
  { intros s Hs. unfold freeList_is. rewrite Hs. constructor. }
  assert (Hd : @nil positive ## []) by (intros x Hx; by apply elem_of_nil in Hx).
  split.
  - apply (writeLock_steps PhaseFairRWLock_new [] [] 0 0); try reflexivity.
    + apply Hq; reflexivity.
    + apply Hf; reflexivity.
    + exact Hd.
  - destruct (writeLock_steps (set_readersRun 1 PhaseFairRWLock_new) [] [] 0 0)
      as (_ & Hslow & _).
    + apply Hq; reflexivity.
    + apply Hf; reflexivity.
    + exact Hd.
    + destruct Hslow as (wac & st & s' & Hrun & _ & _ & _ & _ & Hsole & _).
      * intros [_ Hrr]. simpl in Hrr. discriminate.
      * destruct (Hsole eq_refl) as (-> & Hph & Hq' & _).
        { simpl. discriminate. }
        exists wac, s'. split; [exact Hrun|]. split; [exact Hq'|exact Hph].
Defined.

(** ** Timeouts and the invariants *)

Lemma not_Inv_waiting_without_writer (s : PhaseFairRWLock) :
  _phase s = READING_WRITERS_WAITING ∨ _phase s = HANDOFF →
  _sleepersStart s = None → ¬ Inv s.
Proof. intros Hph Hs [_ Hw _ _]. by apply Hw. Qed.

Lemma not_Inv_reading_with_writer (s : PhaseFairRWLock) (a : positive) :
  _phase s = READING → _sleepersStart s = Some a → ¬ Inv s.
Proof. intros Hph Hs [Hr _ _ _]. rewrite Hr in Hs; done. Qed.

(** The three exits of [tryWriteLock(timeout)] that return [false], on a
    lock whose writer queue is [q] and whose free list is [f].  Each takes
    the clock of the caller off the queue and leaves the counters and the
    free list alone.  The exit of the second wait also turns phase
    READING_WRITERS_WAITING back into READING when the queue has become
    empty; the exit taken when the deadline has passed at the head of the
    queue leaves the phase as it finds it. *)
Lemma tryWriteLock_timed_timeout_exits (s : PhaseFairRWLock)
    (q f : list positive) (wac : positive) (now deadline : Z) :
  queue_is s q → freeList_is s f → (q ## f) →
  (∃ s',
     tryWriteLock_timed_giveup (Some wac) s = Ok (Returned (Bool false)) s' [] ∧
     queue_is s' (without wac q) ∧ freeList_is s' f ∧
     same_outside_queue s s') ∧
  (_sleepersStart s = Some wac → deadline < now →
   ∃ s',
     tryWriteLock_timed_head now (Some wac) deadline s
       = Ok (Returned (Bool false)) s' [] ∧
     queue_is s' (without wac q) ∧ freeList_is s' f ∧
     same_outside_queue s s') ∧
  (∃ s' out,
     tryWriteLock_timed_repair (Some wac) s = Ok (Returned (Bool false)) s' out ∧
     queue_is s' (without wac q) ∧ freeList_is s' f ∧
     _readersRun s' = _readersRun s ∧ _readersWait s' = _readersWait s ∧
     _phase s' = (if decide (_phase s = READING_WRITERS_WAITING ∧
                             without wac q = [])
                  then READING else _phase s)).
Proof.
  intros Hq Hf Hdisj.
  destruct (removeFromQueue_unlinks s q f wac Hq Hf Hdisj)
    as (s' & Hrun & Hq' & Hf' & Hsame).
  split; [|split].
  - exists s'. split; [|done].
    unfold tryWriteLock_timed_giveup. by rewrite (bind_Ok _ _ _ _ _ _ Hrun).
  - intros Hs Hd. exists s'. split; [|done].
    unfold tryWriteLock_timed_head. rewrite bind_gets, Hs.
    unfold ptr_eqb. rewrite bool_decide_eq_true_2 by done.
    rewrite bind_assert_true.
    destruct (Z.ltb_spec deadline now); [|lia].
    by rewrite (bind_Ok _ _ _ _ _ _ Hrun).
  - destruct Hsame as (Hrr & Hrw & Hfl & Hph).
    pose proof (queue_is_head _ _ Hq') as Hs'.
    unfold tryWriteLock_timed_repair.
    rewrite (bind_Ok _ _ _ _ _ _ Hrun), !bind_gets, Hph, Hs'.
    unfold READING_WRITERS_WAITING, READING.
    destruct (decide (_phase s = 1 ∧ without wac q = [])) as [[H1 H2]|Hno].
    + rewrite H1, H2. simpl.
      destruct Hq' as [Hc' He']. unfold freeList_is in Hf'.
      rewrite H2 in Hc', He'.
      destruct (0 <? _readersWait s') eqn:Hw; do 2 eexists;
        (split; [crunch; simpl; rewrite Hw; reflexivity|]); simpl;
        (split; [by split|]); done.
    + assert ((_phase s =? 1) && is_null (head (without wac q)) = false) as ->.
      { apply andb_false_iff.
        destruct (Z.eqb_spec (_phase s) 1); [|by left].
        right. destruct (without wac q); [|done]. destruct Hno. by split. }
      rewrite bind_when_false. exists s', []. split; [done|].
      by rewrite Hph.
Qed.

(** The defect in general: [tryWriteLock(timeout)] finding its deadline
    passed while its clock is the only one in the queue returns [false]
    and leaves phase READING_WRITERS_WAITING or HANDOFF behind with the
    queue empty. *)
Lemma tryWriteLock_timed_head_expired_no_repair (s : PhaseFairRWLock)
    (f : list positive) (wac : positive) (now deadline : Z) :
  queue_is s [wac] → freeList_is s f → ([wac] ## f) →
  _phase s = READING_WRITERS_WAITING ∨ _phase s = HANDOFF →
  deadline < now →
  ∃ s',
    tryWriteLock_timed_head now (Some wac) deadline s
      = Ok (Returned (Bool false)) s' [] ∧
    _phase s' = _phase s ∧ queue_is s' [] ∧ ¬ Inv s'.
Proof.
  intros Hq Hf Hdisj Hph Hd.
  destruct (tryWriteLock_timed_timeout_exits s [wac] f wac now deadline
              Hq Hf Hdisj) as (_ & Hhead & _).
  destruct Hhead as (s' & Hrun & Hq' & _ & _ & _ & _ & Hph');
    [by apply queue_is_head in Hq|done|].
  rewrite without_head in Hq' by (apply NoDup_singleton).
  exists s'. split; [done|]. split; [done|]. split; [done|].
  apply not_Inv_waiting_without_writer; [by rewrite Hph'|].
  by apply queue_is_head in Hq'.
Qed.

(** C1.  Evaluation of [tryWriteLock(timeout)] where it times out after
    its clock has become the head of the queue during the first wait
    ([sched_two_timed_writers], then the wait of writer 3 comes back): the
    call of writer 3 returns [false] and leaves the lock in phase
    READING_WRITERS_WAITING with an empty writer queue, the invariants
    broken; no reader is admitted, and the release of the reader that holds
    the lock dereferences [_sleepersStart == nullptr].  Had writer 3 not
    called, the lock would be in phase READING. *)
Theorem tryWriteLock_timed_timeout_leaves_phase_stuck :
  ∃ w w' w0,
    run sched_two_timed_writers World_new = Runs w ∧
    Inv (lock w) ∧ queue_is (lock w) [2%positive] ∧
    sleepers w !! 3%nat = Some (mkSleeper (TWL_head (Some 2%positive) 20) false) ∧
    step (Wake 3) w = Runs w' ∧
    history w' = (3%nat, Bool false) :: history w ∧
    _phase (lock w') = READING_WRITERS_WAITING ∧
    queue_is (lock w') [] ∧
    _readersRun (lock w') = 1 ∧ _readersWait (lock w') = 0 ∧
    ¬ Inv (lock w') ∧
    tryReadLock (lock w') = Ok (Returned (Bool false)) (lock w') [] ∧
    step (Call 1 CunlockRead) w' = Crash NullDeref ∧
    run sched_one_timed_writer World_new = Runs w0 ∧
    _phase (lock w0) = READING ∧ queue_is (lock w0) [] ∧
    _readersRun (lock w0) = 1 ∧ Inv (lock w0).
Proof.
  exists
    (mkWorld (mkLock 1 0 (Some 2%positive) (Some 2%positive) None 1
                {[ 1%positive := Some 2%positive; 2%positive := None ]})
       21 {[ 3%nat := mkSleeper (TWL_head (Some 2%positive) 20) false ]}
       [(2%nat, Bool false); (1%nat, Void)]),
    (mkWorld (mkLock 1 0 None None None 1
                {[ 1%positive := Some 2%positive; 2%positive := None ]})
       21 ∅ [(3%nat, Bool false); (2%nat, Bool false); (1%nat, Void)]),
    (mkWorld (mkLock 1 0 None None None 0 {[ 1%positive := None ]})
       21 ∅ [(2%nat, Bool false); (1%nat, Void)]).
  assert (Hq2 : ∀ rr rw fl ph,
    queue_is (mkLock rr rw (Some 2%positive) (Some 2%positive) fl ph
                {[ 1%positive := Some 2%positive; 2%positive := None ]})
      [2%positive]).
  { intros. split; [|reflexivity]. simpl.
    eapply chain_cons; [reflexivity|constructor]. }
  assert (Hq0 : ∀ rr rw fl ph h, queue_is (mkLock rr rw None None fl ph h) []).
  { intros. split; [constructor|reflexivity]. }
  split; [by vm_compute|].
  split.
  { constructor; simpl.
    - discriminate.
    - discriminate.
    - by right.
    - by exists [2%positive]. }
  split; [apply Hq2|]. split; [by vm_compute|]. split; [by vm_compute|].
  split; [done|]. split; [done|]. split; [apply Hq0|].
  split; [done|]. split; [done|].
  split; [by apply not_Inv_waiting_without_writer; [left|]|].
  split; [by vm_compute|]. split; [by vm_compute|]. split; [by vm_compute|].
  split; [done|]. split; [apply Hq0|]. split; [done|].
  constructor; simpl.
  - done.
  - intros [?|?]; discriminate.
  - by left.
  - by exists [].
Qed.

(** The other defect in general: [unlockWrite] with a reader waiting and
    a writer queued moves to phase READING and leaves the writer in the
    queue, notifying the readers only. *)
Lemma unlockWrite_readers_first_keeps_queue (s : PhaseFairRWLock)
    (h : positive) (q : list positive) :
  queue_is s (h :: q) → _phase s = WRITING → 0 < _readersWait s →
  unlockWrite s = Ok (Returned Void) (set_phase READING s) [NotifyAllReaders] ∧
  queue_is (set_phase READING s) (h :: q) ∧
  ¬ Inv (set_phase READING s).
Proof.
  intros Hq Hph Hrw. split; [|split].
  - unfold unlockWrite, unlockWriteWithMutex. crunch. rewrite Hph. simpl.
    by destruct (Z.ltb_spec 0 (_readersWait s)); [|lia].
  - done.
  - apply (not_Inv_reading_with_writer _ h); [done|].
    by apply queue_is_head in Hq.
Qed.

(** The same timeout in the very tick of the deadline.  Writer 3 wakes at
    time 20 with its clock at the head of the queue.  If the clock still
    reads 20 when the method reads it again, the method goes on to its
    second wait; if the clock has moved on by then, the method returns
    [false] and leaves the phase stuck as above. *)
Lemma wake_in_the_tick_of_the_deadline :
  ∃ w w1 w2,
    run [ Call 1 CreadLock; Call 2 (CtryWriteLock_timed 10);
          Call 3 (CtryWriteLock_timed 20); Tick 11; Wake 2; Tick 9 ]
      World_new = Runs w ∧
    clock w = 20 ∧
    step (Wake 3) w = Runs w1 ∧
    sleepers w1 !! 3%nat
      = Some (mkSleeper (TWL_handoff (Some 2%positive) 20) false) ∧
    step (WakeLate 3 1) w = Runs w2 ∧
    history w2 = (3%nat, Bool false) :: history w ∧
    _phase (lock w2) = READING_WRITERS_WAITING ∧
    _sleepersStart (lock w2) = None.
Proof.
  exists
    (mkWorld (mkLock 1 0 (Some 2%positive) (Some 2%positive) None 1
                {[ 1%positive := Some 2%positive; 2%positive := None ]})
       20 {[ 3%nat := mkSleeper (TWL_head (Some 2%positive) 20) false ]}
       [(2%nat, Bool false); (1%nat, Void)]),
    (mkWorld (mkLock 1 0 (Some 2%positive) (Some 2%positive) None 1
                {[ 1%positive := Some 2%positive; 2%positive := None ]})
       20 {[ 3%nat := mkSleeper (TWL_handoff (Some 2%positive) 20) false ]}
       [(2%nat, Bool false); (1%nat, Void)]),
    (mkWorld (mkLock 1 0 None None None 1
                {[ 1%positive := Some 2%positive; 2%positive := None ]})
       21 ∅ [(3%nat, Bool false); (2%nat, Bool false); (1%nat, Void)]).
  split; [by vm_compute|]. split; [done|]. split; [by vm_compute|].
  split; [by vm_compute|]. split; [by vm_compute|]. done.
Qed.

(** C2.  Two critical sections that start from a lock satisfying the
    invariants and end in one that breaks them.  [unlockWrite] with a
    reader waiting and a writer queued moves to phase READING with the
    writer still in the queue; once the reader has come and gone the lock
    is free, the queued writer has not been notified and would sleep again
    if woken, and a later [writeLock] takes the lock ahead of it.
    [tryWriteLock(timeout)] whose deadline has passed when its clock is
    handed the lock returns [false] and leaves phase HANDOFF with an empty
    queue, in which [tryReadLock] and [tryWriteLock] fail though nobody
    holds the lock. *)
Theorem invariants_not_preserved :
  (∃ w w',
     run sched_reader_and_writer_waiting World_new = Runs w ∧
     Inv (lock w) ∧ _phase (lock w) = WRITING ∧
     step (Call 1 CunlockWrite) w = Runs w' ∧
     _phase (lock w') = READING ∧ queue_is (lock w') [1%positive] ∧
     ¬ Inv (lock w') ∧
     ∃ w1 w2,
       run [Wake 3; Call 3 CunlockRead] w' = Runs w1 ∧
       _phase (lock w1) = READING ∧ _readersRun (lock w1) = 0 ∧
       sleepers w1
         = {[ 2%nat := mkSleeper (WL_handoff (Some 1%positive)) false ]} ∧
       step (Wake 2) w1 = NotEnabled ∧
       resume 0 0 (WL_handoff (Some 1%positive)) (lock w1)
         = Ok (Waiting (WL_handoff (Some 1%positive))) (lock w1) [] ∧
       step (Call 4 CwriteLock) w1 = Runs w2 ∧
       history w2 = (4%nat, Void) :: history w1 ∧
       _phase (lock w2) = WRITING ∧
       sleepers w2 = sleepers w1) ∧
  (∃ w w',
     run sched_handoff_to_expired_writer World_new = Runs w ∧
     Inv (lock w) ∧
     sleepers w !! 3%nat
       = Some (mkSleeper (TWL_head (Some 2%positive) 10) true) ∧
     step (Wake 3) w = Runs w' ∧
     history w' = (3%nat, Bool false) :: history w ∧
     _phase (lock w') = HANDOFF ∧ queue_is (lock w') [] ∧
     sleepers w' = ∅ ∧
     ¬ Inv (lock w') ∧
     tryReadLock (lock w') = Ok (Returned (Bool false)) (lock w') [] ∧
     tryWriteLock (lock w') = Ok (Returned (Bool false)) (lock w') []).
Proof.
  split.
  - exists
      (mkWorld (mkLock 0 1 (Some 1%positive) (Some 1%positive) None 3
                  {[ 1%positive := None ]})
         0 {[ 2%nat := mkSleeper (WL_handoff (Some 1%positive)) false;
              3%nat := mkSleeper RL_wait false ]}
         [(1%nat, Void)]),
      (mkWorld (mkLock 0 1 (Some 1%positive) (Some 1%positive) None 0
                  {[ 1%positive := None ]})
         0 {[ 2%nat := mkSleeper (WL_handoff (Some 1%positive)) false;
              3%nat := mkSleeper RL_wait true ]}
         [(1%nat, Void); (1%nat, Void)]).
    assert (Hq1 : ∀ rr rw fl ph,
      queue_is (mkLock rr rw (Some 1%positive) (Some 1%positive) fl ph
                  {[ 1%positive := None ]}) [1%positive]).
    { intros. split; [|reflexivity]. simpl.
      eapply chain_cons; [reflexivity|constructor]. }
    split; [by vm_compute|].
    split.
    { constructor; simpl.
      - discriminate.
      - done.
      - lia.
      - by exists [1%positive]. }
    split; [done|]. split; [by vm_compute|]. split; [done|].
    split; [apply Hq1|].
    split; [by eapply not_Inv_reading_with_writer|].
    exists
      (mkWorld (mkLock 0 0 (Some 1%positive) (Some 1%positive) None 0
                  {[ 1%positive := None ]})
         0 {[ 2%nat := mkSleeper (WL_handoff (Some 1%positive)) false ]}
         [(3%nat, Void); (3%nat, Void); (1%nat, Void); (1%nat, Void)]),
      (mkWorld (mkLock 0 0 (Some 1%positive) (Some 1%positive) None 3
                  {[ 1%positive := None ]})
         0 {[ 2%nat := mkSleeper (WL_handoff (Some 1%positive)) false ]}
         [(4%nat, Void); (3%nat, Void); (3%nat, Void); (1%nat, Void);
          (1%nat, Void)]).
    split; [by vm_compute|]. split; [done|]. split; [done|]. split; [done|].
    split; [by vm_compute|]. split; [by vm_compute|]. split; [by vm_compute|].
    done.
  - exists
      (mkWorld (mkLock 0 0 (Some 2%positive) (Some 2%positive)
                  (Some 1%positive) 2
                  {[ 1%positive := None; 2%positive := None ]})
         11 {[ 3%nat := mkSleeper (TWL_head (Some 2%positive) 10) true ]}
         [(2%nat, Void); (2%nat, Void); (1%nat, Void); (1%nat, Void)]),
      (mkWorld (mkLock 0 0 None None (Some 1%positive) 2
                  {[ 1%positive := None; 2%positive := None ]})
         11 ∅
         [(3%nat, Bool false); (2%nat, Void); (2%nat, Void); (1%nat, Void);
          (1%nat, Void)]).
    split; [by vm_compute|].
    split.
    { constructor; simpl.
      - discriminate.
      - done.
      - lia.
      - exists [2%positive]. split; [|reflexivity]. simpl.
        eapply chain_cons; [reflexivity|constructor]. }
    split; [by vm_compute|]. split; [by vm_compute|]. split; [done|].
    split; [done|]. split; [by split; [constructor|]|]. split; [done|].
    split; [by apply not_Inv_waiting_without_writer; [right|]|].
    split; by vm_compute.
Qed.

(** * Beyond the claims *)

(** ** Taking a critical section apart *)

Lemma bind_inv {A B} (m : M A) (k : A → M B) s b s2 out :
  (m ≫= k) s = Ok b s2 out →
  ∃ a s1 o1 o2, m s = Ok a s1 o1 ∧ k a s1 = Ok b s2 o2 ∧ out = o1 ++ o2.
Proof.
  unfold mbind, M_bind, bind.
  destruct (m s) as [a s1 o1|]; [|done].
  destruct (k a s1) as [b' s2' o2|] eqn:Hk; [|done].
  intros [= <- <- <-]. by exists a, s1, o1, o2.
Qed.

Lemma load_next_inv p s n s' out :
  load_next p s = Ok n s' out →
  ∃ a, p = Some a ∧ clocks s !! a = Some n ∧ s' = s ∧ out = [].
Proof.
  destruct p as [a|]; [|done]. simpl.
  destruct (clocks s !! a) as [m|] eqn:Ha; [|done].
  intros [= <- <- <-]. by exists a.
Qed.

Lemma store_next_inv p v s s' out :
  store_next p v s = Ok () s' out →
  ∃ a, p = Some a ∧ is_Some (clocks s !! a) ∧
       s' = set_clocks (<[a := v]> (clocks s)) s ∧ out = [].
Proof.
  destruct p as [a|]; [|done]. simpl.
  destruct (clocks s !! a) as [m|] eqn:Ha; [|done].
  intros [= <- <-]. exists a. eauto.
Qed.

Lemma dom_insert_allocated (h : gmap positive ptr) a v :
  is_Some (h !! a) → dom (<[a := v]> h) = dom h.
Proof.
  intros Ha. rewrite dom_insert_L.
  apply subseteq_union_1_L, singleton_subseteq_l. by apply elem_of_dom.
Qed.

(** What [removeFromQueue] leaves alone on any lock, well formed or not:
    the counters, the phase, the free list pointer and the set of
    allocated clocks; it notifies nobody. *)
Lemma removeFromQueue_loop_frame fuel wac w s s' out :
  removeFromQueue_loop fuel wac w s = Ok () s' out →
  out = [] ∧ same_outside_queue s s' ∧
  _sleepersStart s' = _sleepersStart s ∧ dom (clocks s') = dom (clocks s).
Proof.
  revert w. induction fuel as [|fuel IH]; intros w; [done|].
  destruct w as [x|]; [|by intros [= <- <-]].
  rewrite removeFromQueue_loop_unfold.
  destruct (clocks s !! x) as [nx|] eqn:Hx; [|done].
  destruct (ptr_eqb nx wac); [|apply IH].
  intros Hrun.
  apply bind_inv in Hrun as (wacn & s1 & o1 & o2 & H1 & Hrun & ->).
  apply load_next_inv in H1 as (a & -> & Ha & -> & ->).
  apply bind_inv in Hrun as ([] & s2 & o2' & o3 & H2 & Hrun & ->).
  apply store_next_inv in H2 as (? & [= <-] & _ & -> & ->).
  apply bind_inv in Hrun as (wn' & s3 & o3' & o4 & H3 & Hrun & ->).
  apply load_next_inv in H3 as (? & [= <-] & _ & -> & ->).
  assert (Hdom : dom (<[x := wacn]> (clocks s)) = dom (clocks s))
    by (apply dom_insert_allocated; eauto).
  destruct wn'; simpl in Hrun; injection Hrun as <- <-; by repeat split.
Qed.

Lemma removeFromQueue_frame wac s s' out :
  removeFromQueue wac s = Ok () s' out →
  out = [] ∧ same_outside_queue s s' ∧ dom (clocks s') = dom (clocks s).
Proof.
  unfold removeFromQueue. rewrite bind_gets.
  destruct (ptr_eqb wac (_sleepersStart s)).
  - intros Hrun.
    apply bind_inv in Hrun as (n & s1 & o1 & o2 & H1 & Hrun & ->).
    apply load_next_inv in H1 as (a & _ & _ & -> & ->).
    rewrite bind_modify in Hrun.
    destruct n; simpl in Hrun; injection Hrun as <- <-; by repeat split.
  - rewrite bind_gets. intros Hrun.
    apply removeFromQueue_loop_frame in Hrun as (? & ? & _ & ?). done.
Qed.

(** ** The free list *)

(** X1.  The free list is a stack.  Returning an allocated clock and then
    asking for one hands the same clock out again, with its [next] reset
    to [nullptr] and nothing else of the lock changed; taking the clock at
    the head of a non-empty free list and returning it restores the lock
    exactly. *)
Theorem free_list_is_a_stack (s : PhaseFairRWLock) (a : positive) (n : ptr) :
  clocks s !! a = Some n →
  (returnAlarmClock (Some a) ≫= λ _, getAlarmClock) s
    = Ok (Some a) (set_clocks (<[a := None]> (clocks s)) s) [] ∧
  (_freeList s = Some a →
   (getAlarmClock ≫= returnAlarmClock) s = Ok () s []).
Proof.
  intros Ha. split.
  - unfold returnAlarmClock, getAlarmClock, store_next, load_next. crunch.
    simpl. rewrite Ha. simpl. rewrite lookup_insert_eq. simpl.
    rewrite lookup_insert_eq. simpl. rewrite insert_insert_eq.
    by destruct s.
  - intros Hfl.
    unfold returnAlarmClock, getAlarmClock, store_next, load_next. crunch.
    rewrite Hfl. simpl. rewrite Ha. simpl. rewrite Ha. simpl.
    rewrite lookup_insert_eq. simpl.
    rewrite insert_insert_eq, insert_id by done.
    destruct s; simpl in *. by subst.
Qed.

Lemma free_list_is_a_stack_witness :
  (returnAlarmClock (Some 2%positive) ≫= λ _, getAlarmClock)
    (mkLock 0 0 None None (Some 1%positive) 3
       {[ 1%positive := None; 2%positive := Some 1%positive ]})
  = Ok (Some 2%positive)
      (mkLock 0 0 None None (Some 1%positive) 3
         {[ 1%positive := None; 2%positive := None ]}) []
  ∧ (getAlarmClock ≫= returnAlarmClock)
      (mkLock 0 0 None None (Some 2%positive) 3
         {[ 1%positive := None; 2%positive := Some 1%positive ]})
    = Ok ()
        (mkLock 0 0 None None (Some 2%positive) 3
           {[ 1%positive := None; 2%positive := Some 1%positive ]}) [].
Proof.
  split.
  - destruct (free_list_is_a_stack
                (mkLock 0 0 None None (Some 1%positive) 3
                   {[ 1%positive := None; 2%positive := Some 1%positive ]})
                2%positive (Some 1%positive)) as [Hround _].
    + reflexivity.
    + rewrite Hround. reflexivity.
  - destruct (free_list_is_a_stack
                (mkLock 0 0 None None (Some 2%positive) 3
                   {[ 1%positive := None; 2%positive := Some 1%positive ]})
                2%positive (Some 1%positive)) as [_ Hround].
    + reflexivity.
    + apply Hround. reflexivity.
Defined.

(** X2.  On a lock whose writer queue [q] and free list [f] are disjoint
    chains, [getAlarmClock] hands out a clock that is not in the queue and
    whose [next] is [nullptr]; the queue is untouched, the free list loses
    its first clock, and a clock is allocated exactly when the free list
    was empty (then the clock was not allocated before). *)
Theorem getAlarmClock_hands_out (s : PhaseFairRWLock) (q f : list positive) :
  queue_is s q → freeList_is s f → (q ## f) →
  ∃ a s',
    getAlarmClock s = Ok (Some a) s' [] ∧
    (a ∉ q) ∧ clocks s' !! a = Some None ∧
    queue_is s' q ∧ freeList_is s' (tail f) ∧ (a ∉ tail f) ∧
    same_counters s s' ∧
    (f = [] → clocks s !! a = None ∧ size (clocks s') = S (size (clocks s))) ∧
    (f ≠ [] → head f = Some a ∧ dom (clocks s') = dom (clocks s)).
Proof.
  intros Hq Hf Hdisj.
  destruct (getAlarmClock_spec s q f Hq Hf Hdisj)
    as (a & Hrun & Hobt & Hwq & Hwf).
  exists a. eexists. split; [exact Hrun|]. split; [done|].
  split; [simpl; by rewrite lookup_insert_eq|].
  destruct Hq as [Hc He]. unfold freeList_is in *.
  split; [split; [|done]; simpl; by apply chain_insert_other|].
  split; [simpl; apply chain_insert_other;
          [exact (chain_tail _ _ _ Hf)|done]|].
  split; [done|]. split; [done|].
  destruct Hobt as [[-> Hfresh]|Hhead].
  - split; [|done]. intros _. split; [done|]. simpl.
    by apply map_size_insert_None.
  - split; [intros ->; done|]. intros _. split; [done|]. simpl.
    apply dom_insert_allocated.
    eapply chain_allocated; [exact Hf|].
    destruct f; simplify_eq/=. by left.
Qed.

Lemma getAlarmClock_hands_out_witness :
  ∃ a s',
    getAlarmClock (mkLock 0 0 (Some 1%positive) (Some 1%positive)
                     (Some 2%positive) 3
                     {[ 1%positive := None; 2%positive := None ]})
    = Ok (Some a) s' [] ∧
    a = 2%positive ∧ queue_is s' [1%positive] ∧ freeList_is s' [].
Proof.
  destruct (getAlarmClock_hands_out
              (mkLock 0 0 (Some 1%positive) (Some 1%positive)
                 (Some 2%positive) 3
                 {[ 1%positive := None; 2%positive := None ]})
              [1%positive] [2%positive])
    as (a & s' & Hrun & _ & _ & Hq & Hf & _ & _ & _ & Hhead).
  - split; [|reflexivity]. simpl.
    eapply chain_cons; [reflexivity|constructor].
  - unfold freeList_is. simpl.
    eapply chain_cons; [reflexivity|constructor].
  - intros x Hx Hx'.
    apply list_elem_of_singleton in Hx. apply list_elem_of_singleton in Hx'.
    subst x. discriminate.
  - exists a, s'. split; [exact Hrun|].
    destruct Hhead as [Hh _]; [discriminate|].
    simpl in Hh. split; [by injection Hh|]. split; [exact Hq|exact Hf].
Defined.

(** ** The destructor *)

Lemma chain_delete_other h p l a :
  chain h p l → a ∉ l → chain (delete a h) p l.
Proof.
  induction 1 as [|b n l Hb Hc IH]; intros Hnin; [constructor|].
  apply not_elem_of_cons in Hnin as [Hne Hnin].
  econstructor; [|by apply IH].
  by rewrite lookup_delete_ne.
Qed.

(** The clocks left once the clocks [f] have been freed one by one. *)
Lemma lookup_freed (h : gmap positive ptr) (f : list positive) b :
  foldl (λ h a, delete a h) h f !! b
  = if decide (b ∈ f) then None else h !! b.
Proof.
  revert h. induction f as [|a f IH]; intros h; cbn [foldl].
  - destruct (decide (b ∈ [])) as [Hin|_]; [|done].
    by apply elem_of_nil in Hin.
  - rewrite IH.
    destruct (decide (b ∈ f)) as [Hin|Hnin];
      destruct (decide (b ∈ a :: f)) as [Hin'|Hnin']; try done.
    + destruct Hnin'. by right.
    + apply elem_of_cons in Hin' as [->|?]; [|done].
      by rewrite lookup_delete_eq.
    + apply not_elem_of_cons in Hnin' as [Hne _].
      by rewrite lookup_delete_ne.
Qed.

Lemma chain_freed h p l f :
  chain h p l → (l ## f) → chain (foldl (λ h a, delete a h) h f) p l.
Proof.
  revert h. induction f as [|a f IH]; intros h Hc Hdisj; [done|]. simpl.
  apply IH.
  - apply chain_delete_other; [done|]. intros Hin. apply (Hdisj a); [done|].
    by left.
  - intros x Hx Hx'. apply (Hdisj x); [done|]. by right.
Qed.

Lemma destructor_loop_frees fuel s p f :
  chain (clocks s) p f → (length f < fuel)%nat →
  destructor_loop fuel p s
  = Ok () (set_clocks (foldl (λ h a, delete a h) (clocks s) f) s) [].
Proof.
  revert s p fuel. induction f as [|a l IH]; intros s p fuel Hc Hfuel.
  - inversion Hc; subst.
    destruct fuel; [simpl in Hfuel; lia|]. simpl. by destruct s.
  - pose proof (chain_NoDup _ _ _ Hc) as Hnd.
    apply NoDup_cons in Hnd as [Hal _].
    inversion Hc as [|? n ? Ha Hc']; subst.
    destruct fuel; [simpl in Hfuel; lia|].
    cbn [destructor_loop is_null negb].
    rewrite (bind_Ok _ _ _ n s []) by (simpl; by rewrite Ha).
    rewrite (bind_Ok _ _ _ () (set_clocks (delete a (clocks s)) s) [])
      by (simpl; by rewrite Ha).
    rewrite (IH (set_clocks (delete a (clocks s)) s) n fuel);
      [done| |simpl in Hfuel; lia].
    simpl. by apply chain_delete_other.
Qed.

(** The loop frees a clock every time round, so it cannot go round more
    often than there are clocks: it ends or it faults. *)
Lemma destructor_loop_ends fuel s p :
  (size (clocks s) < fuel)%nat → destructor_loop fuel p s ≠ Fail Diverges.
Proof.
  revert s p. induction fuel as [|fuel IH]; intros s p Hsz; [lia|].
  destruct p as [a|]; [|done].
  cbn [destructor_loop is_null negb].
  destruct (clocks s !! a) as [n|] eqn:Ha.
  - rewrite (bind_Ok _ _ _ n s []) by (simpl; by rewrite Ha).
    rewrite (bind_Ok _ _ _ () (set_clocks (delete a (clocks s)) s) [])
      by (simpl; by rewrite Ha).
    assert (Hne : destructor_loop fuel n (set_clocks (delete a (clocks s)) s)
                  ≠ Fail Diverges).
    { apply IH. simpl.
      rewrite map_size_delete, Ha. cbn beta iota.
      assert (size (clocks s) ≠ 0%nat).
      { intros H0. apply map_size_empty_inv in H0.
        rewrite H0, lookup_empty in Ha. discriminate. }
      lia. }
    by destruct (destructor_loop fuel n _).
  - rewrite (bind_Fail _ _ _ WildDeref); [done|]. simpl. by rewrite Ha.
Qed.

(** X3.  The destructor never goes round its loop for ever; and on a lock
    whose writer queue [q] and free list [f] are disjoint chains it
    returns, having freed exactly the clocks of the free list: the clocks
    in the queue, which writers still wait on, stay allocated and linked,
    and no field of the lock is written. *)
Theorem destructor_frees_the_free_list (s : PhaseFairRWLock)
    (q f : list positive) :
  PhaseFairRWLock_destroy s ≠ Fail Diverges ∧
  (queue_is s q → freeList_is s f → (q ## f) →
   ∃ h',
     PhaseFairRWLock_destroy s = Ok () (set_clocks h' s) [] ∧
     (∀ b, h' !! b = if decide (b ∈ f) then None else clocks s !! b) ∧
     queue_is (set_clocks h' s) q).
Proof.
  split.
  - unfold PhaseFairRWLock_destroy. rewrite !bind_gets.
    apply destructor_loop_ends. lia.
  - intros [Hc He] Hf Hdisj.
    exists (foldl (λ h a, delete a h) (clocks s) f).
    split; [|split].
    + unfold PhaseFairRWLock_destroy. rewrite !bind_gets.
      apply destructor_loop_frees; [done|].
      pose proof (chain_length_le _ _ _ Hf). lia.
    + intros b. apply lookup_freed.
    + split; [|done]. simpl. by apply chain_freed.
Qed.

Lemma destructor_frees_the_free_list_witness :
  ∃ h',
    PhaseFairRWLock_destroy
      (mkLock 0 0 (Some 1%positive) (Some 1%positive) (Some 2%positive) 3
         {[ 1%positive := None; 2%positive := Some 3%positive;
            3%positive := None ]})
    = Ok ()
        (mkLock 0 0 (Some 1%positive) (Some 1%positive) (Some 2%positive) 3 h')
        [] ∧
    h' !! 1%positive = Some None ∧ h' !! 2%positive = None ∧
    h' !! 3%positive = None.
Proof.
  destruct (destructor_frees_the_free_list
              (mkLock 0 0 (Some 1%positive) (Some 1%positive)
                 (Some 2%positive) 3
                 {[ 1%positive := None; 2%positive := Some 3%positive;
                    3%positive := None ]})
              [1%positive] [2%positive; 3%positive])
    as (_ & Hfree).
  destruct Hfree as (h' & Hrun & Hlook & _).
  - split; [|reflexivity]. simpl.
    eapply chain_cons; [reflexivity|constructor].
  - unfold freeList_is. simpl.
    eapply chain_cons; [reflexivity|].
    eapply chain_cons; [reflexivity|constructor].
  - intros x Hx Hx'. apply list_elem_of_singleton in Hx. subst x.
    apply elem_of_cons in Hx' as [Hx'|Hx']; [discriminate|].
    apply list_elem_of_singleton in Hx'. discriminate.
  - exists h'. split; [exact Hrun|].
    rewrite !Hlook. repeat split.
Defined.

(** ** Who is let in, and when *)

Lemma getAlarmClock_frame s p s' out :
  getAlarmClock s = Ok p s' out →
  out = [] ∧ same_counters s s' ∧
  _sleepersStart s' = _sleepersStart s ∧ _sleepersEnd s' = _sleepersEnd s.
Proof.
  unfold getAlarmClock, load_next, store_next, new_WriterAlarmClock. crunch.
  destruct (_freeList s) as [a|]; simpl.
  - destruct (clocks s !! a) as [n|] eqn:Ha; simpl; [|done].
    rewrite Ha. simpl. by intros [= <- <- <-].
  - by intros [= <- <- <-].
Qed.

Lemma returnAlarmClock_frame wac s s' out :
  returnAlarmClock wac s = Ok () s' out →
  out = [] ∧ same_counters s s' ∧
  _sleepersStart s' = _sleepersStart s ∧ _sleepersEnd s' = _sleepersEnd s.
Proof.
  unfold returnAlarmClock, store_next. crunch.
  destruct wac as [a|]; simpl; [|done].
  destruct (clocks s !! a) as [n|] eqn:Ha; simpl; [|done].
  by intros [= <- <-].
Qed.

Lemma writeLock_granted_inv wac s st s' out :
  writeLock_granted wac s = Ok st s' out →
  st = Returned Void ∧ out = [] ∧ _phase s' = WRITING ∧
  _readersRun s' = _readersRun s ∧ _readersWait s' = _readersWait s.
Proof.
  unfold writeLock_granted. rewrite bind_modify, bind_gets.
  destruct (ptr_eqb wac (_sleepersStart (set_phase 3 s))); [|done].
  rewrite bind_assert_true. intros Hrun.
  apply bind_inv in Hrun as ([] & s1 & o1 & o2 & Hrm & Hrun & ->).
  apply bind_inv in Hrun as ([] & s2 & o2' & o3 & Hret & Hrun & ->).
  injection Hrun as <- <- <-.
  apply removeFromQueue_frame in Hrm as (-> & (Hrr & Hrw & _ & Hph) & _).
  apply returnAlarmClock_frame in Hret as (-> & (Hrr' & Hrw' & Hph') & _).
  unfold WRITING. simpl in *. repeat split; try done; congruence.
Qed.

Lemma tryWriteLock_timed_granted_inv wac s st s' out :
  tryWriteLock_timed_granted wac s = Ok st s' out →
  st = Returned (Bool true) ∧ out = [] ∧ _phase s' = WRITING ∧
  _readersRun s' = _readersRun s ∧ _readersWait s' = _readersWait s.
Proof.
  unfold tryWriteLock_timed_granted. rewrite bind_modify. intros Hrun.
  apply bind_inv in Hrun as ([] & s1 & o1 & o2 & Hrm & Hrun & ->).
  apply bind_inv in Hrun as ([] & s2 & o2' & o3 & Hret & Hrun & ->).
  injection Hrun as <- <- <-.
  apply removeFromQueue_frame in Hrm as (-> & (Hrr & Hrw & _ & Hph) & _).
  apply returnAlarmClock_frame in Hret as (-> & (Hrr' & Hrw' & Hph') & _).
  unfold WRITING. simpl in *. repeat split; try done; congruence.
Qed.

(** The three exits of [tryWriteLock(timeout)] by timeout return [false]
    on any lock. *)
Lemma tryWriteLock_timed_giveup_inv wac s st s' out :
  tryWriteLock_timed_giveup wac s = Ok st s' out → st = Returned (Bool false).
Proof.
  unfold tryWriteLock_timed_giveup. intros Hrun.
  apply bind_inv in Hrun as ([] & s1 & o1 & o2 & _ & Hrun & _).
  by injection Hrun as <- _ _.
Qed.

Lemma tryWriteLock_timed_repair_inv wac s st s' out :
  tryWriteLock_timed_repair wac s = Ok st s' out → st = Returned (Bool false).
Proof.
  unfold tryWriteLock_timed_repair. intros Hrun.
  apply bind_inv in Hrun as ([] & s1 & o1 & o2 & _ & Hrun & _).
  rewrite !bind_gets in Hrun.
  apply bind_inv in Hrun as ([] & s2 & o2' & o3 & _ & Hrun & _).
  by injection Hrun as <- _ _.
Qed.

Lemma writeLock_head_inv wac s st s' out :
  writeLock_head wac s = Ok st s' out → granted st = true →
  _phase s = HANDOFF ∧ _phase s' = WRITING ∧ _readersRun s' = _readersRun s.
Proof.
  unfold writeLock_head, await, phase_is. rewrite bind_gets.
  destruct (ptr_eqb wac (_sleepersStart s)); [|done].
  rewrite bind_assert_true, bind_gets.
  destruct (Z.eqb_spec (_phase s) 0) as [H0|H0].
  - simpl. rewrite bind_modify, bind_gets. simpl.
    by intros [= <- <- <-].
  - rewrite bind_when_false, bind_gets.
    destruct (Z.eqb_spec (_phase s) 2) as [H2|H2].
    + intros Hrun _. by apply writeLock_granted_inv in Hrun as (_&_&?&?&_).
    + by intros [= <- <- <-].
Qed.

Lemma tryWriteLock_timed_head_inv now wac deadline s st s' out :
  tryWriteLock_timed_head now wac deadline s = Ok st s' out →
  granted st = true →
  _phase s = HANDOFF ∧ _phase s' = WRITING ∧ _readersRun s' = _readersRun s.
Proof.
  unfold tryWriteLock_timed_head, await, phase_is. rewrite bind_gets.
  destruct (ptr_eqb wac (_sleepersStart s)); [|done].
  rewrite bind_assert_true.
  destruct (deadline <? now).
  { intros Hrun. apply tryWriteLock_timed_giveup_inv in Hrun as ->. done. }
  rewrite bind_gets.
  destruct (Z.eqb_spec (_phase s) 0) as [H0|H0].
  - simpl. rewrite bind_modify, bind_gets. simpl.
    by intros [= <- <- <-].
  - rewrite bind_when_false, bind_gets.
    destruct (Z.eqb_spec (_phase s) 2) as [H2|H2].
    + intros Hrun _.
      by apply tryWriteLock_timed_granted_inv in Hrun as (_&_&?&?&_).
    + by intros [= <- <- <-].
Qed.

Lemma writeLock_inv s st s' out :
  writeLock s = Ok st s' out → granted st = true →
  ((_phase s = READING ∧ _readersRun s = 0) ∨ _phase s = HANDOFF) ∧
  _phase s' = WRITING ∧ _readersRun s' = _readersRun s.
Proof.
  unfold writeLock. rewrite !bind_gets.
  destruct ((_phase s =? 0) && (_readersRun s =? 0)) eqn:Hfast.
  { apply andb_true_iff in Hfast as [H0%Z.eqb_eq Hr%Z.eqb_eq].
    rewrite bind_modify. intros [= <- <- <-] _. split; [by left|done]. }
  intros Hrun Hgr.
  apply bind_inv in Hrun as (wac & s1 & o1 & o2 & Hget & Hrun & ->).
  apply getAlarmClock_frame in Hget as (-> & (Hrr & Hrw & Hph) & Hs & He).
  rewrite bind_gets in Hrun.
  assert (Hhead : ∃ s2 o, _phase s2 = _phase s1 ∧
                          _readersRun s2 = _readersRun s1 ∧
                          writeLock_head wac s2 = Ok st s' o).
  { destruct (_sleepersStart s1) as [h|]; cbn [is_null negb] in Hrun;
      rewrite bind_gets in Hrun;
      destruct (_sleepersEnd s1) as [e|]; cbn [is_null negb] in Hrun;
      try (by rewrite bind_assert_false in Hrun);
      rewrite bind_assert_true in Hrun.
    - apply bind_inv in Hrun as ([] & s2 & o2' & o3 & Hst & Hrun & ->).
      apply store_next_inv in Hst as (? & _ & _ & -> & ->).
      rewrite bind_modify in Hrun.
      unfold await, at_head in Hrun. rewrite bind_gets in Hrun.
      match type of Hrun with
      | (if ?b then _ else _) _ = _ => destruct b
      end; [|injection Hrun as <- _ _; done].
      do 2 eexists. split; [|split; [|exact Hrun]]; done.
    - rewrite !bind_modify in Hrun.
      do 2 eexists. split; [|split; [|exact Hrun]]; done. }
  destruct Hhead as (s2 & o & Hph2 & Hrr2 & Hrun2).
  apply writeLock_head_inv in Hrun2 as (Hh & Hw & Hr'); [|done].
  split; [right; congruence|]. split; congruence.
Qed.

Lemma tryWriteLock_timed_inv timeout now now' s st s' out :
  tryWriteLock_timed timeout now now' s = Ok st s' out → granted st = true →
  ((_phase s = READING ∧ _readersRun s = 0) ∨ _phase s = HANDOFF) ∧
  _phase s' = WRITING ∧ _readersRun s' = _readersRun s.
Proof.
  unfold tryWriteLock_timed. rewrite !bind_gets.
  destruct ((_phase s =? 0) && (_readersRun s =? 0)) eqn:Hfast.
  { apply andb_true_iff in Hfast as [H0%Z.eqb_eq Hr%Z.eqb_eq].
    rewrite bind_modify. intros [= <- <- <-] _. split; [by left|done]. }
  intros Hrun Hgr.
  apply bind_inv in Hrun as (wac & s1 & o1 & o2 & Hget & Hrun & ->).
  apply getAlarmClock_frame in Hget as (-> & (Hrr & Hrw & Hph) & Hs & He).
  cbn zeta in Hrun. rewrite bind_gets in Hrun.
  assert (Hhead : ∃ s2 o, _phase s2 = _phase s1 ∧
                          _readersRun s2 = _readersRun s1 ∧
                          tryWriteLock_timed_head now' wac (now + timeout) s2
                          = Ok st s' o).
  { destruct (_sleepersStart s1) as [h|]; cbn [is_null negb] in Hrun;
      rewrite bind_gets in Hrun.
    - apply bind_inv in Hrun as ([] & s2 & o2' & o3 & Hst & Hrun & ->).
      apply store_next_inv in Hst as (? & _ & _ & -> & ->).
      rewrite bind_modify in Hrun.
      unfold await, at_head in Hrun. rewrite bind_gets in Hrun.
      match type of Hrun with
      | (if ?b then _ else _) _ = _ => destruct b
      end; [|injection Hrun as <- _ _; done].
      do 2 eexists. split; [|split; [|exact Hrun]]; done.
    - destruct (_sleepersEnd s1) as [e|]; cbn [is_null] in Hrun;
        [by rewrite bind_assert_false in Hrun|].
      rewrite bind_assert_true, !bind_modify in Hrun.
      do 2 eexists. split; [|split; [|exact Hrun]]; done. }
  destruct Hhead as (s2 & o & Hph2 & Hrr2 & Hrun2).
  apply tryWriteLock_timed_head_inv in Hrun2 as (Hh & Hw & Hr'); [|done].
  split; [right; congruence|]. split; congruence.
Qed.

Lemma write_resume_inv now now' k s st s' out :
  write_wait k = true → resume now now' k s = Ok st s' out →
  granted st = true →
  _phase s = HANDOFF ∧ _phase s' = WRITING ∧ _readersRun s' = _readersRun s.
Proof.
  intros Hk Hrun Hgr.
  destruct k as [wac|wac|wac d|wac d| |d]; try done;
    unfold resume, await, at_head, phase_is in Hrun;
    rewrite bind_gets in Hrun.
  - destruct (ptr_eqb wac (_sleepersStart s));
      [by apply writeLock_head_inv in Hrun|].
    injection Hrun as <- _ _. done.
  - destruct (Z.eqb_spec (_phase s) 2) as [H2|H2].
    + by apply writeLock_granted_inv in Hrun as (_&_&?&?&_).
    + injection Hrun as <- _ _. done.
  - destruct (ptr_eqb wac (_sleepersStart s));
      [by apply tryWriteLock_timed_head_inv in Hrun|].
    destruct (d <=? now).
    + apply tryWriteLock_timed_giveup_inv in Hrun as ->. done.
    + injection Hrun as <- _ _. done.
  - destruct (Z.eqb_spec (_phase s) 2) as [H2|H2].
    + by apply tryWriteLock_timed_granted_inv in Hrun as (_&_&?&?&_).
    + destruct (d <=? now).
      * apply tryWriteLock_timed_repair_inv in Hrun as ->. done.
      * injection Hrun as <- _ _. done.
Qed.

(** X4.  A writer is let in only at two moments: on arrival at a lock in
    phase READING with no reader running, or, arriving or waking, in
    phase HANDOFF; a writer that wakes from a wait is let in in phase
    HANDOFF only.  The lock is left in phase WRITING with [_readersRun] as
    it was.  This holds on every lock, well formed or not. *)
Theorem writer_let_in_only_when_free (s s' : PhaseFairRWLock)
    (timeout now now' : Z) (k : waitpoint) (st : status)
    (out : list signal) :
  granted st = true →
  (writeLock s = Ok st s' out ∨ tryWriteLock s = Ok st s' out ∨
   tryWriteLock_timed timeout now now' s = Ok st s' out →
   ((_phase s = READING ∧ _readersRun s = 0) ∨ _phase s = HANDOFF) ∧
   _phase s' = WRITING ∧ _readersRun s' = _readersRun s) ∧
  (write_wait k = true → resume now now' k s = Ok st s' out →
   _phase s = HANDOFF ∧ _phase s' = WRITING ∧
   _readersRun s' = _readersRun s).
Proof.
  intros Hgr. split.
  - intros [Hrun|[Hrun|Hrun]].
    + by apply writeLock_inv in Hrun.
    + unfold tryWriteLock in Hrun. rewrite bind_gets in Hrun.
      destruct (_sleepersStart s); cbn [is_null negb] in Hrun;
        [by injection Hrun as <- _ _|].
      rewrite !bind_gets in Hrun.
      destruct ((_phase s =? 0) && (_readersRun s =? 0)) eqn:Hfast;
        [|by injection Hrun as <- _ _].
      apply andb_true_iff in Hfast as [H0%Z.eqb_eq Hr%Z.eqb_eq].
      rewrite bind_modify in Hrun. injection Hrun as <- <- <-.
      split; [by left|done].
    + by apply tryWriteLock_timed_inv in Hrun.
  - intros Hk Hrun. by eapply write_resume_inv.
Qed.

Lemma writer_let_in_only_when_free_witness :
  ((_phase PhaseFairRWLock_new = READING ∧
    _readersRun PhaseFairRWLock_new = 0) ∨
   _phase PhaseFairRWLock_new = HANDOFF) ∧
  _phase (set_phase WRITING PhaseFairRWLock_new) = WRITING ∧
  _readersRun (set_phase WRITING PhaseFairRWLock_new)
  = _readersRun PhaseFairRWLock_new.
Proof.
  destruct (writer_let_in_only_when_free PhaseFairRWLock_new
              (set_phase WRITING PhaseFairRWLock_new) 0 0 0 RL_wait
              (Returned Void) []) as [Hentry _].
  - reflexivity.
  - apply Hentry. left. reflexivity.
Defined.

(** X5.  Every critical section of a reader ([readLock], [tryReadLock],
    [tryReadLock(timeout)], and the wake-up of a sleeping reader) returns
    on every lock, notifies nobody and writes nothing but [_readersRun]
    and [_readersWait]: never the phase, the queue, the free list or a
    clock.  The reader is let in only in phase READING, and [_readersRun]
    is incremented exactly when it is let in. *)
Theorem reader_let_in_only_when_READING (s : PhaseFairRWLock)
    (timeout now now' : Z) (k : waitpoint) :
  read_outcome s (readLock s) ∧
  read_outcome s (tryReadLock s) ∧
  read_outcome s (tryReadLock_timed timeout now s) ∧
  (read_wait k = true → read_outcome s (resume now now' k s)).
Proof.
  assert (Hgo : ∀ st s',
    _phase s' = _phase s → _sleepersStart s' = _sleepersStart s →
    _sleepersEnd s' = _sleepersEnd s → _freeList s' = _freeList s →
    clocks s' = clocks s →
    (granted st = true →
     _phase s = READING ∧ _readersRun s' = wrap32 (_readersRun s + 1)) →
    (granted st = false → _readersRun s' = _readersRun s) →
    read_outcome s (Ok st s' [])).
  { intros st s' ???????. exists st, s'. do 6 (split; [done|]). by split. }
  split; [|split; [|split]].
  - unfold readLock, await, readLock_granted. crunch.
    destruct (Z.eqb_spec (_phase s) 0) as [H0|H0]; simpl.
    + by apply Hgo.
    + destruct (Z.eqb_spec (_phase s) 0) as [?|_]; [done|].
      by apply Hgo.
  - unfold tryReadLock. crunch.
    destruct (Z.eqb_spec (_phase s) 0) as [H0|H0]; simpl; by apply Hgo.
  - unfold tryReadLock_timed, await, tryReadLock_timed_woken. crunch.
    destruct (Z.eqb_spec (_phase s) 0) as [H0|H0]; simpl.
    + by apply Hgo.
    + destruct (Z.eqb_spec (_phase s) 0) as [?|_]; [done|].
      by apply Hgo.
  - intros Hk. destruct k as [wac|wac|wac d|wac d| |d]; try done;
      unfold resume, await, readLock_granted, tryReadLock_timed_woken; crunch;
      destruct (Z.eqb_spec (_phase s) 0) as [H0|H0]; simpl;
      try (by apply Hgo).
    destruct (d <=? now); simpl; by apply Hgo.
Qed.

Lemma reader_let_in_only_when_READING_witness :
  read_outcome (set_phase WRITING PhaseFairRWLock_new)
    (resume 5 5 (TRL_wait 3) (set_phase WRITING PhaseFairRWLock_new)).
Proof.
  apply (reader_let_in_only_when_READING
           (set_phase WRITING PhaseFairRWLock_new) 0 5 5 (TRL_wait 3)).
  reflexivity.
Defined.

(** ** The timed writer without a timeout *)

Lemma bind_timed {A} d (m : M A) (k k' : A → M status) s :
  (∀ a s1 o, m s = Ok a s1 o → k' a s1 = timed_of d (k a s1)) →
  (m ≫= k') s = timed_of d ((m ≫= k) s).
Proof.
  intros Hk. unfold mbind, M_bind, bind.
  destruct (m s) as [a s1 o|]; [|done].
  rewrite (Hk a s1 o eq_refl).
  by destruct (k a s1) as [[[|b]|[]] s2 o2|].
Qed.

Lemma granted_timed d wac s :
  ptr_eqb wac (_sleepersStart s) = true →
  tryWriteLock_timed_granted wac s = timed_of d (writeLock_granted wac s).
Proof.
  intros Hs. unfold tryWriteLock_timed_granted, writeLock_granted.
  rewrite !bind_modify, bind_gets. simpl. rewrite Hs, bind_assert_true.
  apply bind_timed. intros [] s1 o1 _.
  apply bind_timed. by intros [] s2 o2 _.
Qed.

Lemma head_timed now d wac s :
  now ≤ d →
  tryWriteLock_timed_head now wac d s = timed_of d (writeLock_head wac s).
Proof.
  intros Hd. unfold tryWriteLock_timed_head, writeLock_head.
  rewrite !bind_gets.
  destruct (ptr_eqb wac (_sleepersStart s)) eqn:Hs; [|done].
  rewrite !bind_assert_true.
  destruct (Z.ltb_spec d now); [lia|]. rewrite !bind_gets.
  unfold await, phase_is.
  destruct (_phase s =? 0).
  - simpl. rewrite !bind_modify, !bind_gets. simpl. done.
  - rewrite !bind_when_false, !bind_gets.
    destruct (_phase s =? 2); [|done]. by apply granted_timed.
Qed.

Lemma entry_timed (s : PhaseFairRWLock) (q : list positive)
    (timeout now now' : Z) :
  queue_is s q → now' ≤ now + timeout →
  tryWriteLock_timed timeout now now' s
  = timed_of (now + timeout) (writeLock s).
Proof.
  intros [Hc He] Hd. unfold tryWriteLock_timed, writeLock. rewrite !bind_gets.
  destruct ((_phase s =? 0) && (_readersRun s =? 0)); [done|].
  apply bind_timed. intros w s1 o1 Hget. cbn zeta.
  apply getAlarmClock_frame in Hget as (_ & _ & Hs1 & He1).
  rewrite !bind_gets, Hs1.
  apply chain_head in Hc. rewrite Hc.
  destruct q as [|b q] using rev_ind.
  - simpl. rewrite !bind_gets, He1, He. simpl.
    rewrite !bind_assert_true, !bind_modify. by apply head_timed.
  - rewrite last_snoc in He.
    assert (head (q ++ [b]) ≠ None) by by destruct q.
    destruct (head (q ++ [b])) as [h|]; [|done]. simpl.
    rewrite !bind_gets, He1, He. simpl.
    rewrite bind_assert_true.
    apply bind_timed. intros [] s2 o2 _.
    rewrite !bind_modify. unfold await, at_head. rewrite !bind_gets.
    match goal with |- context [ptr_eqb ?a ?b] => destruct (ptr_eqb a b) end;
      [|done].
    by apply head_timed.
Qed.

(** X6.  As long as its deadline has not been reached,
    [tryWriteLock(timeout)] is [writeLock]: on a lock with a well-formed
    writer queue the two calls leave the same lock, notify the same
    condition variables and sleep at corresponding waits, and where
    [writeLock] returns, [tryWriteLock(timeout)] returns [true]; the same
    holds each time their waits come back. *)
Theorem tryWriteLock_timed_is_writeLock_before_deadline
    (s : PhaseFairRWLock) (q : list positive) (wac : ptr)
    (timeout now now' d : Z) :
  queue_is s q →
  (now' ≤ now + timeout →
   tryWriteLock_timed timeout now now' s
   = timed_of (now + timeout) (writeLock s)) ∧
  (now < d → now' ≤ d →
   resume now now' (TWL_head wac d) s
   = timed_of d (resume now now' (WL_head wac) s)) ∧
  (now < d → _sleepersStart s = wac →
   resume now now' (TWL_handoff wac d) s
   = timed_of d (resume now now' (WL_handoff wac) s)).
Proof.
  intros Hq. split; [|split].
  - intros Hd. by eapply entry_timed.
  - intros Hd Hd'. unfold resume, await, at_head. rewrite !bind_gets.
    destruct (ptr_eqb wac (_sleepersStart s)); [by apply head_timed|].
    by destruct (Z.leb_spec d now); [lia|].
  - intros Hd Hs. unfold resume, await, phase_is. rewrite !bind_gets.
    destruct (_phase s =? 2).
    + apply granted_timed. subst wac. by apply bool_decide_eq_true.
    + by destruct (Z.leb_spec d now); [lia|].
Qed.

Lemma tryWriteLock_timed_is_writeLock_before_deadline_witness :
  tryWriteLock_timed 10 0 0 (set_readersRun 1 PhaseFairRWLock_new)
  = timed_of 10 (writeLock (set_readersRun 1 PhaseFairRWLock_new)).
Proof.
  destruct (tryWriteLock_timed_is_writeLock_before_deadline
              (set_readersRun 1 PhaseFairRWLock_new) [] None 10 0 0 10)
    as (Hentry & _).
  - split; [constructor|reflexivity].
  - apply Hentry. lia.
Defined.

(** ** A timed writer that comes and goes *)

(** X7.  A lone timed writer leaves no trace but its clock.  On a lock in
    phase READING with readers running and no writer queued,
    [tryWriteLock(timeout)] queues a clock, announces itself by phase
    READING_WRITERS_WAITING and sleeps; new readers are then refused.
    When the second wait of a writer whose clock is alone in the queue
    times out in phase READING_WRITERS_WAITING, the call returns [false],
    the phase is READING again, the queue is empty, the counters are
    untouched and the readers' condition variable is notified exactly
    when a reader waits; the clock is not put back on the free list. *)
Theorem lone_timed_writer_times_out (s : PhaseFairRWLock)
    (f : list positive) (wac : positive) (timeout now now' d t t' : Z) :
  freeList_is s f →
  (queue_is s [] → _phase s = READING → _readersRun s ≠ 0 →
   now' ≤ now + timeout →
   ∃ a s1,
     tryWriteLock_timed timeout now now' s
     = Ok (Waiting (TWL_handoff (Some a) (now + timeout))) s1 [] ∧
     obtained s f a ∧
     _phase s1 = READING_WRITERS_WAITING ∧
     queue_is s1 [a] ∧ freeList_is s1 (tail f) ∧
     _readersRun s1 = _readersRun s ∧ _readersWait s1 = _readersWait s ∧
     tryReadLock s1 = Ok (Returned (Bool false)) s1 []) ∧
  (queue_is s [wac] → (wac ∉ f) → _phase s = READING_WRITERS_WAITING →
   d ≤ t →
   ∃ s2,
     resume t t' (TWL_handoff (Some wac) d) s
     = Ok (Returned (Bool false)) s2
          (if 0 <? _readersWait s then [NotifyAllReaders] else []) ∧
     _phase s2 = READING ∧ queue_is s2 [] ∧ freeList_is s2 f ∧
     _readersRun s2 = _readersRun s ∧ _readersWait s2 = _readersWait s ∧
     is_Some (clocks s2 !! wac)).
Proof.
  intros Hf. split.
  - intros Hq Hph Hrr Hd.
    assert (Hdisj : @nil positive ## f)
      by (intros x Hx; by apply elem_of_nil in Hx).
    rewrite (entry_timed s [] timeout now now' Hq Hd).
    destruct (writeLock_enqueue s [] f Hq Hf Hdisj)
      as (a & Hobt & Hwq & Hwf & Hrun); [by intros [_ ?]|].
    destruct (enqueued_spec s [] f a Hq Hf Hdisj Hwq Hwf)
      as (Hq' & Hf' & Hrr' & Hrw' & Hph').
    rewrite Hrun, writeLock_head_eq by by apply queue_is_head in Hq'.
    rewrite Hph', Hph. simpl.
    exists a. eexists. split; [reflexivity|].
    destruct Hq' as [Hc' He']. unfold freeList_is in Hf'.
    do 2 (split; [done|]). split; [by split|].
    do 3 (split; [done|]). unfold tryReadLock. crunch. done.
  - intros Hq Hwf Hph Hd.
    assert (Hdisj : [wac] ## f).
    { intros x Hx Hx'. by apply list_elem_of_singleton in Hx as ->. }
    destruct (removeFromQueue_unlinks s [wac] f wac Hq Hf Hdisj)
      as (s1 & Hrm & Hq1 & Hf1 & Hrr1 & Hrw1 & Hfl1 & Hph1).
    rewrite without_head in Hq1 by apply NoDup_singleton.
    pose proof (queue_is_head _ _ Hq1) as Hs1. simpl in Hs1.
    exists (set_phase 0 s1). split.
    + unfold resume, await, phase_is. rewrite bind_gets, Hph.
      change (READING_WRITERS_WAITING =? 2) with false. cbn iota.
      destruct (Z.leb_spec d t); [|lia].
      unfold tryWriteLock_timed_repair.
      rewrite (bind_Ok _ _ _ _ _ _ Hrm), !bind_gets, Hph1, Hph, Hs1.
      change ((READING_WRITERS_WAITING =? 1) && is_null None) with true.
      crunch. simpl. rewrite Hrw1.
      by destruct (0 <? _readersWait s).
    + destruct Hq1 as [Hc1 He1]. unfold freeList_is in Hf1.
      split; [done|]. split; [by split|]. do 3 (split; [done|]).
      simpl. apply removeFromQueue_frame in Hrm as (_ & _ & Hdom).
      apply elem_of_dom. rewrite Hdom. apply elem_of_dom.
      eapply chain_allocated; [apply Hq|]. by left.
Qed.

Lemma lone_timed_writer_times_out_witness :
  ∃ s2,
    resume 11 11 (TWL_handoff (Some 1%positive) 10)
      (mkLock 1 1 (Some 1%positive) (Some 1%positive) None 1
         {[ 1%positive := None ]})
    = Ok (Returned (Bool false)) s2 [NotifyAllReaders] ∧
    _phase s2 = READING ∧ queue_is s2 [] ∧ freeList_is s2 [].
Proof.
  destruct (lone_timed_writer_times_out
              (mkLock 1 1 (Some 1%positive) (Some 1%positive) None 1
                 {[ 1%positive := None ]})
              [] 1%positive 0 0 0 10 11 11) as (_ & Hout).
  - constructor.
  - destruct Hout as (s2 & Hrun & Hph & Hq & Hf & _).
    + split; [|reflexivity]. simpl.
      eapply chain_cons; [reflexivity|constructor].
    + intros Hin. by apply elem_of_nil in Hin.
    + reflexivity.
    + lia.
    + exists s2. split; [exact Hrun|]. split; [exact Hph|].
      split; [exact Hq|exact Hf].
Defined.

(** A writer that arrives by [tryWriteLock(timeout)] at a busy lock
    without a queued writer becomes the head of the queue at once. *)
Lemma tryWriteLock_timed_sole (s : PhaseFairRWLock) (f : list positive)
    (timeout now now' : Z) :
  queue_is s [] → freeList_is s f →
  ¬ (_phase s = READING ∧ _readersRun s = 0) →
  ∃ wac,
    obtained s f wac ∧ (wac ∉ tail f) ∧
    tryWriteLock_timed timeout now now' s =
      tryWriteLock_timed_head now' (Some wac) (now + timeout)
        (enqueued wac [] f s).
Proof.
  intros Hq Hf Hslow.
  assert (Hdisj : @nil positive ## f)
    by (intros x Hx; by apply elem_of_nil in Hx).
  destruct (getAlarmClock_spec s [] f Hq Hf Hdisj)
    as (wac & Hget & Hobt & Hwq & Hwf).
  exists wac. split; [done|]. split; [done|].
  unfold tryWriteLock_timed. rewrite !bind_gets.
  assert ((_phase s =? 0) && (_readersRun s =? 0) = false) as ->.
  { apply andb_false_iff.
    destruct (Z.eqb_spec (_phase s) 0), (Z.eqb_spec (_readersRun s) 0);
      try (by left); try (by right).
    destruct Hslow. by split. }
  rewrite (bind_Ok _ _ _ _ _ _ Hget). cbn zeta. rewrite bind_gets.
  pose proof Hq as [Hc He]. simpl.
  pose proof (chain_head _ _ _ Hc) as Hs. simpl in *. rewrite Hs. simpl.
  rewrite bind_gets. simpl. rewrite He. simpl.
  rewrite bind_assert_true, !bind_modify. unfold enqueued. simpl.
  by destruct (tryWriteLock_timed_head _ _ _ _).
Qed.

(** X14.  [tryWriteLock(timeout)] on a busy lock without a queued writer
    reads the clock twice in one critical section, and the second reading
    alone decides whether it sleeps.  If that reading is past the deadline
    (as with a timeout of zero on a clock that has moved on) the call
    returns [false] at once: phase, counters and the empty queue are as
    before, but the clock it took is not put back on the free list.  If
    not, and the phase is not HANDOFF, the call queues its clock, turns
    phase READING into READING_WRITERS_WAITING and sleeps in its second
    wait. *)
Theorem tryWriteLock_timed_second_reading_decides (s : PhaseFairRWLock)
    (f : list positive) (timeout now now' : Z) :
  queue_is s [] → freeList_is s f →
  ¬ (_phase s = READING ∧ _readersRun s = 0) →
  (now + timeout < now' →
   ∃ a s',
     tryWriteLock_timed timeout now now' s = Ok (Returned (Bool false)) s' [] ∧
     obtained s f a ∧ (a ∉ tail f) ∧
     queue_is s' [] ∧ freeList_is s' (tail f) ∧
     _phase s' = _phase s ∧
     _readersRun s' = _readersRun s ∧ _readersWait s' = _readersWait s) ∧
  (now' ≤ now + timeout → _phase s ≠ HANDOFF →
   ∃ a s',
     tryWriteLock_timed timeout now now' s
     = Ok (Waiting (TWL_handoff (Some a) (now + timeout))) s' [] ∧
     obtained s f a ∧
     queue_is s' [a] ∧ freeList_is s' (tail f) ∧
     _phase s' = (if decide (_phase s = READING)
                  then READING_WRITERS_WAITING else _phase s) ∧
     _readersRun s' = _readersRun s ∧ _readersWait s' = _readersWait s).
Proof.
  intros Hq Hf Hslow.
  assert (Hdisj : @nil positive ## f)
    by (intros x Hx; by apply elem_of_nil in Hx).
  destruct (tryWriteLock_timed_sole s f timeout now now' Hq Hf Hslow)
    as (a & Hobt & Hwf & Hrun).
  assert (Hwq : a ∉ @nil positive) by (by intros ?%elem_of_nil).
  destruct (enqueued_spec s [] f a Hq Hf Hdisj Hwq Hwf)
    as (Hq' & Hf' & Hrr' & Hrw' & Hph').
  simpl in Hq'.
  pose proof (queue_is_head _ _ Hq') as Hs'. simpl in Hs'.
  split.
  - intros Hd.
    assert (Hdisj' : [a] ## tail f).
    { intros x Hx Hx'. by apply list_elem_of_singleton in Hx as ->. }
    destruct (tryWriteLock_timed_timeout_exits _ _ _ a now' (now + timeout)
                Hq' Hf' Hdisj') as (_ & Hexit & _).
    destruct (Hexit Hs' Hd)
      as (s' & Hrun' & Hq2 & Hf2 & Hrr2 & Hrw2 & _ & Hph2).
    rewrite without_head in Hq2 by apply NoDup_singleton.
    exists a, s'. rewrite Hrun, Hrun'.
    do 5 (split; [done|]). split; [congruence|]. split; congruence.
  - intros Hd Hph.
    rewrite Hrun, head_timed, writeLock_head_eq by done.
    rewrite Hph'. rewrite decide_False by done. simpl.
    exists a. eexists. split; [reflexivity|]. split; [done|].
    destruct (decide (_phase s = READING)).
    + destruct Hq' as [Hc' He']. unfold freeList_is in Hf'.
      split; [by split|]. by do 3 (split; [done|]).
    + by do 4 (split; [done|]).
Qed.

Lemma tryWriteLock_timed_second_reading_decides_witness :
  tryWriteLock_timed 0 5 6 (mkLock 1 0 None None None 0 ∅)
  = Ok (Returned (Bool false))
      (mkLock 1 0 None None None 0 {[ 1%positive := None ]}) []
  ∧ step (CallLate 2 (CtryWriteLock_timed 0) 1)
      (mkWorld (mkLock 1 0 None None None 0 ∅) 5 ∅ [(1%nat, Void)])
    = Runs (mkWorld (mkLock 1 0 None None None 0 {[ 1%positive := None ]})
              6 ∅ [(2%nat, Bool false); (1%nat, Void)])
  ∧ ∃ a s',
      tryWriteLock_timed 0 5 5 (mkLock 1 0 None None None 0 ∅)
      = Ok (Waiting (TWL_handoff (Some a) 5)) s' [] ∧
      _phase s' = READING_WRITERS_WAITING.
Proof.
  assert (Hq : queue_is (mkLock 1 0 None None None 0 ∅) [])
    by (split; [constructor|reflexivity]).
  assert (Hf : freeList_is (mkLock 1 0 None None None 0 ∅) [])
    by constructor.
  assert (Hslow : ¬ (_phase (mkLock 1 0 None None None 0 ∅) = READING ∧
                     _readersRun (mkLock 1 0 None None None 0 ∅) = 0))
    by (intros [_ Hrr]; simpl in Hrr; discriminate).
  destruct (tryWriteLock_timed_second_reading_decides _ [] 0 5 6 Hq Hf Hslow)
    as (Hlate & _).
  destruct (tryWriteLock_timed_second_reading_decides _ [] 0 5 5 Hq Hf Hslow)
    as (_ & Hsame).
  destruct (Hlate ltac:(lia)) as (a & s' & Hrun & _).
  assert (Hrun' : tryWriteLock_timed 0 5 6 (mkLock 1 0 None None None 0 ∅)
                  = Ok (Returned (Bool false))
                      (mkLock 1 0 None None None 0 {[ 1%positive := None ]})
                      []).
  { rewrite Hrun. vm_compute in Hrun. by injection Hrun as <-. }
  split; [exact Hrun'|]. split.
  - by vm_compute.
  - destruct (Hsame ltac:(lia) ltac:(simpl; discriminate))
      as (a' & s'' & Hrun'' & _ & _ & _ & Hph & _).
    exists a', s''. split; [exact Hrun''|]. rewrite Hph. reflexivity.
Defined.

(** ** Taking the lock and giving it back *)

Lemma set_phase_back (s : PhaseFairRWLock) (v : Z) :
  set_phase (_phase s) (set_phase v s) = s.
Proof. by destruct s. Qed.

(** X8.  Taking a free lock and releasing it restores the lock exactly.
    On a lock in phase READING with no reader running and no writer
    queued, [writeLock], [tryWriteLock] and [tryWriteLock(timeout)] all
    leave the same lock, from which [unlockWrite] and [unlock] both lead
    back to the lock as it was.  On a lock in phase READING whose reader
    count is an [int32_t], [readLock], [tryReadLock] and
    [tryReadLock(timeout)] all leave the same lock, from which
    [unlockRead] and [unlock] both lead back to the lock as it was,
    notifying nobody. *)
Theorem acquire_release_round_trip (s : PhaseFairRWLock)
    (timeout now now' : Z) :
  _phase s = READING →
  (_readersRun s = 0 → _sleepersStart s = None →
   ∃ s1 out,
     writeLock s = Ok (Returned Void) s1 [] ∧
     tryWriteLock s = Ok (Returned (Bool true)) s1 [] ∧
     tryWriteLock_timed timeout now now' s = Ok (Returned (Bool true)) s1 [] ∧
     _phase s1 = WRITING ∧
     unlockWrite s1 = Ok (Returned Void) s out ∧
     unlock s1 = Ok (Returned Void) s out) ∧
  (INT32_MIN ≤ _readersRun s ≤ INT32_MAX →
   ∃ s1,
     readLock s = Ok (Returned Void) s1 [] ∧
     tryReadLock s = Ok (Returned (Bool true)) s1 [] ∧
     tryReadLock_timed timeout now s = Ok (Returned (Bool true)) s1 [] ∧
     unlockRead s1 = Ok (Returned Void) s [] ∧
     unlock s1 = Ok (Returned Void) s []).
Proof.
  intros Hph. split.
  - intros Hrr Hs.
    exists (set_phase WRITING s),
           (if 0 <? _readersWait s then [NotifyAllReaders] else []).
    split; [unfold writeLock; by exec|].
    split; [unfold tryWriteLock; by exec|].
    split; [unfold tryWriteLock_timed; by exec|].
    split; [done|].
    pose proof (set_phase_back s WRITING) as Hback. rewrite Hph in Hback.
    unfold READING in Hback.
    split.
    + unfold unlockWrite, unlockWriteWithMutex. crunch. simpl.
      destruct (0 <? _readersWait s); simpl; [by rewrite Hback|].
      rewrite Hs. simpl. by rewrite Hback.
    + unfold unlock, unlockWriteWithMutex. crunch. simpl.
      destruct (0 <? _readersWait s); simpl; [by rewrite Hback|].
      rewrite Hs. simpl. by rewrite Hback.
  - intros Hrange.
    assert (Hback : decr_readersRun (incr_readersRun s) = s).
    { unfold decr_readersRun, incr_readersRun, set_readersRun. simpl.
      rewrite wrap32_succ_pred by done. by destruct s. }
    exists (incr_readersRun s).
    split; [unfold readLock; crunch; by rewrite Hph|].
    split; [unfold tryReadLock; crunch; by rewrite Hph|].
    split; [unfold tryReadLock_timed; crunch; by rewrite Hph|].
    assert (Hrel : unlockReadWithMutex (incr_readersRun s) = Ok () s []).
    { unfold unlockReadWithMutex, mbind, M_bind, bind, gets, modify, ret.
      cbn beta. rewrite Hback.
      destruct (_readersRun s =? 0); [|reflexivity].
      cbn beta iota. by rewrite Hph. }
    split.
    + unfold unlockRead. by rewrite (bind_Ok _ _ _ _ _ _ Hrel).
    + unfold unlock. rewrite bind_gets.
      replace (_phase (incr_readersRun s)) with READING by done.
      change (READING =? 3) with false. cbn iota.
      by rewrite (bind_Ok _ _ _ _ _ _ Hrel).
Qed.

Lemma acquire_release_round_trip_witness :
  ∃ s1 out,
    writeLock PhaseFairRWLock_new = Ok (Returned Void) s1 [] ∧
    unlock s1 = Ok (Returned Void) PhaseFairRWLock_new out.
Proof.
  destruct (acquire_release_round_trip PhaseFairRWLock_new 0 0 0)
    as (Hwrite & _).
  - reflexivity.
  - destruct Hwrite as (s1 & out & Hw & _ & _ & _ & _ & Hu).
    + reflexivity.
    + reflexivity.
    + exists s1, out. split; [exact Hw|exact Hu].
Defined.

(** ** Handing the lock to the next writer *)

(** A writer that arrives by [tryWriteLock(timeout)] at a lock with a
    queued writer joins the queue and sleeps, whatever the clock reads. *)
Lemma tryWriteLock_timed_enqueue (s : PhaseFairRWLock) (h : positive)
    (q f : list positive) (timeout now now' : Z) :
  queue_is s (h :: q) → freeList_is s f → ((h :: q) ## f) →
  ¬ (_phase s = READING ∧ _readersRun s = 0) →
  ∃ wac,
    (wac ∉ h :: q) ∧ (wac ∉ tail f) ∧
    tryWriteLock_timed timeout now now' s =
      Ok (Waiting (TWL_head (Some wac) (now + timeout)))
         (enqueued wac (h :: q) f s) [].
Proof.
  intros Hq Hf Hdisj Hslow.
  destruct (getAlarmClock_spec s _ f Hq Hf Hdisj)
    as (wac & Hget & Hobt & Hwq & Hwf).
  exists wac. split; [done|]. split; [done|].
  unfold tryWriteLock_timed. rewrite !bind_gets.
  assert ((_phase s =? 0) && (_readersRun s =? 0) = false) as ->.
  { apply andb_false_iff.
    destruct (Z.eqb_spec (_phase s) 0), (Z.eqb_spec (_readersRun s) 0);
      try (by left); try (by right).
    destruct Hslow. by split. }
  rewrite (bind_Ok _ _ _ _ _ _ Hget). cbn zeta. rewrite bind_gets.
  pose proof Hq as [Hc He]. simpl.
  pose proof (chain_head _ _ _ Hc) as Hs. simpl in Hs. rewrite Hs. simpl.
  unfold enqueued.
  assert (∃ b, last (h :: q) = Some b ∧ b ∈ h :: q) as (b & Hlast & Hbin).
  { destruct (last (h :: q)) as [b|] eqn:Hl.
    - exists b. split; [done|]. apply last_Some in Hl as [l' ->].
      apply elem_of_app. right. by left.
    - by apply last_None in Hl. }
  rewrite Hlast in *.
  rewrite bind_gets. simpl. rewrite He.
  assert (Hb : is_Some (clocks s !! b)) by by eapply chain_allocated.
  destruct Hb as [nb Hb].
  assert (wac ≠ b) by (intros ->; by apply Hwq).
  unfold store_next, await, at_head. crunch. simpl.
  rewrite lookup_insert_ne, Hb by done. simpl.
  rewrite Hs.
  assert (ptr_eqb (Some wac) (Some h) = false) as ->.
  { apply bool_decide_eq_false. intros [= ->]. apply Hwq. by left. }
  done.
Qed.

(** X9.  A handoff lets in the writer at the head of the queue and nobody
    else.  On a lock whose writer queue is [h :: q]: [unlockWrite] with no
    reader waiting, and [unlockRead] by the last reader in phase
    READING_WRITERS_WAITING, write the phase HANDOFF (and the reader count
    0) and nothing else, and notify the clock [h] only.  In phase HANDOFF
    every other thread is kept out, whatever the clock reads:
    [tryReadLock] and [tryWriteLock] fail and change nothing; [readLock],
    [tryReadLock(timeout)], [writeLock] and [tryWriteLock(timeout)] go to
    sleep; a reader that wakes, and a writer that wakes in the first wait
    of [writeLock] or of [tryWriteLock(timeout)] on a clock other than
    [h], go back to sleep or time out.  The writer on [h] takes the lock
    when it wakes (phase WRITING, queue [q], its clock at the front of the
    free list) from either wait of [writeLock], from the second wait of
    [tryWriteLock(timeout)] even after its deadline, and from the first
    wait of [tryWriteLock(timeout)] if the clock it then reads has not
    passed its deadline.  If that clock has passed the deadline the writer
    on [h] returns [false] instead and leaves the phase HANDOFF with the
    queue [q]: the lock has been handed to nobody. *)
Theorem handoff_lets_in_the_head_only (s : PhaseFairRWLock) (h : positive)
    (q f : list positive) (timeout t t' d : Z) :
  queue_is s (h :: q) → freeList_is s f → ((h :: q) ## f) →
  (_phase s = WRITING → _readersWait s ≤ 0 →
   unlockWrite s =
     Ok (Returned Void)
        (mkLock (_readersRun s) (_readersWait s) (_sleepersStart s)
           (_sleepersEnd s) (_freeList s) HANDOFF (clocks s))
        [NotifyClock h]) ∧
  (_phase s = READING_WRITERS_WAITING → _readersRun s = 1 →
   unlockRead s =
     Ok (Returned Void)
        (mkLock 0 (_readersWait s) (_sleepersStart s) (_sleepersEnd s)
           (_freeList s) HANDOFF (clocks s))
        [NotifyClock h]) ∧
  (_phase s = HANDOFF →
   (tryReadLock s = Ok (Returned (Bool false)) s [] ∧
    tryWriteLock s = Ok (Returned (Bool false)) s []) ∧
   (kept_out h (readLock s) ∧
    kept_out h (tryReadLock_timed timeout t s) ∧
    kept_out h (writeLock s) ∧
    kept_out h (tryWriteLock_timed timeout t t' s)) ∧
   (kept_out h (resume t t' RL_wait s) ∧
    kept_out h (resume t t' (TRL_wait d) s)) ∧
   (∀ w, w ≠ h →
      resume t t' (WL_head (Some w)) s = Ok (Waiting (WL_head (Some w))) s [] ∧
      kept_out h (resume t t' (TWL_head (Some w) d) s)) ∧
   (∃ s2,
      _phase s2 = WRITING ∧ queue_is s2 q ∧ freeList_is s2 (h :: f) ∧
      _readersRun s2 = _readersRun s ∧ _readersWait s2 = _readersWait s ∧
      resume t t' (WL_head (Some h)) s = Ok (Returned Void) s2 [] ∧
      resume t t' (WL_handoff (Some h)) s = Ok (Returned Void) s2 [] ∧
      resume t t' (TWL_handoff (Some h) d) s
      = Ok (Returned (Bool true)) s2 [] ∧
      (t' ≤ d →
       resume t t' (TWL_head (Some h) d) s
       = Ok (Returned (Bool true)) s2 [])) ∧
   (d < t' →
    ∃ s3,
      resume t t' (TWL_head (Some h) d) s = Ok (Returned (Bool false)) s3 [] ∧
      _phase s3 = HANDOFF ∧ queue_is s3 q ∧ freeList_is s3 f ∧
      _readersRun s3 = _readersRun s ∧ _readersWait s3 = _readersWait s)).
Proof.
  intros Hq Hf Hdisj.
  destruct (queue_is_head_allocated _ _ _ Hq) as [Hs [n Hn]].
  pose proof (chain_NoDup _ _ _ (proj1 Hq)) as Hnd.
  split; [|split].
  - intros Hph Hrw.
    unfold unlockWrite, unlockWriteWithMutex, notify_clock. crunch.
    rewrite Hph. simpl.
    destruct (Z.ltb_spec 0 (_readersWait s)); [lia|].
    destruct (_sleepersStart s) as [h'|] eqn:Hs'; [|done].
    injection Hs as ->. simpl. rewrite Hn.
    unfold set_phase. by rewrite Hs'.
  - intros Hph Hrr.
    unfold unlockRead, unlockReadWithMutex, notify_clock. crunch. simpl.
    rewrite Hrr. simpl.
    destruct (Z.eqb_spec (_phase s) 1) as [_|?]; [|done]. simpl.
    destruct (_sleepersStart s) as [h'|] eqn:Hs'; [|done].
    injection Hs as ->. simpl. rewrite Hn.
    unfold set_phase, set_readersRun. simpl. by rewrite Hs'.
  - intros Hph.
    assert (Hslow : ¬ (_phase s = READING ∧ _readersRun s = 0)).
    { intros [H0 _]. by rewrite Hph in H0. }
    assert (Hp0 : (_phase s =? 0) = false) by by rewrite Hph.
    assert (Hp2 : (_phase s =? 2) = true) by by rewrite Hph.
    assert (Hhead : ptr_eqb (Some h) (_sleepersStart s) = true).
    { unfold ptr_eqb. by rewrite bool_decide_eq_true_2. }
    assert (Hbehind : ∀ w, w ≠ h →
              ptr_eqb (Some w) (_sleepersStart s) = false).
    { intros w Hw. unfold ptr_eqb. rewrite bool_decide_eq_false_2; [done|].
      rewrite Hs. congruence. }
    destruct (writeLock_granted_spec s h q f Hq Hf Hdisj)
      as (s2 & Hrun & Hph2 & Hq2 & Hf2 & Hrr2 & Hrw2).
    assert (Hhd : writeLock_head (Some h) s = Ok (Returned Void) s2 []).
    { rewrite writeLock_head_eq by done. by rewrite decide_True. }
    split; [|split; [|split; [|split; [|split]]]].
    + split; [unfold tryReadLock; crunch; by rewrite Hp0|].
      unfold tryWriteLock; crunch; by rewrite Hs.
    + split; [|split; [|split]].
      * exists (Waiting RL_wait), (incr_readersWait s).
        split; [|done]. unfold readLock, await. crunch.
        rewrite Hp0. simpl. by rewrite Hp0.
      * exists (Waiting (TRL_wait (t + timeout))), (incr_readersWait s).
        split; [|done]. unfold tryReadLock_timed, await. crunch.
        rewrite Hp0. simpl. by rewrite Hp0.
      * destruct (writeLock_enqueue s _ f Hq Hf Hdisj Hslow)
          as (wac & _ & Hwq & Hwf & ->).
        destruct (enqueued_spec s _ f wac Hq Hf Hdisj Hwq Hwf)
          as (Hq' & _ & _ & _ & Hph').
        eexists _, _. split; [done|]. split; [done|].
        split; [congruence|]. by apply queue_is_head in Hq'.
      * destruct (tryWriteLock_timed_enqueue s h q f timeout t t'
                    Hq Hf Hdisj Hslow) as (wac & Hwq & Hwf & ->).
        destruct (enqueued_spec s _ f wac Hq Hf Hdisj Hwq Hwf)
          as (Hq' & _ & _ & _ & Hph').
        eexists _, _. split; [done|]. split; [done|].
        split; [congruence|]. by apply queue_is_head in Hq'.
    + split.
      * exists (Waiting RL_wait), s. split; [|done].
        unfold resume, await. crunch. by rewrite Hp0.
      * unfold resume, await, tryReadLock_timed_woken. crunch. rewrite Hp0.
        destruct (d <=? t).
        -- by exists (Returned (Bool false)), (decr_readersWait s).
        -- by exists (Waiting (TRL_wait d)), s.
    + intros w Hw. split.
      * unfold resume, await, at_head. by rewrite bind_gets, Hbehind.
      * unfold resume, await, at_head. rewrite bind_gets, Hbehind by done.
        destruct (d <=? t); [|by exists (Waiting (TWL_head (Some w) d)), s].
        destruct (tryWriteLock_timed_timeout_exits s _ f w t d Hq Hf Hdisj)
          as ((s' & -> & Hq' & _ & _ & _ & _ & Hph') & _).
        exists (Returned (Bool false)), s'. split; [done|]. split; [done|].
        split; [congruence|].
        apply queue_is_head in Hq'. rewrite Hq'. unfold without.
        by rewrite filter_cons_True by congruence.
    + exists s2. do 5 (split; [done|]).
      split; [|split; [|split]].
      * unfold resume, await, at_head. by rewrite bind_gets, Hhead.
      * unfold resume, await, phase_is. by rewrite bind_gets, Hp2.
      * unfold resume, await, phase_is. rewrite bind_gets, Hp2.
        rewrite (granted_timed d) by done. by rewrite Hrun.
      * intros Hd. unfold resume, await, at_head. rewrite bind_gets, Hhead.
        rewrite head_timed by done. by rewrite Hhd.
    + intros Hd. unfold resume, await, at_head. rewrite bind_gets, Hhead.
      destruct (tryWriteLock_timed_timeout_exits s _ f h t' d Hq Hf Hdisj)
        as (_ & Hexit & _).
      destruct (Hexit Hs Hd) as (s3 & -> & Hq3 & Hf3 & Hrr3 & Hrw3 & _ & Hph3).
      exists s3. split; [done|]. split; [congruence|].
      rewrite without_head in Hq3 by done. done.
Qed.

Lemma handoff_lets_in_the_head_only_witness :
  unlockWrite (mkLock 0 0 (Some 1%positive) (Some 2%positive) None 3
                 {[ 1%positive := Some 2%positive; 2%positive := None ]})
  = Ok (Returned Void)
      (mkLock 0 0 (Some 1%positive) (Some 2%positive) None 2
         {[ 1%positive := Some 2%positive; 2%positive := None ]})
      [NotifyClock 1%positive]
  ∧ kept_out 1
      (resume 30 30 (TWL_head (Some 2%positive) 20)
         (mkLock 0 0 (Some 1%positive) (Some 2%positive) None 2
            {[ 1%positive := Some 2%positive; 2%positive := None ]}))
  ∧ resume 30 30 (TWL_handoff (Some 1%positive) 20)
      (mkLock 0 0 (Some 1%positive) (Some 2%positive) None 2
         {[ 1%positive := Some 2%positive; 2%positive := None ]})
    = Ok (Returned (Bool true))
        (mkLock 0 0 (Some 2%positive) (Some 2%positive) (Some 1%positive) 3
           {[ 1%positive := None; 2%positive := None ]}) []
  ∧ ∃ s3,
      resume 30 30 (TWL_head (Some 1%positive) 20)
        (mkLock 0 0 (Some 1%positive) (Some 2%positive) None 2
           {[ 1%positive := Some 2%positive; 2%positive := None ]})
      = Ok (Returned (Bool false)) s3 [] ∧
      _phase s3 = HANDOFF ∧ queue_is s3 [2%positive].
Proof.
  assert (Hq : ∀ ph,
    queue_is (mkLock 0 0 (Some 1%positive) (Some 2%positive) None ph
                {[ 1%positive := Some 2%positive; 2%positive := None ]})
      [1%positive; 2%positive]).
  { intros ph. split; [|reflexivity]. simpl.
    eapply chain_cons; [reflexivity|].
    eapply chain_cons; [reflexivity|constructor]. }
  assert (Hf : ∀ ph,
    freeList_is (mkLock 0 0 (Some 1%positive) (Some 2%positive) None ph
                   {[ 1%positive := Some 2%positive; 2%positive := None ]})
      []) by (intros ph; constructor).
  assert (Hd : [1%positive; 2%positive] ## ([] : list positive))
    by (intros x _ Hx; by apply elem_of_nil in Hx).
  destruct (handoff_lets_in_the_head_only _ 1%positive [2%positive] [] 0
              30 30 20 (Hq 3) (Hf 3) Hd) as (Hrel & _).
  destruct (handoff_lets_in_the_head_only _ 1%positive [2%positive] [] 0
              30 30 20 (Hq 2) (Hf 2) Hd) as (_ & _ & Hin).
  destruct (Hin eq_refl)
    as (_ & _ & _ & Hothers & (s2 & _ & _ & _ & _ & _ & _ & _ & Hhead & _)
        & Hlate).
  split; [apply Hrel; [reflexivity|simpl; lia]|].
  split; [apply (Hothers 2%positive); discriminate|].
  split.
  - rewrite Hhead. vm_compute in Hhead. by injection Hhead as <-.
  - destruct (Hlate ltac:(lia)) as (s3 & Hrun & Hph & Hq3 & _).
    by exists s3.
Defined.

(** ** Releasing a lock that is not held *)

(** X10.  [unlockWrite] checks that a writer holds the lock and aborts on
    its assertion in every other phase; [unlockRead] and [unlock] check
    nothing and never abort on an assertion.  On a free lock (phase
    READING, no reader, no writer queued) they return with [_readersRun]
    at -1: after that [tryWriteLock] fails although nobody holds the lock,
    and the next reader that is let in brings the lock back to the state
    of the free lock while it holds it. *)
Theorem release_without_holding (s : PhaseFairRWLock) :
  (_phase s ≠ WRITING → unlockWrite s = Fail AssertionFailed) ∧
  unlockRead s ≠ Fail AssertionFailed ∧
  unlock s ≠ Fail AssertionFailed ∧
  (_phase s = READING → _readersRun s = 0 → _sleepersStart s = None →
   unlockRead s = Ok (Returned Void) (set_readersRun (-1) s) [] ∧
   unlock s = Ok (Returned Void) (set_readersRun (-1) s) [] ∧
   tryWriteLock (set_readersRun (-1) s)
   = Ok (Returned (Bool false)) (set_readersRun (-1) s) [] ∧
   tryReadLock (set_readersRun (-1) s) = Ok (Returned (Bool true)) s []).
Proof.
  assert (Hread : ∀ s0, unlockReadWithMutex s0 ≠ Fail AssertionFailed).
  { intros s0. unfold unlockReadWithMutex, notify_clock. crunch.
    destruct (_readersRun (set_readersRun _ s0) =? 0); [|done].
    cbn beta iota.
    destruct (_phase (set_readersRun _ s0) =? 1); [|done].
    cbn beta iota. simpl.
    destruct (_sleepersStart s0) as [a|]; [|done].
    cbn beta iota. simpl. by destruct (clocks s0 !! a). }
  assert (Hdone : ∀ (m : M unit) (st : status) s0,
            m s0 ≠ Fail AssertionFailed →
            (m ≫= λ _, ret st) s0 ≠ Fail AssertionFailed).
  { intros m st s0. unfold mbind, M_bind, bind, ret.
    destruct (m s0); [by intros _ [=]|].
    intros Hne [= ->]. by apply Hne. }
  split; [|split; [|split]].
  - intros Hph. unfold unlockWrite, unlockWriteWithMutex. crunch.
    destruct (Z.eqb_spec (_phase s) 3) as [H3|H3]; [by destruct Hph|done].
  - apply Hdone, Hread.
  - unfold unlock. rewrite bind_gets.
    destruct (Z.eqb_spec (_phase s) 3) as [H3|H3].
    + apply Hdone.
      unfold unlockWriteWithMutex, notify_clock. crunch. rewrite H3. simpl.
      destruct (0 <? _readersWait s); [done|].
      destruct (_sleepersStart s) as [a|]; simpl; [|done].
      by destruct (clocks s !! a).
    + apply Hdone, Hread.
  - intros Hph Hrr Hs.
    assert (Hrel : unlockReadWithMutex s = Ok () (set_readersRun (-1) s) []).
    { unfold unlockReadWithMutex. crunch. simpl. by rewrite Hrr. }
    split; [unfold unlockRead; by rewrite (bind_Ok _ _ _ _ _ _ Hrel)|].
    split.
    { unfold unlock. rewrite bind_gets, Hph.
      change (READING =? 3) with false. cbn iota.
      by rewrite (bind_Ok _ _ _ _ _ _ Hrel). }
    split.
    + unfold tryWriteLock. by exec.
    + unfold tryReadLock. crunch. simpl. rewrite Hph. simpl.
      destruct s; simpl in *. by subst.
Qed.

Lemma release_without_holding_witness :
  unlockWrite PhaseFairRWLock_new = Fail AssertionFailed ∧
  unlock PhaseFairRWLock_new
  = Ok (Returned Void) (set_readersRun (-1) PhaseFairRWLock_new) [].
Proof.
  destruct (release_without_holding PhaseFairRWLock_new)
    as (Hw & _ & _ & Hfree).
  split.
  - apply Hw. simpl. discriminate.
  - apply Hfree; reflexivity.
Defined.

(** ** The benchmark: the lock under writers only *)

Lemma LockInv_phase_nonempty l q f :
  LockInv l q f → q ≠ [] → _phase l ≠ READING.
Proof.
  intros [_ _ _ _ _ Hph] Hq. unfold READING, HANDOFF, WRITING in *.
  destruct Hph as [[? ?]|[[? ?]|?]]; [done|lia..].
Qed.

(** [writeLock] on the lock of the benchmark in phase READING. *)
Lemma bench_writeLock_fast l q f :
  LockInv l q f → _phase l = READING →
  writeLock l = Ok (Returned Void) (set_phase WRITING l) [] ∧
  q = [] ∧ LockInv (set_phase WRITING l) q f.
Proof.
  intros [Hrr Hrw Hq Hf Hd Hph] H0. split; [unfold writeLock; by exec|].
  assert (q = []) as ->.
  { unfold READING, HANDOFF, WRITING in *.
    destruct Hph as [[? ?]|[[? ?]|?]]; [done|lia..]. }
  split; [done|]. split; try done. by right; right.
Qed.

(** [writeLock] in the other phases: the caller queues a clock. *)
Lemma bench_writeLock_slow l q f :
  LockInv l q f → _phase l ≠ READING →
  ∃ a l',
    writeLock l
    = Ok (Waiting (if q is [] then WL_handoff (Some a) else WL_head (Some a)))
         l' [] ∧
    (a ∉ q) ∧ _phase l' = _phase l ∧ LockInv l' (q ++ [a]) (tail f).
Proof.
  intros [Hrr Hrw Hq Hf Hd Hph] H0.
  destruct (writeLock_enqueue l q f Hq Hf Hd) as (a & Hobt & Haq & Haf & Hrun);
    [by intros [? _]|].
  destruct (enqueued_spec l q f a Hq Hf Hd Haq Haf)
    as (Hq' & Hf' & Hrr' & Hrw' & Hph').
  assert (Hinv : LockInv (enqueued a q f l) (q ++ [a]) (tail f)).
  { split; try congruence; try done.
    - intros x [Hx|Hx]%elem_of_app Hx'.
      + apply (Hd x); [done|]. destruct f; [done|]. by right.
      + apply list_elem_of_singleton in Hx as ->. done.
    - rewrite Hph'. unfold READING, HANDOFF, WRITING in *.
      destruct Hph as [[? ?]|[[? ?]|?]]; [done| |by right; right].
      right; left. split; [done|]. by destruct q. }
  exists a, (enqueued a q f l). split; [|done].
  rewrite Hrun. destruct q as [|b q]; [|done].
  rewrite writeLock_head_eq by by apply queue_is_head in Hq'.
  assert (_phase l = WRITING) as Hw.
  { unfold READING, HANDOFF, WRITING in *.
    destruct Hph as [[? ?]|[[? ?]|?]]; done. }
  rewrite Hph', Hw. done.
Qed.

(** The head of the queue takes the lock in phase HANDOFF. *)
Lemma bench_granted l a q f :
  LockInv l (a :: q) f → _phase l = HANDOFF →
  ∃ l',
    writeLock_granted (Some a) l = Ok (Returned Void) l' [] ∧
    _phase l' = WRITING ∧ LockInv l' q (a :: f).
Proof.
  intros [Hrr Hrw Hq Hf Hd Hph] H2.
  destruct (writeLock_granted_spec l a q f Hq Hf Hd)
    as (l' & Hrun & Hw & Hq' & Hf' & Hrr' & Hrw').
  exists l'. split; [done|]. split; [done|].
  pose proof (chain_NoDup _ _ _ (proj1 Hq)) as Hnd.
  apply NoDup_cons in Hnd as [Haq _].
  split; try congruence; try done; [|by right; right].
  intros x Hx [->|Hx']%elem_of_cons; [done|].
  apply (Hd x); [by right|done].
Qed.

(** A writer asleep for the head of the queue, or for HANDOFF at the head
    of the queue, wakes. *)
Lemma bench_resume l q f k a :
  LockInv l q f →
  (k = WL_head (Some a) ∧ a ∈ q) ∨ (k = WL_handoff (Some a) ∧ head q = Some a) →
  (resume 0 0 k l = Ok (Waiting k) l [] ∧
   (_phase l = HANDOFF → head q ≠ Some a)) ∨
  (k = WL_head (Some a) ∧ head q = Some a ∧ _phase l = WRITING ∧
   resume 0 0 k l = Ok (Waiting (WL_handoff (Some a))) l []) ∨
  (head q = Some a ∧ _phase l = HANDOFF ∧
   ∃ l', resume 0 0 k l = Ok (Returned Void) l' [] ∧
         _phase l' = WRITING ∧ LockInv l' (tail q) (a :: f)).
Proof.
  intros Hinv Hk.
  assert (Hs : _sleepersStart l = head q)
    by (apply queue_is_head, Hinv).
  assert (Hhead : head q = Some a →
    (_phase l = WRITING ∧
     writeLock_head (Some a) l = Ok (Waiting (WL_handoff (Some a))) l []) ∨
    (_phase l = HANDOFF ∧
     ∃ l', writeLock_head (Some a) l = Ok (Returned Void) l' [] ∧
           resume 0 0 (WL_handoff (Some a)) l = Ok (Returned Void) l' [] ∧
           _phase l' = WRITING ∧ LockInv l' (tail q) (a :: f))).
  { intros Hq. rewrite writeLock_head_eq by congruence.
    destruct q as [|b q]; simplify_eq/=.
    pose proof (LockInv_phase_nonempty _ _ _ Hinv) as Hne.
    destruct (decide (_phase l = HANDOFF)) as [H2|H2].
    - right. split; [done|].
      destruct (bench_granted l a q f Hinv H2) as (l' & Hrun & Hw & Hinv').
      exists l'. split; [done|]. split; [|done].
      unfold resume, await, phase_is. by rewrite bind_gets, H2.
    - left. rewrite decide_False by by apply Hne.
      split; [|done]. destruct Hinv as [_ _ _ _ _ Hph].
      destruct Hph as [[? ?]|[[? ?]|?]]; done. }
  destruct Hk as [[-> Hin]|[-> Hq]].
  - unfold resume, await, at_head. rewrite bind_gets, Hs.
    destruct (decide (head q = Some a)) as [Hq|Hq].
    + unfold ptr_eqb. rewrite bool_decide_eq_true_2 by done.
      destruct (Hhead Hq) as [[Hw Hrun]|[H2 (l' & Hrun & _ & Hw & Hinv')]].
      * right; left. by rewrite Hrun.
      * right; right. split; [done|]. split; [done|]. exists l'. by rewrite Hrun.
    + left. unfold ptr_eqb. by rewrite bool_decide_eq_false_2.
  - destruct (Hhead Hq) as [[Hw Hrun]|[H2 (l' & _ & Hrun & Hw & Hinv')]].
    + left. unfold resume, await, phase_is. rewrite bind_gets, Hw.
      split; [done|]. intros H2. by rewrite H2 in Hw.
    + right; right. split; [done|]. split; [done|]. by exists l'.
Qed.

(** [unlockWrite] on the lock of the benchmark. *)
Lemma bench_unlockWrite l q f :
  LockInv l q f → _phase l = WRITING →
  ∃ l' out,
    unlockWrite l = Ok (Returned Void) l' out ∧
    _phase l' ≠ WRITING ∧ LockInv l' q f ∧
    (_phase l' = HANDOFF → ∃ a, head q = Some a ∧ out = [NotifyClock a]).
Proof.
  intros [Hrr Hrw Hq Hf Hd Hph] H3.
  destruct q as [|h q].
  - exists (set_phase READING l), [].
    split; [|split; [done|split; [by split; [..|left]|done]]].
    apply queue_is_head in Hq. simpl in Hq.
    unfold unlockWrite, unlockWriteWithMutex. by exec.
  - exists (set_phase HANDOFF l), [NotifyClock h].
    split; [|split; [done|split; [by split; [..|right; left]|by exists h]]].
    destruct (queue_is_head_allocated _ _ _ Hq) as [Hs [n Hn]].
    unfold unlockWrite, unlockWriteWithMutex, notify_clock. by exec.
Qed.

(** ** The benchmark: the workers *)

Lemma sumZ_insert {A} (g : A → Z) (l : list A) t x y :
  l !! t = Some x → sumZ g (<[t := y]> l) = sumZ g l - g x + g y.
Proof.
  revert t. induction l as [|a l IH]; intros [|t] Ht; simplify_eq/=.
  - lia.
  - rewrite (IH t Ht). lia.
Qed.

Lemma sumZ_constant {A} (g : A → Z) (l : list A) c :
  (∀ x, x ∈ l → g x = c) → sumZ g l = Z.of_nat (length l) * c.
Proof.
  induction l as [|a l IH]; intros Hc; [simpl; lia|].
  cbn [sumZ foldr length]. fold (sumZ g l).
  rewrite IH by (intros x Hx; apply Hc; by right).
  rewrite (Hc a) by by left. lia.
Qed.

Lemma wrap32_succ z : wrap32 (wrap32 z + 1) = wrap32 (z + 1).
Proof.
  unfold wrap32.
  replace ((z + 2 ^ 31) `mod` 2 ^ 32 - 2 ^ 31 + 1 + 2 ^ 31)
    with ((z + 2 ^ 31) `mod` 2 ^ 32 + 1) by lia.
  rewrite Zplus_mod_idemp_l. do 2 f_equal. lia.
Qed.

(** One worker moves from [w] to [w']. *)
Lemma WorkersInv_update K ph q ws v t w w' ph' q' v' :
  WorkersInv K ph q ws v → ws !! t = Some w →
  (∀ i k, w' = Asleep i k →
     sleeps_in q' k ∧
     ∀ t2 i2 k2, t2 ≠ t → ws !! t2 = Some (Asleep i2 k2) →
                 clock_of k ≠ clock_of k2) →
  (∀ t2 i2 k2, t2 ≠ t → ws !! t2 = Some (Asleep i2 k2) → sleeps_in q' k2) →
  (holds w' = true →
     ph' = WRITING ∧
     ∀ t2 w2, t2 ≠ t → ws !! t2 = Some w2 → holds w2 = false) →
  (holds w' = false →
     ∀ t2 w2, t2 ≠ t → ws !! t2 = Some w2 → holds w2 = true →
              ph' = WRITING) →
  v' = wrap32 (sumZ (stored K) ws - stored K w + stored K w') →
  (∀ i tmp, w' = Incr i tmp → tmp = v') →
  (∀ t2 i tmp, t2 ≠ t → ws !! t2 = Some (Incr i tmp) → tmp = v') →
  index_ok K w' →
  WorkersInv K ph' q' (<[t := w']> ws) v'.
Proof.
  intros [Hkind Hdist Hholds Halone Hval Htmp Hidx] Ht
         Hnew Hold Hh1 Hh0 Hv Htmp1 Htmp2 Hi.
  assert (Hlook : ∀ t2 x, <[t := w']> ws !! t2 = Some x →
            (t2 = t ∧ w' = x) ∨ (t2 ≠ t ∧ ws !! t2 = Some x)).
  { intros t2 x Hx.
    apply list_lookup_insert_Some in Hx as [(-> & <- & _)|[Hne Hx]];
      [by left|right]. split; [congruence|done]. }
  split.
  - intros t2 i k [[-> Hw]|[Hne Hx]]%Hlook.
    + by apply (Hnew i k).
    + by eapply Hold.
  - intros t1 t2 i1 i2 k1 k2 [[-> H1]|[Hne1 H1]]%Hlook
           [[-> H2]|[Hne2 H2]]%Hlook Hc; try done.
    + exfalso. destruct (Hnew _ _ H1) as [_ Hfresh].
      by eapply Hfresh.
    + exfalso. destruct (Hnew _ _ H2) as [_ Hfresh].
      by eapply Hfresh.
    + by eapply Hdist.
  - intros t2 x [[-> <-]|[Hne Hx]]%Hlook Hx'.
    + by apply Hh1.
    + destruct (holds w') eqn:Hw'.
      * destruct (Hh1 eq_refl) as [_ Hnone].
        rewrite (Hnone _ _ Hne Hx) in Hx'. done.
      * by eapply Hh0.
  - intros t1 t2 w1 w2 [[-> <-]|[Hne1 H1]]%Hlook
           [[-> H2]|[Hne2 H2]]%Hlook Hw1 Hw2; try done.
    + destruct (Hh1 Hw1) as [_ Hnone].
      rewrite (Hnone _ _ Hne2 H2) in Hw2. done.
    + subst w2. destruct (Hh1 Hw2) as [_ Hnone].
      rewrite (Hnone _ _ Hne1 H1) in Hw1. done.
    + by eapply Halone.
  - by rewrite (sumZ_insert _ _ _ _ _ Ht).
  - intros t2 i tmp [[-> H1]|[Hne Hx]]%Hlook.
    + by eapply Htmp1.
    + by eapply Htmp2.
  - intros t2 x [[-> <-]|[Hne Hx]]%Hlook; [done|by eapply Hidx].
Qed.

Lemma sleeps_in_snoc q a k : sleeps_in q k → sleeps_in (q ++ [a]) k.
Proof.
  intros (b & [[-> Hin]|[-> Hh]]); exists b; [left|right]; (split; [done|]).
  - apply elem_of_app. by left.
  - by destruct q.
Qed.

Lemma sleeps_in_clock q k : sleeps_in q k → ∃ a, clock_of k = Some a ∧ a ∈ q.
Proof.
  intros (b & [[-> Hin]|[-> Hh]]); exists b; (split; [done|]); [done|].
  destruct q; simplify_eq/=. by left.
Qed.

Lemma waits_on_clock a k :
  clock_of k = Some a → waits_on (NotifyClock a) k = true.
Proof.
  destruct k; simpl; intros Hk; try done; subst;
    unfold ptr_eqb; by rewrite bool_decide_eq_true_2.
Qed.

Lemma notified_by_heard a ws t i k :
  ws !! t = Some (Asleep i k) → clock_of k = Some a →
  a ∈ notified_by [NotifyClock a] ws.
Proof.
  intros Ht Hk. unfold notified_by. simpl.
  assert (existsb (hears (NotifyClock a)) ws = true) as ->.
  { apply existsb_exists. exists (Asleep i k). split.
    - apply list_elem_of_In. by eapply list_elem_of_lookup_2.
    - simpl. by apply waits_on_clock. }
  simpl. apply elem_of_union. left. by apply elem_of_singleton.
Qed.

Lemma LiveInv_update ph q ws nt t w w' ph' q' nt' :
  LiveInv ph q ws nt → ws !! t = Some w →
  (ph' = WRITING → holds w' = true ∨ (ph = WRITING ∧ holds w = false)) →
  (∀ a, a ∈ q' →
     (∃ i k, w' = Asleep i k ∧ clock_of k = Some a) ∨
     (a ∈ q ∧ ∀ i k, w = Asleep i k → clock_of k ≠ Some a)) →
  (ph' = HANDOFF → ∃ a, head q' = Some a ∧ a ∈ nt') →
  LiveInv ph' q' (<[t := w']> ws) nt'.
Proof.
  intros [Hh Hs Hn] Ht H1 H2 H3.
  pose proof (lookup_lt_Some _ _ _ Ht) as Hlt.
  split; [| |done].
  - intros Hw. destruct (H1 Hw) as [Hw'|[Hph Hw']].
    + exists t, w'. by rewrite list_lookup_insert_eq.
    + destruct (Hh Hph) as (t2 & w2 & Ht2 & Hh2).
      exists t2, w2. split; [|done].
      rewrite list_lookup_insert_ne; [done|].
      intros <-. congruence.
  - intros a Ha. destruct (H2 a Ha) as [(i & k & -> & Hk)|[Hq Hne]].
    + exists t, i, k. by rewrite list_lookup_insert_eq.
    + destruct (Hs a Hq) as (t2 & i & k & Ht2 & Hk).
      exists t2, i, k. split; [|done].
      rewrite list_lookup_insert_ne; [done|].
      intros <-. simplify_eq. by eapply Hne.
Qed.

Ltac bench_frame Hval :=
  try done; simpl; try lia; eauto; try (rewrite Hval; f_equal; lia).

(** Every step of a thread of the benchmark keeps the invariants; it never
    faults. *)
Lemma bench_step_inv K t b :
  20 ≤ K ≤ INT32_MAX → BenchInv K b →
  ∃ b', bench_step K t b = BRuns b' ∧ BenchInv K b' ∧
        length (b_workers b') = length (b_workers b).
Proof.
  intros HK (q & f & HL & HW & HV).
  pose proof HW as [Hkind Hdist Hholds Halone Hval Htmp Hidx].
  pose proof HV as [Hholder Hsleeper Hnotified].
  unfold bench_step.
  destruct (b_workers b !! t) as [w|] eqn:Ht; [|by exists b; split; [|split; [exists q, f|]]].
  pose proof (Hidx _ _ Ht) as Hi.
  destruct w as [i|i k|i|i tmp|i|]; simpl in Hi.
  - (* at the loop test *)
    destruct (Z.ltb_spec i K) as [HiK|HiK].
    + assert (Hn : K ÷ 20 ≠ 0).
      { pose proof (Z.quot_le_mono 20 K 20 ltac:(lia) ltac:(lia)) as Hq.
        rewrite Z.quot_same in Hq by lia. lia. }
      unfold report, cpp_rem.
      destruct (Z.leb_spec 0 (Z.of_nat t)); [|lia].
      destruct (Z.eqb_spec (K ÷ 20) 0); [done|].
      destruct (decide (_phase (b_lock b) = READING)) as [H0|H0].
      * destruct (bench_writeLock_fast _ _ _ HL H0) as (-> & -> & HL').
        eexists. split; [reflexivity|]. split; [|simpl; by rewrite length_insert].
        exists [], f. split; [done|]. simpl. split.
        -- eapply WorkersInv_update; bench_frame Hval.
           intros _. split; [done|]. intros t2 w2 Hne Hw2.
           destruct (holds w2) eqn:Hh; [|done].
           pose proof (Hholds _ _ Hw2 Hh) as Hw. rewrite H0 in Hw. done.
        -- eapply LiveInv_update; [done..| | |done].
           ++ by left.
           ++ by intros a Ha%elem_of_nil.
      * destruct (bench_writeLock_slow _ _ _ HL H0)
          as (a & l' & -> & Haq & Hph' & HL').
        eexists. split; [reflexivity|]. split; [|simpl; by rewrite length_insert].
        exists (q ++ [a]), (tail f). split; [done|]. simpl. rewrite Hph'.
        split.
        -- eapply WorkersInv_update; bench_frame Hval.
           ++ intros i' k' [= <- <-]. split.
              ** exists a. destruct q as [|b0 q]; [right|left]; (split; [done|]).
                 --- done.
                 --- apply elem_of_app. right. by left.
              ** intros t2 i2 k2 Hne Hw2 Hc.
                 apply Hkind, sleeps_in_clock in Hw2 as (a2 & Ha2 & Hin2).
                 assert (clock_of (if q is [] then WL_handoff (Some a)
                                   else WL_head (Some a)) = Some a)
                   as Hca by by destruct q.
                 rewrite Hca, Ha2 in Hc. by simplify_eq.
           ++ intros t2 i2 k2 _ Hw2. by apply sleeps_in_snoc, (Hkind t2 i2).
        -- eapply LiveInv_update; [done..| | |].
           ++ intros Hw. by right.
           ++ intros a0 [Ha0|Ha0%list_elem_of_singleton]%elem_of_app.
              ** by right.
              ** subst a0. left. eexists _, _. split; [done|]. by destruct q.
           ++ intros H2. destruct (Hnotified H2) as (a1 & Hhd & Hin).
              exists a1. split; [by destruct q|].
              apply elem_of_union. left.
              apply elem_of_difference. split; [done|]. simpl.
              by intros ?%elem_of_empty.
    + eexists. split; [reflexivity|]. split; [|simpl; by rewrite length_insert].
      exists q, f. split; [done|]. simpl. split.
      * eapply WorkersInv_update; bench_frame Hval.
      * eapply LiveInv_update; [done..| | |].
        -- intros Hw. by right.
        -- intros a0 Ha0. by right.
        -- intros H2. destruct (Hnotified H2) as (a1 & Hhd & Hin).
           exists a1. split; [done|].
           apply elem_of_union. left.
           apply elem_of_difference. split; [done|]. simpl.
           by intros ?%elem_of_empty.
  - (* asleep *)
    destruct (Hkind _ _ _ Ht) as (a & Hk).
    assert (Hclock : clock_of k = Some a) by by destruct Hk as [[-> _]|[-> _]].
    destruct (bench_resume _ _ _ _ _ HL Hk)
      as [[-> Hnh]|[(-> & Hhd & Hw & ->)|(Hhd & H2 & l' & -> & Hw & HL')]].
    + eexists. split; [reflexivity|]. split; [|simpl; by rewrite length_insert].
      exists q, f. split; [done|]. simpl. rewrite list_insert_id by done.
      split; [done|].
      split; [done..|].
      intros H2. destruct (Hnotified H2) as (a1 & Hhd & Hin).
      exists a1. split; [done|].
      apply elem_of_union. left.
      apply elem_of_difference. split; [done|]. rewrite Hclock.
      intros ->%elem_of_singleton. by apply Hnh.
    + eexists. split; [reflexivity|]. split; [|simpl; by rewrite length_insert].
      exists q, f. split; [done|]. simpl. split.
      * eapply WorkersInv_update; bench_frame Hval.
        intros i' k' [= <- <-]. split; [exists a; by right|].
        intros t2 i2 k2 Hne Hw2 Hc. apply Hne. symmetry.
        by eapply (Hdist t t2).
      * eapply LiveInv_update; [done..| | |].
        -- intros _. by right.
        -- intros a0 Ha0. destruct (decide (a0 = a)) as [->|Hne].
           ++ left. by eexists _, _.
           ++ right. split; [done|]. intros i' k' [= <- <-]. simpl. congruence.
        -- intros H2. by rewrite H2 in Hw.
    + eexists. split; [reflexivity|]. split; [|simpl; by rewrite length_insert].
      exists (tail q), (a :: f). split; [done|]. simpl. rewrite Hw.
      destruct q as [|a0 q]; simplify_eq/=.
      pose proof (chain_NoDup _ _ _ (proj1 (li_queue _ _ _ HL))) as Hnd.
      apply NoDup_cons in Hnd as [Haq _].
      split.
      * eapply WorkersInv_update; bench_frame Hval.
        -- intros t2 i2 k2 Hne Hw2.
           destruct (Hkind _ _ _ Hw2) as (a2 & [[-> Hin]|[-> Hh]]).
           ++ exists a2. left. split; [done|].
              apply elem_of_cons in Hin as [->|Hin]; [|done].
              destruct Hne. symmetry. by eapply (Hdist t t2).
           ++ simplify_eq/=. destruct Hne. symmetry. by eapply (Hdist t t2).
        -- intros _. split; [done|]. intros t2 w2 Hne Hw2.
           destruct (holds w2) eqn:Hh; [|done].
           pose proof (Hholds _ _ Hw2 Hh) as Hw'. rewrite H2 in Hw'. done.
      * eapply LiveInv_update; [done..| | |done].
        -- by left.
        -- intros a0 Ha0. right. split; [by right|].
           intros i' k' [= <- <-]. rewrite Hclock. intros [= <-]. done.
  - (* the lock is held: load [value] *)
    pose proof (Hholds _ _ Ht eq_refl) as Hw.
    eexists. split; [reflexivity|]. split; [|simpl; by rewrite length_insert].
    exists q, f. split; [done|]. simpl. split.
    + eapply WorkersInv_update; bench_frame Hval.
      * intros _. split; [done|]. intros t2 w2 Hne Hw2.
        destruct (holds w2) eqn:Hh; [|done].
        destruct Hne. by eapply (Halone t2 t).
      * by intros i' tmp' [= _ <-].
    + eapply LiveInv_update; [done..| | |].
      * by left.
      * intros a0 Ha0. by right.
      * intros H2. by rewrite H2 in Hw.
  - (* store [value] *)
    pose proof (Hholds _ _ Ht eq_refl) as Hw.
    pose proof (Htmp _ _ _ Ht) as ->.
    eexists. split; [reflexivity|]. split; [|simpl; by rewrite length_insert].
    exists q, f. split; [done|]. simpl. split.
    + eapply WorkersInv_update; bench_frame Hval.
      * intros _. split; [done|]. intros t2 w2 Hne Hw2.
        destruct (holds w2) eqn:Hh; [|done].
        destruct Hne. by eapply (Halone t2 t).
      * rewrite Hval at 1. rewrite wrap32_succ. f_equal. lia.
      * intros t2 i2 tmp2 Hne Hw2. destruct Hne. by eapply (Halone t2 t).
    + eapply LiveInv_update; [done..| | |].
      * by left.
      * intros a0 Ha0. by right.
      * intros H2. by rewrite H2 in Hw.
  - (* unlockWrite *)
    pose proof (Hholds _ _ Ht eq_refl) as Hw.
    destruct (bench_unlockWrite _ _ _ HL Hw)
      as (l' & out & -> & Hph' & HL' & Hout).
    assert (wrap32 (i + 1) = i + 1) as ->.
    { apply wrap32_id. unfold INT32_MIN, INT32_MAX in *. lia. }
    eexists. split; [reflexivity|]. split; [|simpl; by rewrite length_insert].
    exists q, f. split; [done|]. simpl. split.
    + eapply WorkersInv_update; bench_frame Hval.
      intros _ t2 w2 Hne Hw2 Hh. destruct Hne. by eapply (Halone t2 t).
    + eapply LiveInv_update; [done..| | |].
      * done.
      * intros a0 Ha0. by right.
      * intros H2. destruct (Hout H2) as (a & Hhd & ->).
        exists a. split; [done|].
        destruct (Hsleeper a) as (t2 & i2 & k2 & Ht2 & Hk2).
        { destruct q; simplify_eq/=. by left. }
        apply elem_of_union. right.
        eapply (notified_by_heard a _ t2); [|done].
        rewrite list_lookup_insert_ne; [done|]. intros <-. congruence.
  - (* finished *)
    exists b. split; [done|]. split; [by exists q, f|done].
Qed.

Lemma bench_start_inv K N : 0 ≤ K → BenchInv K (bench_start N).
Proof.
  intros HK. exists [], []. split; [|split].
  - split; [done|done| |apply chain_nil|by intros x Hx%elem_of_nil|by left].
    split; [apply chain_nil|done].
  - unfold bench_start. simpl.
    split.
    + by intros t i k [? _]%lookup_replicate.
    + by intros t1 t2 i1 i2 k1 k2 [? _]%lookup_replicate.
    + by intros t w [-> _]%lookup_replicate.
    + by intros t1 t2 w1 w2 [-> _]%lookup_replicate.
    + rewrite (sumZ_constant _ _ 0); [by rewrite Z.mul_0_r|].
      by intros x [-> _]%elem_of_replicate.
    + by intros t i tmp [? _]%lookup_replicate.
    + intros t w [-> _]%lookup_replicate. simpl. lia.
  - split; [done| |done]. by intros a Ha%elem_of_nil.
Qed.

Lemma bench_run_inv K sched b :
  20 ≤ K ≤ INT32_MAX → BenchInv K b →
  ∃ b', bench_run K sched b = BRuns b' ∧ BenchInv K b' ∧
        length (b_workers b') = length (b_workers b).
Proof.
  intros HK. revert b. induction sched as [|t sched IH]; intros b Hb.
  - by exists b.
  - destruct (bench_step_inv K t b HK Hb) as (b1 & Hstep & Hb1 & Hlen1).
    destruct (IH b1 Hb1) as (b2 & Hrun & Hb2 & Hlen2).
    exists b2. simpl. rewrite Hstep. split; [done|]. split; [done|congruence].
Qed.

(** A worker that is neither asleep nor finished. *)
Lemma awake_runnable K b t w :
  b_workers b !! t = Some w → (∀ i k, w ≠ Asleep i k) → w ≠ Finished →
  runnable K b t.
Proof.
  intros Ht Hs Hf. unfold runnable. rewrite Ht.
  destruct w; try done. by destruct (Hs i k).
Qed.

(** With the invariants, in HANDOFF the sleeper at the head of the queue
    has been notified and gets the lock when it wakes. *)
Lemma bench_handoff_runnable K b :
  BenchInv K b → _phase (b_lock b) = HANDOFF → ∃ t, runnable K b t.
Proof.
  intros (q & f & HL & HW & HV) H2.
  destruct (lv_notified _ _ _ _ HV H2) as (a & Hhd & Hnt).
  destruct (lv_sleeper _ _ _ _ HV a) as (t & i & k & Ht & Hk).
  { destruct q; simplify_eq/=. by left. }
  exists t. unfold runnable. rewrite Ht. split; [by exists a|].
  destruct (wi_kind _ _ _ _ _ HW _ _ _ Ht) as (a' & Hk').
  assert (a' = a) as -> by (destruct Hk' as [[-> _]|[-> _]]; by simplify_eq/=).
  unfold bench_step. rewrite Ht.
  destruct (bench_resume _ _ _ _ _ HL Hk')
    as [[_ Hnh]|[(_ & _ & Hw & _)|(_ & _ & l' & -> & _)]].
  - by destruct (Hnh H2).
  - by rewrite H2 in Hw.
  - eexists. split; [reflexivity|]. simpl.
    apply list_lookup_insert_eq. by eapply lookup_lt_Some.
Qed.

Lemma bench_progress K b :
  BenchInv K b →
  Forall (λ w, w = Finished) (b_workers b) ∨ ∃ t, runnable K b t.
Proof.
  intros Hb.
  pose (awake := λ w, match w with
                      | Loop _ | Locked _ | Incr _ _ | Unlock _ => true
                      | _ => false
                      end).
  pose (asleep := λ w, if w is Asleep _ _ then true else false).
  destruct (decide (Exists (λ w, awake w = true) (b_workers b))) as [Hex|Hno].
  { right. apply Exists_exists in Hex as (w & Hin & Hw).
    apply list_elem_of_lookup in Hin as [t Ht].
    exists t. eapply awake_runnable; [done|..]; by intros; destruct w. }
  apply not_Exists_Forall in Hno; [|intros w; apply _].
  destruct (decide (Exists (λ w, asleep w = true) (b_workers b))) as [Hex|Hns].
  - right. apply Exists_exists in Hex as (w & Hin & Hw).
    apply list_elem_of_lookup in Hin as [t Ht].
    destruct w as [| i k | | | |]; try done.
    pose proof Hb as (q & f & HL & HW & HV).
    destruct (wi_kind _ _ _ _ _ HW _ _ _ Ht) as (a & Ha).
    assert (q ≠ []) as Hq.
    { intros ->. destruct Ha as [[_ Hin]|[_ Hh]]; [|done].
      by apply elem_of_nil in Hin. }
    apply (bench_handoff_runnable K b Hb).
    destruct (li_phase _ _ _ HL) as [[_ ->]|[[? _]|Hw3]]; [done|done|].
    destruct (lv_holder _ _ _ _ HV Hw3) as (t2 & w2 & Ht2 & Hh2).
    assert (awake w2 = true) as Haw by by destruct w2.
    pose proof (proj1 (Forall_forall _ _) Hno w2) as Hno2.
    simpl in Hno2. destruct Hno2; [|done].
    by eapply list_elem_of_lookup_2.
  - left. apply not_Exists_Forall in Hns; [|intros w; apply _].
    apply Forall_forall. intros w Hin.
    pose proof (proj1 (Forall_forall _ _) Hno w Hin) as H1.
    pose proof (proj1 (Forall_forall _ _) Hns w Hin) as H2.
    simpl in H1, H2. by destruct w.
Qed.

(** X11.  [main] with 1 to 19 iterations divides by zero: [n] is
    [iterations / 20 = 0], every thread is created with [report] true, and
    the first thread that runs evaluates [i % n] before it touches the
    lock, whatever the schedule. *)
Theorem benchmark_divides_by_zero K N sched :
  1 ≤ K ≤ 19 → (∃ t, t ∈ sched ∧ (t < N)%nat) →
  bench_run K sched (bench_start N) = BDivisionByZero.
Proof.
  intros HK. induction sched as [|t sched IH]; intros (t0 & Hin & Hlt).
  - by apply elem_of_nil in Hin.
  - simpl. unfold bench_step. cbn [bench_start b_workers].
    destruct (decide (t < N)%nat) as [Ht|Ht].
    + rewrite lookup_replicate_2 by done.
      destruct (Z.ltb_spec 0 K); [|lia].
      unfold report, cpp_rem.
      destruct (Z.leb_spec 0 (Z.of_nat t)); [|lia].
      rewrite Z.quot_small by lia. done.
    + rewrite (proj1 (lookup_replicate_None N (Loop 0) t)) by lia.
      apply IH. exists t0. split; [|done].
      apply elem_of_cons in Hin as [->|Hin]; [lia|done].
Qed.

Lemma benchmark_divides_by_zero_witness :
  bench_run 19 [5; 1; 0]%nat (bench_start 2) = BDivisionByZero.
Proof.
  apply benchmark_divides_by_zero; [lia|].
  exists 1%nat. split; [|lia]. right. by left.
Defined.

(** X12.  [main] with at least 20 iterations, under every schedule of its
    threads, spurious wake-ups included: no step faults, at most one
    thread is between the return of [writeLock] and the return of
    [unlockWrite], and when all threads have finished [value] is
    [concurrency * iterations] if that fits an int: no increment is
    lost. *)
Theorem benchmark_excludes_and_counts K N sched :
  20 ≤ K ≤ INT32_MAX →
  ∃ b, bench_run K sched (bench_start N) = BRuns b ∧
       (∀ t1 t2 w1 w2,
           b_workers b !! t1 = Some w1 → b_workers b !! t2 = Some w2 →
           holds w1 = true → holds w2 = true → t1 = t2) ∧
       (Z.of_nat N * K ≤ INT32_MAX →
        Forall (λ w, w = Finished) (b_workers b) →
        b_value b = Z.of_nat N * K).
Proof.
  intros HK.
  destruct (bench_run_inv K sched (bench_start N) HK) as (b & Hrun & Hb & Hlen).
  { apply bench_start_inv. lia. }
  exists b. split; [done|].
  destruct Hb as (q & f & HL & [_ _ _ Halone Hval _ _] & _).
  split; [done|]. intros HN Hfin.
  rewrite Hval, (sumZ_constant _ _ K).
  - rewrite Hlen. unfold bench_start. simpl. rewrite length_replicate.
    apply wrap32_id. unfold INT32_MIN, INT32_MAX in *. lia.
  - intros x Hx. by rewrite (proj1 (Forall_forall _ _) Hfin x Hx).
Qed.

Lemma benchmark_excludes_and_counts_witness :
  ∃ b, bench_run 20 sched_round_robin (bench_start 2) = BRuns b ∧
       b_workers b = [Finished; Finished] ∧ b_value b = 40.
Proof.
  destruct (benchmark_excludes_and_counts 20 2 sched_round_robin)
    as (b & Hrun & _ & Hfin).
  { unfold INT32_MAX. lia. }
  assert (b_workers b = [Finished; Finished]) as Hws.
  { vm_compute in Hrun. injection Hrun as <-. reflexivity. }
  exists b. split; [done|]. split; [done|].
  apply Hfin; [unfold INT32_MAX; lia|]. rewrite Hws. by repeat constructor.
Defined.

(** X13.  [main] with at least 20 iterations cannot deadlock: under every
    schedule of its threads, spurious wake-ups included, either all threads
    have finished or some thread can run without a spurious wake-up, being
    awake, or asleep in [writeLock], notified, and let in when it wakes. *)
Theorem benchmark_never_deadlocks K N sched :
  20 ≤ K ≤ INT32_MAX →
  ∃ b, bench_run K sched (bench_start N) = BRuns b ∧
       (Forall (λ w, w = Finished) (b_workers b) ∨ ∃ t, runnable K b t).
Proof.
  intros HK.
  destruct (bench_run_inv K sched (bench_start N) HK) as (b & Hrun & Hb & _).
  { apply bench_start_inv. lia. }
  exists b. split; [done|]. by apply bench_progress.
Qed.

Lemma benchmark_never_deadlocks_witness :
  ∃ b, bench_run 20 (take 9 sched_round_robin) (bench_start 2) = BRuns b ∧
       (Forall (λ w, w = Finished) (b_workers b) ∨ ∃ t, runnable 20 b t).
Proof.
  apply (benchmark_never_deadlocks 20 2 (take 9 sched_round_robin)).
  unfold INT32_MAX. lia.
Defined.
